(** * A shallow embedding of the dependency-injection containers of
      [examples/spring_di_demo]

    Two containers are embedded: [OptimizedApplicationContext]
    (optimized_spring_di.py) and [ApplicationContext] (spring_di.py).

    Python classes are the inputs of the container.  A class is identified
    by a [TypeId]; what the container can observe of a class (its
    [__mro__], the signature of its [__init__], whether the body of
    [__init__] raises, the truth value of its instances) is given by a
    class table [classes : TypeId -> ClassDef].

    The class-level dictionaries of the containers are Python [dict]s:
    they iterate in insertion order, and assigning to an existing key keeps
    the key's position.  They are embedded as association lists.

    One thread runs the container.  Constructors are opaque to it: a
    constructor binds its arguments, may raise, and otherwise leaves a new
    object; it does not call back into the container, and what its body
    raises is an exception of the application or a builtin one, not one of
    the container's own exception classes.  Classes are built through
    [__init__] (no [__new__] or metaclass [__call__] of their own).

    Every [TypeId] names a class: annotations that are not classes
    (strings, subscripted generics) are outside the model. *)

From Stdlib Require Import List String Bool Arith Lia ZArith Permutation.
Import ListNotations.
Open Scope string_scope.
Open Scope list_scope.

Set Implicit Arguments.

(** ** Python dictionaries with string-like keys *)

Definition TypeId := string.

Section Dict.
Variable V : Type.

Definition dict := list (string * V).

(** [d.get(k)] *)
Fixpoint dict_get (d : dict) (k : string) : option V :=
  match d with
  | [] => None
  | (k', v) :: d' => if String.eqb k' k then Some v else dict_get d' k
  end.

(** [d[k] = v] *)
Fixpoint dict_set (d : dict) (k : string) (v : V) : dict :=
  match d with
  | [] => [(k, v)]
  | (k', v') :: d' =>
      if String.eqb k' k then (k', v) :: d' else (k', v') :: dict_set d' k v
  end.

(** [d.keys()], [d.values()] *)
Definition dict_keys (d : dict) : list string := map fst d.
Definition dict_values (d : dict) : list V := map snd d.

(** [k in d] *)
Definition dict_mem (d : dict) (k : string) : bool :=
  match dict_get d k with Some _ => true | None => false end.
End Dict.

(** [x in l] for a Python list or set of types *)
Definition contains (l : list TypeId) (x : TypeId) : bool :=
  existsb (String.eqb x) l.

(** [l.index(x)] ([None] stands for the [ValueError] of a missing element) *)
Fixpoint list_index (l : list TypeId) (x : TypeId) : option nat :=
  match l with
  | [] => None
  | y :: l' =>
      if String.eqb y x then Some 0
      else match list_index l' x with
           | Some i => Some (S i)
           | None => None
           end
  end.

(** [s.add(x)] on a set, kept as a duplicate-free list *)
Definition set_add (s : list TypeId) (x : TypeId) : list TypeId :=
  if contains s x then s else s ++ [x].

(** ** Classes, instances and the heap *)

Inductive Scope := SINGLETON | PROTOTYPE.

Definition Scope_eqb (a b : Scope) : bool :=
  match a, b with
  | SINGLETON, SINGLETON | PROTOTYPE, PROTOTYPE => true
  | _, _ => false
  end.

(** [inspect.Parameter.kind] *)
Inductive ParamKind :=
| POSITIONAL_ONLY
| POSITIONAL_OR_KEYWORD
| VAR_POSITIONAL
| KEYWORD_ONLY
| VAR_KEYWORD.

(** One entry of [inspect.signature(cls.__init__).parameters].
    [annotation = None] is [inspect.Parameter.empty]; [has_default] says
    that [default] is not [inspect.Parameter.empty]. *)
Record Param := {
  param_name : string;
  annotation : option TypeId;
  kind : ParamKind;
  has_default : bool
}.

(** A call must supply the parameter: it has no default and is not
    variadic. *)
Definition required (p : Param) : bool :=
  negb (has_default p)
  && match kind p with
     | VAR_POSITIONAL | VAR_KEYWORD => false
     | _ => true
     end.

(** A keyword argument of the parameter's name binds it. *)
Definition by_keyword (p : Param) : bool :=
  match kind p with
  | POSITIONAL_OR_KEYWORD | KEYWORD_ONLY => true
  | _ => false
  end.

(** A positional argument can bind the parameter. *)
Definition by_position (p : Param) : bool :=
  match kind p with
  | POSITIONAL_ONLY | POSITIONAL_OR_KEYWORD | VAR_POSITIONAL => true
  | _ => false
  end.

(** What the body of [__init__] raises, if it raises: a builtin
    [ValueError] (as [FaultyService] of the stability test does), or some
    other exception. *)
Inductive InitError :=
| InitValueError (subject : string)
| InitOtherError.

Record ClassDef := {
  mro : list TypeId;              (* cls.__mro__, the class itself first *)
  subclasscheck : TypeId -> bool; (* issubclass(cls, t), as the metaclass
                                     of t answers it: __mro__ membership,
                                     __subclasshook__, ABC registration *)
  init_signature : list Param;     (* parameters of __init__, receiver first *)
  init_raises : option InitError; (* what the body of __init__ raises *)
  truthy : bool                   (* bool(instance), for classes whose
                                     instances all have one truth value
                                     that no update changes: True unless
                                     __bool__ / __len__ say otherwise *)
}.

(** A reference to an object: its identity and its class. *)
Record Instance := { inst_id : nat; inst_class : TypeId }.

Inductive Value :=
| VInstance (i : Instance)
| VInt (z : Z).

(** The attribute dictionary of one object. *)
Definition Object := dict Value.

(** [TypeError], [KeywordError] and [ReceiverError] are the builtin
    [TypeError] of a call that cannot bind its arguments: required
    parameters left unbound; a keyword that the signature does not take
    (unexpected, positional-only, or a second value for the receiver); no
    parameter for the receiver.  [ValueError] is the builtin one, with what
    its message names.  [ConstructorError] stands for any other exception
    out of the body of [__init__]. *)
Inductive Exception :=
| CircularDependencyError (cycle_path : list TypeId)
| BeanNotFoundError (bean_type : TypeId)
| TypeError (component_type : TypeId) (missing : list string)
| KeywordError (component_type : TypeId) (keyword : string)
| ReceiverError (component_type : TypeId)
| ConstructorError (component_type : TypeId)
| ValueError (subject : TypeId).

(** The result of running a piece of Python: a value, a raised exception,
    [RecursionLimit] when the recursion budget of the model is used up
    (unbounded recursion in the source), or [Blocked] when the thread waits
    for a non-re-entrant lock that it holds itself. *)
Inductive Outcome (A : Type) :=
| Return (a : A)
| Raise (e : Exception)
| RecursionLimit
| Blocked.
Arguments Return {A} a.
Arguments Raise {A} e.
Arguments RecursionLimit {A}.
Arguments Blocked {A}.

(** The configuration dictionary stored for a registered component. *)
Record Config := {
  scope : Scope;
  primary : bool;
  instance : option Instance
}.

Record Metric := { creation_count : nat; total_time : nat }.

Inductive Issue :=
| CircularIssue (cycle_path : list TypeId)
| UnresolvedIssue (component_type param_type : TypeId).

(** ** The world outside the container

    Objects live in a heap; a new object gets the next free identity.
    [constructor_calls] records every keyword-argument call of a class the
    container makes, in order.  [time.perf_counter()] is a logical clock
    that advances by one tick at each reading. *)

Record World := {
  heap : list Object;
  constructor_calls : list (TypeId * dict Instance);
  clock : nat
}.

Definition empty_world : World :=
  {| heap := []; constructor_calls := []; clock := 0 |}.

Definition perf_counter (w : World) : nat * World :=
  (clock w,
   {| heap := heap w; constructor_calls := constructor_calls w;
      clock := S (clock w) |}).

(** [getattr(o, name)] and [setattr(o, name, v)] on heap objects. *)
Definition getattr (h : list Object) (o : Instance) (name : string)
  : option Value :=
  match nth_error h (inst_id o) with
  | Some attrs => dict_get attrs name
  | None => None
  end.

Fixpoint update_nth (h : list Object) (n : nat) (f : Object -> Object)
  : list Object :=
  match h, n with
  | [], _ => []
  | obj :: h', O => f obj :: h'
  | obj :: h', S n' => obj :: update_nth h' n' f
  end.

Definition setattr (h : list Object) (o : Instance) (name : string)
  (v : Value) : list Object :=
  update_nth h (inst_id o) (fun attrs => dict_set attrs name v).

(** Two objects of which neither sees an attribute update on the
    other. *)
Definition independent (o1 o2 : Instance) : Prop :=
  inst_id o1 <> inst_id o2
  /\ (forall h name name' v,
         getattr (setattr h o1 name v) o2 name' = getattr h o2 name')
  /\ (forall h name name' v,
         getattr (setattr h o2 name v) o1 name' = getattr h o1 name').

Section Construction.
Variable classes : TypeId -> ClassDef.

(** [issubclass(component_type, interface_type)] *)
Definition issubclass (component_type interface_type : TypeId) : bool :=
  subclasscheck (classes component_type) interface_type.

(** The parameters that calling [component_type] with the keyword
    arguments [kwargs] leaves unbound: every required parameter after the
    receiver that no keyword of [kwargs] binds. *)
Definition missing_arguments (component_type : TypeId)
  (kwargs : dict Instance) : list string :=
  map param_name
    (filter
       (fun p =>
          required p
          && negb (by_keyword p && dict_mem kwargs (param_name p)))
       (tl (init_signature (classes component_type)))).

(** The call binds the keyword [k]: to a parameter of that name that
    takes keywords and is not the receiver, which already has its value,
    or else to the [**kwargs] of the signature. *)
Definition keyword_accepted (signature : list Param) (k : string) : bool :=
  let var_keyword :=
    existsb
      (fun p => match kind p with VAR_KEYWORD => true | _ => false end)
      signature in
  match signature with
  | [] => false
  | first :: rest =>
      if String.eqb (param_name first) k then
        match kind first with
        | POSITIONAL_OR_KEYWORD => false
        | KEYWORD_ONLY => true
        | _ => var_keyword
        end
      else
        existsb (fun p => String.eqb (param_name p) k && by_keyword p) rest
        || var_keyword
  end.

(** The keywords of [kwargs] that the call cannot bind. *)
Definition rejected_keywords (component_type : TypeId)
  (kwargs : dict Instance) : list string :=
  filter
    (fun k =>
       negb (keyword_accepted (init_signature (classes component_type)) k))
    (dict_keys kwargs).

(** Some parameter takes the receiver. *)
Definition takes_receiver (signature : list Param) : bool :=
  match signature with
  | first :: _ => by_position first
  | [] => false
  end.

(** Why calling [component_type] with the keywords [kwargs] raises, if it
    does: binding the keywords, then the receiver, then the required
    parameters, then the body of [__init__]. *)
Definition construct_error (component_type : TypeId)
  (kwargs : dict Instance) : option Exception :=
  match rejected_keywords component_type kwargs with
  | k :: _ => Some (KeywordError component_type k)
  | [] =>
      if negb (takes_receiver (init_signature (classes component_type)))
      then Some (ReceiverError component_type)
      else
        match missing_arguments component_type kwargs with
        | (_ :: _) as missing => Some (TypeError component_type missing)
        | [] =>
            match init_raises (classes component_type) with
            | Some (InitValueError subject) => Some (ValueError subject)
            | Some InitOtherError =>
                Some (ConstructorError component_type)
            | None => None
            end
        end
  end.

(** Calling [component_type] with keyword arguments [kwargs]: the call
    raises, or leaves a new object whose attributes are the injected
    dependencies. *)
Definition construct (component_type : TypeId) (kwargs : dict Instance)
  (w : World) : Outcome Instance * World :=
  let calls := constructor_calls w ++ [(component_type, kwargs)] in
  match construct_error component_type kwargs with
  | Some e =>
      (Raise e,
       {| heap := heap w; constructor_calls := calls; clock := clock w |})
  | None =>
      (Return {| inst_id := List.length (heap w);
                 inst_class := component_type |},
       {| heap := heap w ++ [map (fun kv => (fst kv, VInstance (snd kv)))
                                 kwargs];
          constructor_calls := calls;
          clock := clock w |})
  end.

(** The truth value of [config['instance']]. *)
Definition instance_truth (o : option Instance) : bool :=
  match o with
  | Some i => truthy (classes (inst_class i))
  | None => false
  end.

(** The annotated parameters of [__init__], as both containers collect
    them: the parameter named [self] is skipped, then every parameter
    with an annotation contributes [name -> annotation]. *)
Definition signature_dependencies (component_type : TypeId) : dict TypeId :=
  fold_left
    (fun dependencies p =>
       if String.eqb (param_name p) "self" then dependencies
       else match annotation p with
            | Some t => dict_set dependencies (param_name p) t
            | None => dependencies
            end)
    (init_signature (classes component_type)) [].
End Construction.

(** * optimized_spring_di.py: [OptimizedApplicationContext] *)

Module OptimizedApplicationContext.

(** The class attributes of the container.  [_instances] and
    [_creation_stack] are never read or written by any method and are left
    out; [_lock] is a re-entrant lock held by the single caller.
    [lru_cache] is the memo table that [functools.lru_cache] attaches to
    [_analyze_dependencies], most recently used entry first. *)
Record Context := {
  _component_configs : dict Config;
  _dependency_cache : dict (dict TypeId);
  _creation_order_cache : dict (list TypeId);
  _metrics : dict Metric;
  lru_cache : list (TypeId * dict TypeId);
  world : World
}.

Definition empty_context : Context :=
  {| _component_configs := []; _dependency_cache := [];
     _creation_order_cache := []; _metrics := []; lru_cache := [];
     world := empty_world |}.

Definition with_configs (st : Context) (c : dict Config) : Context :=
  {| _component_configs := c;
     _dependency_cache := _dependency_cache st;
     _creation_order_cache := _creation_order_cache st;
     _metrics := _metrics st; lru_cache := lru_cache st;
     world := world st |}.

Definition with_dependency_cache (st : Context) (c : dict (dict TypeId))
  : Context :=
  {| _component_configs := _component_configs st;
     _dependency_cache := c;
     _creation_order_cache := _creation_order_cache st;
     _metrics := _metrics st; lru_cache := lru_cache st;
     world := world st |}.

Definition with_metrics (st : Context) (m : dict Metric) : Context :=
  {| _component_configs := _component_configs st;
     _dependency_cache := _dependency_cache st;
     _creation_order_cache := _creation_order_cache st;
     _metrics := m; lru_cache := lru_cache st;
     world := world st |}.

Definition with_lru_cache (st : Context) (l : list (TypeId * dict TypeId))
  : Context :=
  {| _component_configs := _component_configs st;
     _dependency_cache := _dependency_cache st;
     _creation_order_cache := _creation_order_cache st;
     _metrics := _metrics st; lru_cache := l;
     world := world st |}.

Definition with_world (st : Context) (w : World) : Context :=
  {| _component_configs := _component_configs st;
     _dependency_cache := _dependency_cache st;
     _creation_order_cache := _creation_order_cache st;
     _metrics := _metrics st; lru_cache := lru_cache st;
     world := w |}.

(** [defaultdict(lambda: {'creation_count': 0, 'total_time': 0})] *)
Definition metric_of (m : dict Metric) (t : TypeId) : Metric :=
  match dict_get m t with
  | Some r => r
  | None => {| creation_count := 0; total_time := 0 |}
  end.

Definition lru_maxsize : nat := 1000.

Section Container.
Variable classes : TypeId -> ClassDef.

(** The body of [_analyze_dependencies], below the memo decorator. *)
Definition analyze_dependencies_body (component_type : TypeId)
  (st : Context) : dict TypeId * Context :=
  match dict_get (_dependency_cache st) component_type with
  | Some dependencies => (dependencies, st)
  | None =>
      let dependencies := signature_dependencies classes component_type in
      (dependencies,
       with_dependency_cache st
         (dict_set (_dependency_cache st) component_type dependencies))
  end.

(** [_analyze_dependencies] behind [lru_cache(maxsize=1000)]: a hit
    returns the memoised map without running the body. *)
Definition _analyze_dependencies (component_type : TypeId) (st : Context)
  : dict TypeId * Context :=
  match dict_get (lru_cache st) component_type with
  | Some dependencies =>
      (dependencies,
       with_lru_cache st
         ((component_type, dependencies)
            :: filter (fun e => negb (String.eqb (fst e) component_type))
                 (lru_cache st)))
  | None =>
      let (dependencies, st1) :=
        analyze_dependencies_body component_type st in
      (dependencies,
       with_lru_cache st1
         (firstn lru_maxsize
            ((component_type, dependencies) :: lru_cache st1)))
  end.

Definition register_component (component_type : TypeId) (scope : Scope)
  (primary : bool) (st : Context) : Context :=
  let st1 :=
    with_configs st
      (dict_set (_component_configs st) component_type
         {| scope := scope; primary := primary; instance := None |}) in
  snd (_analyze_dependencies component_type st1).

Definition _find_implementations (st : Context) (interface_type : TypeId)
  : list TypeId :=
  filter
    (fun component_type =>
       issubclass classes component_type interface_type
       && negb (String.eqb component_type interface_type))
    (dict_keys (_component_configs st)).

(** [config['scope'] == Scope.SINGLETON and config['instance']]: the
    instance that the early return hands out, if the test passes. *)
Definition published (config : Config) : option Instance :=
  if Scope_eqb (scope config) SINGLETON
     && instance_truth classes (instance config)
  then instance config else None.

(** *** The resolver *)

Section Resolver.
(** The recursive call [cls.get_bean(param_type, creation_path)]. *)
Variable rec :
  TypeId -> option (list TypeId) -> Context -> Outcome Instance * Context.

(** The loop of [_create_instance_optimized] that fills
    [resolved_dependencies]. *)
Fixpoint resolve_dependencies (dependencies_info : dict TypeId)
  (creation_path : list TypeId) (resolved_dependencies : dict Instance)
  (st : Context) : Outcome (dict Instance) * Context :=
  match dependencies_info with
  | [] => (Return resolved_dependencies, st)
  | (param_name, param_type) :: rest =>
      match rec param_type (Some creation_path) st with
      | (Return i, st1) =>
          resolve_dependencies rest creation_path
            (dict_set resolved_dependencies param_name i) st1
      | (Raise e, st1) => (Raise e, st1)
      | (RecursionLimit, st1) => (RecursionLimit, st1)
      | (Blocked, st1) => (Blocked, st1)
      end
  end.

Definition _create_instance_optimized (component_type : TypeId)
  (creation_path : list TypeId) (st : Context)
  : Outcome Instance * Context :=
  let dependencies_info :=
    match dict_get (_dependency_cache st) component_type with
    | Some d => d
    | None => []
    end in
  match dependencies_info with
  | [] =>
      let (r, w) := construct classes component_type [] (world st) in
      (r, with_world st w)
  | _ :: _ =>
      match resolve_dependencies dependencies_info creation_path [] st with
      | (Return resolved_dependencies, st1) =>
          let (r, w) :=
            construct classes component_type resolved_dependencies
              (world st1) in
          (r, with_world st1 w)
      | (Raise e, st1) => (Raise e, st1)
      | (RecursionLimit, st1) => (RecursionLimit, st1)
      | (Blocked, st1) => (Blocked, st1)
      end
  end.

(** What follows a successful construction in [get_bean]: the singleton
    is stored through [config], then the metrics are updated.  [config]
    is the dictionary object that was fetched from the registry before
    the construction; no constructor registers components, so it still is
    the registry entry of [bean_type], and the store shows there. *)
Definition record_creation (bean_type : TypeId) (config : Config)
  (instance : Instance) (start_time : nat) (st1 : Context) : Context :=
  let st2 :=
    if Scope_eqb (scope config) SINGLETON then
      with_configs st1
        (dict_set (_component_configs st1) bean_type
           {| scope := scope config; primary := primary config;
              instance := Some instance |})
    else st1 in
  let m := metric_of (_metrics st2) bean_type in
  let st3 :=
    with_metrics st2
      (dict_set (_metrics st2) bean_type
         {| creation_count := creation_count m + 1;
            total_time := total_time m |}) in
  let (now, w) := perf_counter (world st3) in
  let m' := metric_of (_metrics st3) bean_type in
  with_world
    (with_metrics st3
       (dict_set (_metrics st3) bean_type
          {| creation_count := creation_count m';
             total_time := total_time m' + (now - start_time) |}))
    w.

(** [get_bean] from the singleton test on, for the resolved
    [bean_type] and its [config]. *)
Definition get_bean_configured (bean_type : TypeId) (config : Config)
  (_creation_path : list TypeId) (start_time : nat) (st : Context)
  : Outcome Instance * Context :=
  match published config with
  | Some i => (Return i, st)
  | None =>
      match _create_instance_optimized bean_type
              (_creation_path ++ [bean_type]) st with
      | (Return instance, st1) =>
          (Return instance,
           record_creation bean_type config instance start_time st1)
      | (Raise e, st1) => (Raise e, st1)
      | (RecursionLimit, st1) => (RecursionLimit, st1)
      | (Blocked, st1) => (Blocked, st1)
      end
  end.

Definition get_bean_body (bean_type : TypeId)
  (_creation_path : option (list TypeId)) (st0 : Context)
  : Outcome Instance * Context :=
  let _creation_path :=
    match _creation_path with Some p => p | None => [] end in
  let (start_time, w) := perf_counter (world st0) in
  let st := with_world st0 w in
  if contains _creation_path bean_type then
    (Raise (CircularDependencyError (_creation_path ++ [bean_type])), st)
  else
    match dict_get (_component_configs st) bean_type with
    | Some config =>
        get_bean_configured bean_type config _creation_path start_time st
    | None =>
        match _find_implementations st bean_type with
        | impl :: _ =>
            match dict_get (_component_configs st) impl with
            | Some config =>
                get_bean_configured impl config _creation_path
                  start_time st
            | None => (Raise (BeanNotFoundError impl), st)
            end
        | [] => (Raise (BeanNotFoundError bean_type), st)
        end
    end.
End Resolver.

(** [get_bean]; [fuel] bounds the depth of the recursion. *)
Fixpoint get_bean (fuel : nat) (bean_type : TypeId)
  (_creation_path : option (list TypeId)) (st : Context)
  : Outcome Instance * Context :=
  match fuel with
  | O => (RecursionLimit, st)
  | S fuel' => get_bean_body (get_bean fuel') bean_type _creation_path st
  end.

(** [get_component], the helper handed to FastAPI's [Depends]. *)
Definition get_component (fuel : nat) (component_type : TypeId)
  (st : Context) : Outcome Instance * Context :=
  get_bean fuel component_type None st.

Definition get_metrics (st : Context) : dict Metric := _metrics st.

Definition clear_cache (st : Context) : Context :=
  {| _component_configs := _component_configs st;
     _dependency_cache := [];
     _creation_order_cache := [];
     _metrics := _metrics st;
     lru_cache := [];
     world := world st |}.

(** *** The validator *)

Section Detector.
(** The recursive call
    [cls._detect_circular_dependencies(param_type, visited.copy(),
    path.copy())]. *)
Variable rec :
  TypeId -> list TypeId -> option (list TypeId) -> Context ->
  Outcome unit * Context.

(** [for param_type in dependencies.values(): ...] *)
Fixpoint detect_each (param_types : list TypeId) (visited : list TypeId)
  (path : list TypeId) (st : Context) : Outcome unit * Context :=
  match param_types with
  | [] => (Return tt, st)
  | param_type :: rest =>
      if dict_mem (_component_configs st) param_type then
        match rec param_type visited (Some path) st with
        | (Return _, st1) => detect_each rest visited path st1
        | (Raise e, st1) => (Raise e, st1)
        | (RecursionLimit, st1) => (RecursionLimit, st1)
        | (Blocked, st1) => (Blocked, st1)
        end
      else detect_each rest visited path st
  end.

Definition detect_body (component_type : TypeId)
  (visited : list TypeId) (path : option (list TypeId)) (st : Context)
  : Outcome unit * Context :=
  let path := match path with Some p => p | None => [] end in
  if contains visited component_type then
    match list_index path component_type with
    | Some cycle_start =>
        (Raise (CircularDependencyError
                  (skipn cycle_start path ++ [component_type])), st)
    | None => (Raise (ValueError component_type), st)
    end
  else
    let visited := set_add visited component_type in
    let path := path ++ [component_type] in
    let dependencies :=
      match dict_get (_dependency_cache st) component_type with
      | Some d => d
      | None => []
      end in
    detect_each (dict_values dependencies) visited path st.
End Detector.

Fixpoint _detect_circular_dependencies (fuel : nat)
  (component_type : TypeId) (visited : list TypeId)
  (path : option (list TypeId)) (st : Context) : Outcome unit * Context :=
  match fuel with
  | O => (RecursionLimit, st)
  | S fuel' =>
      detect_body (_detect_circular_dependencies fuel')
        component_type visited path st
  end.

(** The first loop of [validate_configuration]: only
    [CircularDependencyError] is caught. *)
Fixpoint check_cycles (fuel : nat) (component_types : list TypeId)
  (issues : list Issue) (st : Context) : Outcome (list Issue) * Context :=
  match component_types with
  | [] => (Return issues, st)
  | component_type :: rest =>
      match _detect_circular_dependencies fuel component_type [] None st
      with
      | (Return _, st1) => check_cycles fuel rest issues st1
      | (Raise (CircularDependencyError cycle_path), st1) =>
          check_cycles fuel rest (issues ++ [CircularIssue cycle_path]) st1
      | (Raise e, st1) => (Raise e, st1)
      | (RecursionLimit, st1) => (RecursionLimit, st1)
      | (Blocked, st1) => (Blocked, st1)
      end
  end.

(** The second loop, for one entry of [_dependency_cache]. *)
Definition unresolved_of (st : Context) (component_type : TypeId)
  (deps : dict TypeId) : list Issue :=
  flat_map
    (fun param : string * TypeId =>
       let param_type := snd param in
       if dict_mem (_component_configs st) param_type then []
       else
         match _find_implementations st param_type with
         | [] => [UnresolvedIssue component_type param_type]
         | _ :: _ => []
         end)
    deps.

Definition check_unresolved (st : Context) : list Issue :=
  flat_map (fun entry => unresolved_of st (fst entry) (snd entry))
    (_dependency_cache st).

Definition validate_configuration (fuel : nat) (st : Context)
  : Outcome (list Issue) * Context :=
  match check_cycles fuel (dict_keys (_component_configs st)) [] st with
  | (Return issues, st1) => (Return (issues ++ check_unresolved st1), st1)
  | (Raise e, st1) => (Raise e, st1)
  | (RecursionLimit, st1) => (RecursionLimit, st1)
  | (Blocked, st1) => (Blocked, st1)
  end.

(** A recursion budget that the validator never uses up: one level per
    registered component, plus the level that finds the repetition. *)
Definition validation_fuel (st : Context) : nat :=
  S (List.length (_component_configs st)).

(** *** Notions used to state the properties *)

(** Reading the clock changes nothing but the clock. *)
Definition ticked (st : Context) : Context :=
  with_world st (snd (perf_counter (world st))).

(** What any number of resolutions may change in the container: nothing
    but the [instance] slot of components that are neither prototypes nor
    already published, the metrics, and the world, which only grows. *)
Record evolves (st st' : Context) : Prop := {
  ev_keys :
    dict_keys (_component_configs st') = dict_keys (_component_configs st);
  ev_static : forall t c,
    dict_get (_component_configs st) t = Some c ->
    exists c', dict_get (_component_configs st') t = Some c'
               /\ scope c' = scope c /\ primary c' = primary c;
  ev_published : forall t c,
    dict_get (_component_configs st) t = Some c ->
    published c <> None ->
    dict_get (_component_configs st') t = Some c;
  ev_prototype : forall t c,
    dict_get (_component_configs st) t = Some c ->
    scope c = PROTOTYPE ->
    dict_get (_component_configs st') t = Some c;
  ev_dependency_cache : _dependency_cache st' = _dependency_cache st;
  ev_creation_order_cache :
    _creation_order_cache st' = _creation_order_cache st;
  ev_lru_cache : lru_cache st' = lru_cache st;
  ev_heap : exists new, heap (world st') = heap (world st) ++ new;
  ev_calls : exists new,
    constructor_calls (world st') = constructor_calls (world st) ++ new;
  ev_clock : clock (world st) <= clock (world st')
}.

(** A registry entry is settled when it belongs to a prototype or holds a
    published singleton: no resolution writes to it. *)
Definition settled (config : Config) : Prop :=
  scope config = PROTOTYPE \/ published config <> None.

(** A type is missing when it has neither an exact registration nor any
    implementation among the registered components. *)
Definition missing (st : Context) (t : TypeId) : Prop :=
  dict_get (_component_configs st) t = None
  /\ _find_implementations st t = [].

(** The registered components that a walk has not visited yet. *)
Definition unvisited (st : Context) (visited : list TypeId) : list TypeId :=
  filter (fun k => negb (contains visited k))
    (dict_keys (_component_configs st)).

(** A walk ends well when it returns or reports a cycle. *)
Definition ends_well (r : Outcome unit) : Prop :=
  r = Return tt
  \/ exists cycle_path, r = Raise (CircularDependencyError cycle_path).

(** The issue, if any, that the first loop of [validate_configuration]
    appends for one component. *)
Definition cycle_issue (fuel : nat) (st : Context) (component_type : TypeId)
  : list Issue :=
  match fst (_detect_circular_dependencies fuel component_type [] None st)
  with
  | Raise (CircularDependencyError cycle_path) => [CircularIssue cycle_path]
  | _ => []
  end.

(** *** Client programs

    A client is a sequence of calls of the public class methods,
    interleaved with attribute updates on the objects it was handed. *)

Inductive Call :=
| Register (component_type : TypeId) (scope : Scope) (primary : bool)
| GetBean (fuel : nat) (bean_type : TypeId)
    (_creation_path : option (list TypeId))
| GetMetrics
| ClearCache
| ValidateConfiguration (fuel : nat)
| SetAttr (o : Instance) (name : string) (v : Value).

Definition run_call (st : Context) (c : Call) : Context :=
  match c with
  | Register component_type scope primary =>
      register_component component_type scope primary st
  | GetBean fuel bean_type _creation_path =>
      snd (get_bean fuel bean_type _creation_path st)
  | GetMetrics => st
  | ClearCache => clear_cache st
  | ValidateConfiguration fuel => snd (validate_configuration fuel st)
  | SetAttr o name v =>
      with_world st
        {| heap := setattr (heap (world st)) o name v;
           constructor_calls := constructor_calls (world st);
           clock := clock (world st) |}
  end.

Definition run (calls : list Call) (st : Context) : Context :=
  fold_left run_call calls st.

(** The call re-registers [t]. *)
Definition registers (t : TypeId) (c : Call) : bool :=
  match c with
  | Register component_type _ _ => String.eqb component_type t
  | _ => false
  end.
End Container.

End OptimizedApplicationContext.
(** * spring_di.py: [ApplicationContext] *)

Module ApplicationContext.

(** The class attributes of the container.  [_components] is never read or
    written by any method and is left out.  [_lock] is a plain
    [threading.Lock]: it is not re-entrant, and [_lock = true] says that
    the calling thread holds it. *)
Record Context := {
  _component_configs : dict Config;
  _lock : bool;
  world : World
}.

Definition empty_context : Context :=
  {| _component_configs := []; _lock := false; world := empty_world |}.

Definition with_configs (st : Context) (c : dict Config) : Context :=
  {| _component_configs := c; _lock := _lock st; world := world st |}.

Definition with_lock (st : Context) (l : bool) : Context :=
  {| _component_configs := _component_configs st; _lock := l;
     world := world st |}.

Definition with_world (st : Context) (w : World) : Context :=
  {| _component_configs := _component_configs st; _lock := _lock st;
     world := w |}.

Section Container.
Variable classes : TypeId -> ClassDef.

Definition register_component (component_type : TypeId) (scope : Scope)
  (primary : bool) (st : Context) : Outcome unit * Context :=
  if _lock st then (Blocked, st)
  else
    (Return tt,
     with_configs st
       (dict_set (_component_configs st) component_type
          {| scope := scope; primary := primary; instance := None |})).

Definition _find_implementations (st : Context) (interface_type : TypeId)
  : list TypeId :=
  filter
    (fun component_type =>
       contains (mro (classes component_type)) interface_type)
    (dict_keys (_component_configs st)).

Definition published (config : Config) : option Instance :=
  if Scope_eqb (scope config) SINGLETON
     && instance_truth classes (instance config)
  then instance config else None.

Section Resolver.
(** The recursive call [cls.get_bean(param_type)]. *)
Variable rec : TypeId -> Context -> Outcome Instance * Context.

(** The loop of [_create_instance] over the constructor's parameters. *)
Fixpoint inject (params : list Param) (dependencies : dict Instance)
  (st : Context) : Outcome (dict Instance) * Context :=
  match params with
  | [] => (Return dependencies, st)
  | p :: rest =>
      if String.eqb (param_name p) "self" then
        inject rest dependencies st
      else
        match annotation p with
        | None => inject rest dependencies st
        | Some param_type =>
            match rec param_type st with
            | (Return i, st1) =>
                inject rest (dict_set dependencies (param_name p) i) st1
            | (Raise e, st1) => (Raise e, st1)
            | (RecursionLimit, st1) => (RecursionLimit, st1)
            | (Blocked, st1) => (Blocked, st1)
            end
        end
  end.

Definition _create_instance (component_type : TypeId) (st : Context)
  : Outcome Instance * Context :=
  match inject (init_signature (classes component_type)) [] st with
  | (Return dependencies, st1) =>
      let (r, w) :=
        construct classes component_type dependencies (world st1) in
      (r, with_world st1 w)
  | (Raise e, st1) => (Raise e, st1)
  | (RecursionLimit, st1) => (RecursionLimit, st1)
  | (Blocked, st1) => (Blocked, st1)
  end.

(** [get_bean] from the singleton test on. *)
Definition get_bean_configured (bean_type : TypeId) (config : Config)
  (st : Context) : Outcome Instance * Context :=
  match published config with
  | Some i => (Return i, st)
  | None =>
      match _create_instance bean_type st with
      | (Return instance, st1) =>
          (Return instance,
           if Scope_eqb (scope config) SINGLETON then
             with_configs st1
               (dict_set (_component_configs st1) bean_type
                  {| scope := scope config; primary := primary config;
                     instance := Some instance |})
           else st1)
      | (Raise e, st1) => (Raise e, st1)
      | (RecursionLimit, st1) => (RecursionLimit, st1)
      | (Blocked, st1) => (Blocked, st1)
      end
  end.

(** The block under [with cls._lock:]. *)
Definition get_bean_locked (bean_type : TypeId) (st : Context)
  : Outcome Instance * Context :=
  match dict_get (_component_configs st) bean_type with
  | Some config => get_bean_configured bean_type config st
  | None =>
      match _find_implementations st bean_type with
      | impl :: _ =>
          match dict_get (_component_configs st) impl with
          | Some config => get_bean_configured impl config st
          | None => (Raise (ValueError impl), st)
          end
      | [] => (Raise (ValueError bean_type), st)
      end
  end.

(** [with cls._lock:] waits forever when the thread already holds the
    lock; it releases the lock when the block returns or raises. *)
Definition get_bean_body (bean_type : TypeId) (st : Context)
  : Outcome Instance * Context :=
  if _lock st then (Blocked, st)
  else
    match get_bean_locked bean_type (with_lock st true) with
    | (Return i, st1) => (Return i, with_lock st1 false)
    | (Raise e, st1) => (Raise e, with_lock st1 false)
    | (RecursionLimit, st1) => (RecursionLimit, st1)
    | (Blocked, st1) => (Blocked, st1)
    end.
End Resolver.

Fixpoint get_bean (fuel : nat) (bean_type : TypeId) (st : Context)
  : Outcome Instance * Context :=
  match fuel with
  | O => (RecursionLimit, st)
  | S fuel' => get_bean_body (get_bean fuel') bean_type st
  end.

(** *** Notions used to state the properties *)

(** A registry entry that no resolution writes to. *)
Definition settled (config : Config) : Prop :=
  scope config = PROTOTYPE \/ published config <> None.

(** What a resolution may change: the [instance] slot of entries that are
    not settled, the lock, and the world, whose heap only grows. *)
Record evolves (st st' : Context) : Prop := {
  ev_keys :
    dict_keys (_component_configs st') = dict_keys (_component_configs st);
  ev_settled : forall t c,
    dict_get (_component_configs st) t = Some c ->
    settled c ->
    dict_get (_component_configs st') t = Some c;
  ev_heap :
    List.length (heap (world st)) <= List.length (heap (world st'))
}.

(** *** Client programs *)

Inductive Call :=
| Register (component_type : TypeId) (scope : Scope) (primary : bool)
| GetBean (fuel : nat) (bean_type : TypeId)
| SetAttr (o : Instance) (name : string) (v : Value).

Definition run_call (st : Context) (c : Call) : Context :=
  match c with
  | Register component_type scope primary =>
      snd (register_component component_type scope primary st)
  | GetBean fuel bean_type => snd (get_bean fuel bean_type st)
  | SetAttr o name v =>
      with_world st
        {| heap := setattr (heap (world st)) o name v;
           constructor_calls := constructor_calls (world st);
           clock := clock (world st) |}
  end.

Definition run (calls : list Call) (st : Context) : Context :=
  fold_left run_call calls st.

Definition registers (t : TypeId) (c : Call) : bool :=
  match c with
  | Register component_type _ _ => String.eqb component_type t
  | _ => false
  end.
End Container.

End ApplicationContext.
(** * Concrete classes and registries

    The classes of the repository's tests, and a few more of the same
    kind, as a class table. *)

Module Demo.

Definition self : Param :=
  {| param_name := "self"; annotation := None;
     kind := POSITIONAL_OR_KEYWORD; has_default := false |}.

(** A parameter [name: t] without default. *)
Definition dep (name : string) (t : TypeId) : Param :=
  {| param_name := name; annotation := Some t;
     kind := POSITIONAL_OR_KEYWORD; has_default := false |}.

(** A parameter [name: t = None]. *)
Definition optional (name : string) (t : TypeId) : Param :=
  {| param_name := name; annotation := Some t;
     kind := POSITIONAL_OR_KEYWORD; has_default := true |}.

(** An ordinary class: [bases] are its ancestors, [params] the parameters
    of [__init__] after [self]. *)
Definition plain (name : TypeId) (bases : list TypeId) (params : list Param)
  : ClassDef :=
  {| mro := name :: bases ++ ["object"];
     subclasscheck := contains (name :: bases ++ ["object"]);
     init_signature := self :: params;
     init_raises := None;
     truthy := true |}.

Definition table : list (TypeId * ClassDef) :=
  [ (* stability_test.py, test_circular_dependency_detection *)
    ("ServiceA", plain "ServiceA" [] [dep "service_b" "ServiceB"]);
    ("ServiceB", plain "ServiceB" [] [dep "service_a" "ServiceA"]);
    (* test_error_handling *)
    ("ServiceWithUnregisteredDep",
      plain "ServiceWithUnregisteredDep" []
        [dep "dep" "UnregisteredDependency"]);
    (* test_performance_under_load *)
    ("LoadTestRepository", plain "LoadTestRepository" [] []);
    ("LoadTestService",
      plain "LoadTestService" [] [dep "repo" "LoadTestRepository"]);
    (* test_spring_di.py, test_prototype_scope / test_singleton_scope *)
    ("PrototypeService", plain "PrototypeService" [] []);
    ("SingletonService", plain "SingletonService" [] []);
    (* two implementations of one interface *)
    ("DatabaseDataSource", plain "DatabaseDataSource" ["IDataSource"] []);
    ("CacheDataSource", plain "CacheDataSource" ["IDataSource"] []);
    (* a component that takes the interface it implements *)
    ("Decorator", plain "Decorator" ["IHandler"] [dep "inner" "IHandler"]);
    (* a component with [__len__], empty when created *)
    ("Inbox",
      {| mro := ["Inbox"; "object"];
         subclasscheck := contains ["Inbox"; "Sized"; "object"];
         init_signature := [self];
         init_raises := None; truthy := false |});
    (* a component whose dependency has a default *)
    ("ReportService",
      plain "ReportService" [] [optional "repo" "LoadTestRepository"]);
    (* stability_test.py, test_error_handling *)
    ("FaultyService",
      {| mro := ["FaultyService"; "object"];
         subclasscheck := contains ["FaultyService"; "object"];
         init_signature := [self];
         init_raises := Some (InitValueError "Intentional error");
         truthy := true |}) ].

Definition classes (t : TypeId) : ClassDef :=
  match dict_get table t with
  | Some c => c
  | None => plain t [] []
  end.

Definition registry_of (l : list (TypeId * Scope * bool))
  : OptimizedApplicationContext.Context :=
  fold_left
    (fun st e =>
       OptimizedApplicationContext.register_component classes
         (fst (fst e)) (snd (fst e)) (snd e) st)
    l OptimizedApplicationContext.empty_context.

(** One cyclic pair and one component with a dangling dependency. *)
Definition cyclic_registry : OptimizedApplicationContext.Context :=
  registry_of [("ServiceA", SINGLETON, false);
               ("ServiceB", SINGLETON, false);
               ("ServiceWithUnregisteredDep", SINGLETON, false)].

(** Two implementations of [IDataSource]; the second one is primary. *)
Definition datasource_registry : OptimizedApplicationContext.Context :=
  registry_of [("DatabaseDataSource", SINGLETON, false);
               ("CacheDataSource", SINGLETON, true)].

(** Both implementations of [IDataSource] are primary. *)
Definition two_primaries_registry : OptimizedApplicationContext.Context :=
  registry_of [("DatabaseDataSource", SINGLETON, true);
               ("CacheDataSource", SINGLETON, true)].

Definition service_registry : OptimizedApplicationContext.Context :=
  registry_of [("LoadTestRepository", SINGLETON, false);
               ("LoadTestService", SINGLETON, false);
               ("PrototypeService", PROTOTYPE, false);
               ("Inbox", SINGLETON, false)].

Definition decorator_registry : OptimizedApplicationContext.Context :=
  registry_of [("Decorator", SINGLETON, false)].

(** The same for the container of spring_di.py. *)
Definition basic_registry_of (l : list (TypeId * Scope * bool))
  : ApplicationContext.Context :=
  fold_left
    (fun st e =>
       snd (ApplicationContext.register_component
              (fst (fst e)) (snd (fst e)) (snd e) st))
    l ApplicationContext.empty_context.

Definition basic_service_registry : ApplicationContext.Context :=
  basic_registry_of [("LoadTestRepository", SINGLETON, false);
                     ("LoadTestService", SINGLETON, false);
                     ("PrototypeService", PROTOTYPE, false);
                     ("Inbox", SINGLETON, false)].

End Demo.
(** * The rest of optimized_spring_di.py *)

Module OptimizedExtensions.
Import OptimizedApplicationContext.

Section Decorators.
Variable classes : TypeId -> ClassDef.

(** [component(scope, primary)(cls)]: a failed [get_type_hints] only
    warns; the class is registered and handed back as it is. *)
Definition component (scope : Scope) (primary : bool) (cls : TypeId)
  (st : Context) : TypeId * Context :=
  (cls, register_component classes cls scope primary st).

(** [service(scope)], [repository(scope)] and [controller(scope)] all are
    [component(scope=scope)]. *)
Definition service (scope : Scope) := component scope false.
Definition repository (scope : Scope) := component scope false.
Definition controller (scope : Scope) := component scope false.
End Decorators.

(** A call that neither registers a component nor clears the caches. *)
Definition quiet (c : Call) : bool :=
  match c with
  | Register _ _ _ | ClearCache => false
  | _ => true
  end.

(** The call updates an attribute of an object. *)
Definition sets_attribute (c : Call) : bool :=
  match c with
  | SetAttr _ _ _ => true
  | _ => false
  end.

(** One turn of the loop of [_analyze_dependencies] over the parameters. *)
Definition analyze_step (dependencies : dict TypeId) (p : Param)
  : dict TypeId :=
  if String.eqb (param_name p) "self" then dependencies
  else match annotation p with
       | Some t => dict_set dependencies (param_name p) t
       | None => dependencies
       end.

Section Notions.
Variable classes : TypeId -> ClassDef.

(** The component that [get_bean] goes on with for a requested type: the
    type itself when it is registered, else its first implementation. *)
Definition resolved_type (st : Context) (t : TypeId) : option TypeId :=
  match dict_get (_component_configs st) t with
  | Some _ => Some t
  | None =>
      match _find_implementations classes st t with
      | impl :: _ => Some impl
      | [] => None
      end
  end.

(** The dependency map that [_create_instance_optimized] reads. *)
Definition dependencies_of (st : Context) (t : TypeId) : dict TypeId :=
  match dict_get (_dependency_cache st) t with
  | Some d => d
  | None => []
  end.

(** A constructor call is well wired when its keyword arguments are the
    parameters of the cached dependency map, in order, each bound to an
    object of the component that its type resolves to. *)
Definition well_wired (st : Context) (call : TypeId * dict Instance)
  : Prop :=
  dict_keys (snd call) = dict_keys (dependencies_of st (fst call))
  /\ forall name d i,
       In (name, d) (dependencies_of st (fst call)) ->
       dict_get (snd call) name = Some i ->
       resolved_type st d = Some (inst_class i).

(** The number of creations that the metrics record. *)
Definition total_creations (m : dict Metric) : nat :=
  list_sum (map (fun e => creation_count (snd e)) m).

(** What holds of the container between any two calls of a client. *)
Record consistent (st : Context) : Prop := {
  co_instances : forall t c i,
    dict_get (_component_configs st) t = Some c ->
    instance c = Some i ->
    inst_class i = t /\ inst_id i < List.length (heap (world st));
  co_cache : forall t d,
    dict_get (_dependency_cache st) t = Some d ->
    d = signature_dependencies classes t;
  co_memo : forall t d,
    dict_get (lru_cache st) t = Some d ->
    dict_get (_dependency_cache st) t = Some d;
  co_cache_registered : forall t,
    In t (dict_keys (_dependency_cache st)) ->
    In t (dict_keys (_component_configs st));
  co_metrics :
    total_creations (_metrics st) = List.length (heap (world st))
}.

(** What a resolution of [t] from [st] that ended in [st'] with [r] owes
    its caller: a consistent container, well-wired constructor calls, and,
    when it returns, an object of the component that [t] resolves to. *)
Definition sound_outcome (st : Context) (t : TypeId) (r : Outcome Instance)
  (st' : Context) : Prop :=
  consistent st'
  /\ (exists new,
         constructor_calls (world st') = constructor_calls (world st) ++ new
         /\ Forall (well_wired st) new)
  /\ (forall i, r = Return i ->
        resolved_type st t = Some (inst_class i)
        /\ inst_id i < List.length (heap (world st'))).

(** Every cached dependency is a registered component itself: no
    resolution goes through the search for implementations. *)
Definition closed (st : Context) : Prop :=
  forall t name d,
    In (name, d) (dependencies_of st t) ->
    dict_get (_component_configs st) d <> None.

(** [closed], as a check that runs over the cached dependency maps. *)
Definition closedb (st : Context) : bool :=
  forallb
    (fun entry : TypeId * dict TypeId =>
       forallb
         (fun p : string * TypeId =>
            dict_mem (_component_configs st) (snd p))
         (snd entry))
    (_dependency_cache st).

(** Every registered component has its dependency map in the cache. *)
Definition cached (st : Context) : Prop :=
  forall c, In c (dict_keys (_component_configs st)) ->
            dict_get (_dependency_cache st) c <> None.

Definition cachedb (st : Context) : bool :=
  forallb (dict_mem (_dependency_cache st))
    (dict_keys (_component_configs st)).

(** A class that the container can construct from its dependency map:
    the call that passes exactly the parameters of the map as keywords
    binds its arguments, and the body of [__init__] does not raise. *)
Definition constructible (c : TypeId) : Prop :=
  forall kwargs : dict Instance,
    dict_keys kwargs = dict_keys (signature_dependencies classes c) ->
    construct_error classes c kwargs = None.

Definition constructibleb (c : TypeId) : bool :=
  match
    construct_error classes c
      (map (fun e : string * TypeId =>
              (fst e, {| inst_id := 0; inst_class := snd e |}))
         (signature_dependencies classes c))
  with
  | None => true
  | Some _ => false
  end.

(** A registry from which every registered component can be built,
    cycles apart. *)
Definition well_formed (st : Context) : Prop :=
  consistent st /\ closed st /\ cached st
  /\ forall c, In c (dict_keys (_component_configs st)) -> constructible c.

(** A call finishes when it returns or raises: it neither recurses
    without end nor waits for a lock. *)
Definition finishes (A : Type) (r : Outcome A) : Prop :=
  match r with
  | Return _ | Raise _ => True
  | RecursionLimit | Blocked => False
  end.

(** [v] is a registered dependency of [u]. *)
Definition edge (st : Context) (u v : TypeId) : Prop :=
  (exists name, In (name, v) (dependencies_of st u))
  /\ dict_get (_component_configs st) v <> None.

(** Each element of the list depends on the next one. *)
Fixpoint walk (st : Context) (l : list TypeId) : Prop :=
  match l with
  | u :: (v :: _) as l' => edge st u v /\ walk st l'
  | _ => True
  end.

(** A walk from a component back to itself that visits no other component
    twice. *)
Definition simple_cycle (st : Context) (cyc : list TypeId) : Prop :=
  exists x mid, cyc = x :: mid ++ [x] /\ NoDup (x :: mid) /\ walk st cyc.

(** A walk that ends in a component it has visited before. *)
Definition cyclic_walk (st : Context) (cyc : list TypeId) : Prop :=
  walk st cyc /\ exists pre x mid, cyc = pre ++ x :: mid ++ [x].

(** The exception reports a cycle of the registry. *)
Definition only_cycle (st : Context) (e : Exception) : Prop :=
  exists cyc, e = CircularDependencyError cyc /\ cyclic_walk st cyc.
End Notions.

End OptimizedExtensions.

(** * The rest of spring_di.py: field injection *)

Module BasicExtensions.
Import ApplicationContext.

(** The call updates an attribute of an object. *)
Definition sets_attribute (c : Call) : bool :=
  match c with
  | SetAttr _ _ _ => true
  | _ => false
  end.

(** A parameter that [_create_instance] resolves through [get_bean]: it
    is not named [self] and has an annotation. *)
Definition injected (p : Param) : bool :=
  negb (String.eqb (param_name p) "self")
  && match annotation p with Some _ => true | None => false end.

(** What a nested [get_bean] gives while the lock is held: the thread
    waits for its own lock (the budget of the model may end first). *)
Definition held_outcome (A : Type) (fuel : nat) : Outcome A :=
  match fuel with O => RecursionLimit | S _ => Blocked end.

(** [AutowiredDescriptor.__set_name__]: the attribute [name] of the owner
    class keeps its value in the instance attribute [_name]. *)
Definition field_name (name : string) : string := "_" ++ name.

Section Descriptor.
Variable classes : TypeId -> ClassDef.

(** The component that [get_bean] goes on with for a requested type: the
    type itself when it is registered, else the first registered component
    that has it in its [__mro__]. *)
Definition resolved_type (st : Context) (t : TypeId) : option TypeId :=
  match dict_get (_component_configs st) t with
  | Some _ => Some t
  | None =>
      match _find_implementations classes st t with
      | impl :: _ => Some impl
      | [] => None
      end
  end.

(** [AutowiredDescriptor.__get__(instance, owner)] for an instance: the
    first read resolves [field_type] and stores the bean on the
    instance. *)
Definition autowired_get (fuel : nat) (field_type : TypeId) (name : string)
  (instance : Instance) (st : Context) : Outcome Value * Context :=
  match getattr (heap (world st)) instance (field_name name) with
  | Some v => (Return v, st)
  | None =>
      match get_bean classes fuel field_type st with
      | (Return value, st1) =>
          (Return (VInstance value),
           with_world st1
             {| heap := setattr (heap (world st1)) instance
                          (field_name name) (VInstance value);
                constructor_calls := constructor_calls (world st1);
                clock := clock (world st1) |})
      | (Raise e, st1) => (Raise e, st1)
      | (RecursionLimit, st1) => (RecursionLimit, st1)
      | (Blocked, st1) => (Blocked, st1)
      end
  end.

(** [AutowiredDescriptor.__set__(instance, value)] *)
Definition autowired_set (name : string) (instance : Instance)
  (value : Value) (st : Context) : Context :=
  with_world st
    {| heap := setattr (heap (world st)) instance (field_name name) value;
       constructor_calls := constructor_calls (world st);
       clock := clock (world st) |}.
End Descriptor.

End BasicExtensions.

(** * Facts about dictionaries, lists and the heap *)

Section DictFacts.
Variable V : Type.
Implicit Types (d : dict V) (k : string) (v : V).

Lemma dict_get_set_eq d k v : dict_get (dict_set d k v) k = Some v.
Proof.
  induction d as [|[k' v'] d IH]; simpl.
  - now rewrite String.eqb_refl.
  - destruct (String.eqb k' k) eqn:E; simpl; rewrite E; auto.
Qed.

Lemma dict_get_set_neq d k k' v :
  k <> k' -> dict_get (dict_set d k v) k' = dict_get d k'.
Proof.
  intros Hne. induction d as [|[k0 v0] d IH]; simpl.
  - destruct (String.eqb k k') eqn:E; auto.
    apply String.eqb_eq in E. contradiction.
  - destruct (String.eqb k0 k) eqn:E; simpl.
    + apply String.eqb_eq in E. subst k0.
      destruct (String.eqb k k') eqn:E'; auto.
      apply String.eqb_eq in E'. contradiction.
    + now rewrite IH.
Qed.

Lemma dict_get_In_keys d k :
  dict_get d k <> None <-> In k (dict_keys d).
Proof.
  induction d as [|[k' v'] d IH]; simpl.
  - split; [congruence | tauto].
  - destruct (String.eqb k' k) eqn:E.
    + apply String.eqb_eq in E. split; [auto | congruence].
    + apply String.eqb_neq in E. rewrite IH. split; [auto | ].
      intros [H | H]; [contradiction | assumption].
Qed.

Lemma dict_get_Some_In_keys d k v :
  dict_get d k = Some v -> In k (dict_keys d).
Proof. intros H. apply dict_get_In_keys. congruence. Qed.

Lemma dict_get_None_keys d k :
  dict_get d k = None <-> ~ In k (dict_keys d).
Proof.
  rewrite <- dict_get_In_keys.
  destruct (dict_get d k); split; intros H; try congruence; try tauto.
  exfalso. apply H. congruence.
Qed.

(** Assigning to a key that is present keeps the order of the keys. *)
Lemma dict_keys_set_present d k v :
  In k (dict_keys d) -> dict_keys (dict_set d k v) = dict_keys d.
Proof.
  induction d as [|[k' v'] d IH]; simpl; [tauto|].
  intros H. destruct (String.eqb k' k) eqn:E; simpl; auto.
  apply String.eqb_neq in E. f_equal. apply IH.
  destruct H; [contradiction | assumption].
Qed.

(** Assigning to a new key appends it. *)
Lemma dict_keys_set_absent d k v :
  ~ In k (dict_keys d) -> dict_keys (dict_set d k v) = dict_keys d ++ [k].
Proof.
  induction d as [|[k' v'] d IH]; simpl; auto.
  intros H. destruct (String.eqb k' k) eqn:E; simpl.
  - apply String.eqb_eq in E. tauto.
  - f_equal. apply IH. tauto.
Qed.

Lemma dict_mem_true d k : dict_mem d k = true <-> In k (dict_keys d).
Proof.
  unfold dict_mem. rewrite <- dict_get_In_keys.
  destruct (dict_get d k); split; congruence.
Qed.

Lemma dict_set_length_le d k v :
  List.length d <= List.length (dict_set d k v).
Proof.
  induction d as [|[k' v'] d IH]; simpl; [lia|].
  destruct (String.eqb k' k); simpl; lia.
Qed.
End DictFacts.

(** Two dictionaries with the same keys answer [k in d] alike. *)
Lemma dict_get_None_same_keys (A B : Type) (d : dict A) (d' : dict B) k :
  dict_keys d = dict_keys d' ->
  dict_get d k = None -> dict_get d' k = None.
Proof.
  intros Hk H. apply dict_get_None_keys. rewrite <- Hk.
  now apply dict_get_None_keys.
Qed.

Lemma contains_In l x : contains l x = true <-> In x l.
Proof.
  unfold contains. rewrite existsb_exists. split.
  - intros [y [Hy E]]. apply String.eqb_eq in E. now subst.
  - intros H. exists x. split; [assumption | apply String.eqb_refl].
Qed.

Lemma contains_false l x : contains l x = false <-> ~ In x l.
Proof.
  rewrite <- contains_In. destruct (contains l x); split; congruence.
Qed.

Lemma set_add_In s x y : In y (set_add s x) <-> y = x \/ In y s.
Proof.
  unfold set_add. destruct (contains s x) eqn:E.
  - apply contains_In in E. split; [auto | intros [-> | H]; auto].
  - rewrite in_app_iff. simpl. split; intros H; intuition.
Qed.

Lemma list_index_In l x : In x l -> exists i, list_index l x = Some i.
Proof.
  induction l as [|y l IH]; simpl; [tauto|].
  intros H. destruct (String.eqb y x) eqn:E; [now exists 0|].
  apply String.eqb_neq in E. destruct H as [H | H]; [contradiction|].
  destruct (IH H) as [i Hi]. rewrite Hi. now exists (S i).
Qed.

(** Updating an attribute of one object leaves every other object alone. *)
Lemma getattr_setattr_other h o1 o2 name name' v :
  inst_id o1 <> inst_id o2 ->
  getattr (setattr h o1 name v) o2 name' = getattr h o2 name'.
Proof.
  unfold getattr, setattr. generalize (inst_id o1) (inst_id o2).
  intros n m. revert n m.
  induction h as [|obj h IH]; intros [|n] [|m] Hne; simpl;
    try congruence; try reflexivity.
  apply IH. congruence.
Qed.

Lemma setattr_length h o name v :
  List.length (setattr h o name v) = List.length h.
Proof.
  unfold setattr. generalize (inst_id o). intros n. revert n.
  induction h as [|obj h IH]; intros [|n]; simpl; auto.
Qed.
(** * Properties of [OptimizedApplicationContext] *)

(** The ways in which a constructor call ends. *)
Ltac construct_cases classes t kwargs :=
  unfold construct, construct_error;
  destruct (rejected_keywords classes t kwargs);
  [ destruct (negb (takes_receiver (init_signature (classes t))));
    [ | destruct (missing_arguments classes t kwargs);
        [ destruct (init_raises (classes t)) as [[?|]|] | ] ]
  | ].

Module OptimizedProperties.
Import OptimizedApplicationContext.

Section Evolution.
Variable classes : TypeId -> ClassDef.

Lemma evolves_refl st : evolves classes st st.
Proof.
  constructor; auto.
  - intros t c H. exists c. auto.
  - exists []. now rewrite app_nil_r.
  - exists []. now rewrite app_nil_r.
Qed.

Lemma evolves_trans st1 st2 st3 :
  evolves classes st1 st2 -> evolves classes st2 st3 -> evolves classes st1 st3.
Proof.
  intros A B. constructor.
  - rewrite (ev_keys B). apply (ev_keys A).
  - intros t c H. destruct (ev_static A _ H) as [c' [H' [Hs Hp]]].
    destruct (ev_static B _ H') as [c'' [H'' [Hs' Hp']]].
    exists c''. repeat split; congruence.
  - intros t c H Hp. apply (ev_published B); auto. apply (ev_published A); auto.
  - intros t c H Hp. apply (ev_prototype B); auto. apply (ev_prototype A); auto.
  - rewrite (ev_dependency_cache B). apply (ev_dependency_cache A).
  - rewrite (ev_creation_order_cache B). apply (ev_creation_order_cache A).
  - rewrite (ev_lru_cache B). apply (ev_lru_cache A).
  - destruct (ev_heap A) as [n1 E1]. destruct (ev_heap B) as [n2 E2].
    exists (n1 ++ n2). rewrite E2, E1. now rewrite app_assoc.
  - destruct (ev_calls A) as [n1 E1]. destruct (ev_calls B) as [n2 E2].
    exists (n1 ++ n2). rewrite E2, E1. now rewrite app_assoc.
  - pose proof (ev_clock A). pose proof (ev_clock B). lia.
Qed.

(** A change of the world alone is an evolution when the world grows. *)
Lemma with_world_evolves st w :
  (exists new, heap w = heap (world st) ++ new) ->
  (exists new,
     constructor_calls w = constructor_calls (world st) ++ new) ->
  clock (world st) <= clock w ->
  evolves classes st (with_world st w).
Proof.
  intros Hh Hc Hk. constructor; simpl; auto.
  intros t c H. exists c. auto.
Qed.

Lemma tick_evolves st :
  evolves classes st (with_world st (snd (perf_counter (world st)))).
Proof.
  apply with_world_evolves; simpl.
  - exists []. now rewrite app_nil_r.
  - exists []. now rewrite app_nil_r.
  - lia.
Qed.

Lemma construct_evolves st component_type kwargs r w :
  construct classes component_type kwargs (world st) = (r, w) ->
  evolves classes st (with_world st w).
Proof.
  unfold construct. intros H.
  destruct (construct_error classes component_type kwargs);
    inversion H; subst; clear H;
    apply with_world_evolves; simpl; eauto;
    try (exists []; now rewrite app_nil_r).
Qed.

(** Storing a freshly built singleton and counting the creation is an
    evolution of the state in which the component was found unpublished. *)
Lemma record_creation_evolves st st1 bean_type config i start_time :
  dict_get (_component_configs st) bean_type = Some config ->
  published classes config = None ->
  evolves classes st st1 ->
  evolves classes st (record_creation bean_type config i start_time st1).
Proof.
  intros Hcfg Hpub E. unfold record_creation.
  assert (Hin : In bean_type (dict_keys (_component_configs st1))).
  { rewrite (ev_keys E). eapply dict_get_Some_In_keys; eauto. }
  destruct (Scope_eqb (scope config) SINGLETON) eqn:Hs; simpl.
  - constructor; simpl.
    + rewrite dict_keys_set_present by assumption. apply (ev_keys E).
    + intros t c H. destruct (String.eqb bean_type t) eqn:Et.
      * apply String.eqb_eq in Et. subst t.
        rewrite dict_get_set_eq. eexists. split; [reflexivity|].
        simpl. split; congruence.
      * apply String.eqb_neq in Et. rewrite dict_get_set_neq by assumption.
        apply (ev_static E _ H).
    + intros t c H Hp.
      rewrite dict_get_set_neq; [apply (ev_published E); auto|].
      intros ->. congruence.
    + intros t c H Hp.
      rewrite dict_get_set_neq; [apply (ev_prototype E); auto|].
      intros ->. assert (c = config) by congruence. subst c.
      rewrite Hp in Hs. discriminate.
    + apply (ev_dependency_cache E).
    + apply (ev_creation_order_cache E).
    + apply (ev_lru_cache E).
    + apply (ev_heap E).
    + apply (ev_calls E).
    + pose proof (ev_clock E). lia.
  - constructor; simpl.
    + apply (ev_keys E).
    + apply (ev_static E).
    + apply (ev_published E).
    + apply (ev_prototype E).
    + apply (ev_dependency_cache E).
    + apply (ev_creation_order_cache E).
    + apply (ev_lru_cache E).
    + apply (ev_heap E).
    + apply (ev_calls E).
    + pose proof (ev_clock E). lia.
Qed.

Section Step.
Variable rec :
  TypeId -> option (list TypeId) -> Context -> Outcome Instance * Context.
Hypothesis rec_evolves :
  forall t p st r st', rec t p st = (r, st') -> evolves classes st st'.

Lemma resolve_dependencies_evolves deps path acc st r st' :
  resolve_dependencies rec deps path acc st = (r, st') -> evolves classes st st'.
Proof.
  revert acc st. induction deps as [|[name t] deps IH]; intros acc st; simpl.
  - intros H. inversion H; subst. apply evolves_refl.
  - destruct (rec t (Some path) st) as [[i|e| |] st1] eqn:Hr; intros H;
      pose proof Hr as E1; apply rec_evolves in E1;
      try (inversion H; subst; assumption).
    eapply evolves_trans; [exact E1|]. eapply IH; eauto.
Qed.

Lemma create_instance_evolves (component_type : TypeId)
  (path : list TypeId) st r st' :
  _create_instance_optimized classes rec component_type path st = (r, st') ->
  evolves classes st st'.
Proof.
  unfold _create_instance_optimized.
  destruct (match dict_get (_dependency_cache st) component_type with
            | Some d => d
            | None => []
            end) as [|d deps].
  - destruct (construct classes component_type [] (world st)) as [r0 w] eqn:Hc.
    intros H. inversion H; subst. eapply construct_evolves; eauto.
  - destruct (resolve_dependencies rec (d :: deps) path [] st)
      as [[kw|e| |] st1] eqn:Hr; intros H;
      pose proof Hr as E1; apply resolve_dependencies_evolves in E1;
      try (inversion H; subst; assumption).
    destruct (construct classes component_type kw (world st1))
      as [r0 w] eqn:Hc.
    inversion H; subst. eapply evolves_trans; [exact E1|].
    eapply construct_evolves; eauto.
Qed.

Lemma get_bean_configured_evolves (bean_type : TypeId) config
  (path : list TypeId) start_time st r st' :
  dict_get (_component_configs st) bean_type = Some config ->
  get_bean_configured classes rec bean_type config path start_time st
    = (r, st') ->
  evolves classes st st'.
Proof.
  intros Hcfg. unfold get_bean_configured.
  destruct (published classes config) as [i|] eqn:Hp.
  - intros H. inversion H; subst. apply evolves_refl.
  - destruct (_create_instance_optimized classes rec bean_type
                (path ++ [bean_type]) st) as [[i|e| |] st1] eqn:Hc;
      intros H; pose proof Hc as E1; apply create_instance_evolves in E1;
      inversion H; subst; try assumption.
    now apply record_creation_evolves.
Qed.

Lemma get_bean_body_evolves (bean_type : TypeId) path st r st' :
  get_bean_body classes rec bean_type path st = (r, st') -> evolves classes st st'.
Proof.
  unfold get_bean_body, perf_counter. cbv beta iota zeta.
  set (p := match path with Some p => p | None => [] end).
  set (st1 := with_world st _).
  assert (E0 : evolves classes st st1) by apply tick_evolves.
  destruct (contains p bean_type).
  { intros H. inversion H; subst. assumption. }
  destruct (dict_get (_component_configs st1) bean_type) as [config|] eqn:Hg.
  { intros H. eapply evolves_trans; [exact E0|].
    eapply get_bean_configured_evolves; eauto. }
  destruct (_find_implementations classes st1 bean_type) as [|impl impls].
  { intros H. inversion H; subst. assumption. }
  destruct (dict_get (_component_configs st1) impl) as [config|] eqn:Hg'.
  { intros H. eapply evolves_trans; [exact E0|].
    eapply get_bean_configured_evolves; eauto. }
  intros H. inversion H; subst. assumption.
Qed.
End Step.

(** Whatever [get_bean] returns or raises, the container has evolved. *)
Lemma get_bean_evolves fuel bean_type path st r st' :
  get_bean classes fuel bean_type path st = (r, st') -> evolves classes st st'.
Proof.
  revert bean_type path st r st'.
  induction fuel as [|fuel IH]; intros bean_type path st r st'; simpl.
  - intros H. inversion H; subst. apply evolves_refl.
  - apply get_bean_body_evolves. exact IH.
Qed.

End Evolution.

Section Resolution.
Variable classes : TypeId -> ClassDef.

Lemma get_bean_unfold fuel (bean_type : TypeId) path st :
  get_bean classes (S fuel) bean_type path st
  = get_bean_body classes (get_bean classes fuel) bean_type path st.
Proof. reflexivity. Qed.

(** [get_bean_body] after the clock was read. *)
Lemma get_bean_body_eq rec (bean_type : TypeId) path st :
  get_bean_body classes rec bean_type path st
  = let p := match path with Some p => p | None => [] end in
    if contains p bean_type then
      (Raise (CircularDependencyError (p ++ [bean_type])), ticked st)
    else
      match dict_get (_component_configs st) bean_type with
      | Some config =>
          get_bean_configured classes rec bean_type config p
            (clock (world st)) (ticked st)
      | None =>
          match _find_implementations classes st bean_type with
          | impl :: _ =>
              match dict_get (_component_configs st) impl with
              | Some config =>
                  get_bean_configured classes rec impl config p
                    (clock (world st)) (ticked st)
              | None => (Raise (BeanNotFoundError impl), ticked st)
              end
          | [] => (Raise (BeanNotFoundError bean_type), ticked st)
          end
      end.
Proof. reflexivity. Qed.

(** [get_bean] on a type that is not on the creation path. *)
Lemma get_bean_body_off_path rec (bean_type : TypeId) path st :
  contains (match path with Some p => p | None => [] end) bean_type = false ->
  get_bean_body classes rec bean_type path st
  = let p := match path with Some p => p | None => [] end in
    match dict_get (_component_configs st) bean_type with
    | Some config =>
        get_bean_configured classes rec bean_type config p
          (clock (world st)) (ticked st)
    | None =>
        match _find_implementations classes st bean_type with
        | impl :: _ =>
            match dict_get (_component_configs st) impl with
            | Some config =>
                get_bean_configured classes rec impl config p
                  (clock (world st)) (ticked st)
            | None => (Raise (BeanNotFoundError impl), ticked st)
            end
        | [] => (Raise (BeanNotFoundError bean_type), ticked st)
        end
    end.
Proof.
  intros Hc. rewrite get_bean_body_eq. cbv zeta. now rewrite Hc.
Qed.


(** An implementation found by [_find_implementations] is registered. *)
Lemma find_implementations_registered st (interface_type impl : TypeId) :
  In impl (_find_implementations classes st interface_type) ->
  dict_get (_component_configs st) impl <> None.
Proof.
  unfold _find_implementations. intros H. apply filter_In in H.
  apply dict_get_In_keys. tauto.
Qed.

(** The head of a filtered list is the first element that passes. *)
Lemma filter_head (A : Type) (f : A -> bool) (l : list A) x rest :
  filter f l = x :: rest ->
  exists earlier later,
    l = earlier ++ x :: later /\ f x = true
    /\ forall y, In y earlier -> f y = false.
Proof.
  induction l as [|a l IH]; simpl; [discriminate|].
  destruct (f a) eqn:Fa.
  - intros H. inversion H; subst. exists [], l. simpl. tauto.
  - intros H. destruct (IH H) as [earlier [later [E [Fx Hall]]]].
    exists (a :: earlier), later. subst l. simpl. repeat split; auto.
    intros y [<- | Hy]; auto.
Qed.

(** C3, as the code has it.  When [get_bean] is called for a type with no
    exact registration but with implementations, the implementation that
    comes first in registration order is selected: resolution continues
    with that implementation and its registry entry, and, unless the
    implementation is on the creation path, the call proceeds exactly as
    the call for the implementation.  The [primary] marks are not
    consulted, whether none, one or several implementations carry one, and
    no ambiguity error is raised. *)
Theorem capability_resolves_to_first_implementation (fuel : nat)
  (capability impl : TypeId) (rest path : list TypeId) (st : Context) :
  dict_get (_component_configs st) capability = None ->
  _find_implementations classes st capability = impl :: rest ->
  ~ In capability path ->
  (exists earlier later,
      dict_keys (_component_configs st) = earlier ++ impl :: later
      /\ issubclass classes impl capability = true
      /\ forall t, In t earlier -> issubclass classes t capability = false)
  /\ (exists config,
         dict_get (_component_configs st) impl = Some config
         /\ get_bean classes (S fuel) capability (Some path) st
            = get_bean_configured classes (get_bean classes fuel) impl
                config path (clock (world st)) (ticked st))
  /\ (~ In impl path ->
      get_bean classes (S fuel) capability (Some path) st
      = get_bean classes (S fuel) impl (Some path) st).
Proof.
  intros Hnone Hfind Hc.
  assert (Hreg : dict_get (_component_configs st) impl <> None).
  { eapply find_implementations_registered. rewrite Hfind. now left. }
  destruct (dict_get (_component_configs st) impl) as [config|] eqn:Hg;
    [clear Hreg | congruence].
  apply contains_false in Hc.
  split; [|split].
  - unfold _find_implementations in Hfind.
    destruct (filter_head _ _ Hfind) as [earlier [later [E [Fx Hall]]]].
    exists earlier, later. split; [assumption|].
    apply andb_prop in Fx. split; [tauto|].
    intros t Ht. specialize (Hall t Ht).
    apply andb_false_iff in Hall. destruct Hall as [Hall|Hall]; auto.
    apply negb_false_iff, String.eqb_eq in Hall. subst t.
    exfalso. apply dict_get_None_keys in Hnone. apply Hnone.
    rewrite E. apply in_or_app. now left.
  - exists config. split; [reflexivity|].
    rewrite get_bean_unfold, get_bean_body_off_path by assumption.
    cbv zeta. now rewrite Hnone, Hfind, Hg.
  - intros Hi. apply contains_false in Hi.
    rewrite !get_bean_unfold, !get_bean_body_off_path by assumption.
    cbv zeta. now rewrite Hnone, Hfind, Hg.
Qed.

(** C6, as the code has it.  [clear_cache] empties the dependency-map
    cache, the creation-order cache and the analysis memo, and nothing
    else: the descriptor table, the published singletons in it and the
    metrics stay as they were. *)
Theorem clear_cache_clears_only_caches (st : Context) :
  _dependency_cache (clear_cache st) = []
  /\ _creation_order_cache (clear_cache st) = []
  /\ lru_cache (clear_cache st) = []
  /\ _component_configs (clear_cache st) = _component_configs st
  /\ get_metrics (clear_cache st) = get_metrics st
  /\ world (clear_cache st) = world st.
Proof. repeat split. Qed.

(** *** The recursion budget

    A resolution that ends within some budget ends alike within every
    larger one. *)

Section Budget.
Variables rec1 rec2 :
  TypeId -> option (list TypeId) -> Context -> Outcome Instance * Context.
Hypothesis rec_extends :
  forall t p st r st',
    rec1 t p st = (r, st') -> r <> RecursionLimit -> rec2 t p st = (r, st').

Lemma resolve_dependencies_extends deps (path : list TypeId) acc st r st' :
  resolve_dependencies rec1 deps path acc st = (r, st') ->
  r <> RecursionLimit ->
  resolve_dependencies rec2 deps path acc st = (r, st').
Proof.
  revert acc st. induction deps as [|[name t] deps IH]; intros acc st; simpl;
    auto.
  destruct (rec1 t (Some path) st) as [[i|e| |] st1] eqn:Hr; intros H Hne;
    try (inversion H; subst; congruence);
    apply rec_extends in Hr; try discriminate; rewrite Hr; auto.
Qed.

Lemma create_instance_extends (t : TypeId) (path : list TypeId) st r st' :
  _create_instance_optimized classes rec1 t path st = (r, st') ->
  r <> RecursionLimit ->
  _create_instance_optimized classes rec2 t path st = (r, st').
Proof.
  unfold _create_instance_optimized.
  destruct (match dict_get (_dependency_cache st) t with
            | Some d => d
            | None => []
            end) as [|d deps]; auto.
  destruct (resolve_dependencies rec1 (d :: deps) path [] st)
    as [[kw|e| |] st1] eqn:Hr; intros H Hne;
    try (inversion H; subst; congruence);
    apply resolve_dependencies_extends in Hr; try discriminate;
    rewrite Hr; auto.
Qed.

Lemma get_bean_body_extends (t : TypeId) path st r st' :
  get_bean_body classes rec1 t path st = (r, st') ->
  r <> RecursionLimit ->
  get_bean_body classes rec2 t path st = (r, st').
Proof.
  assert (Hcfg : forall b config p start s,
             get_bean_configured classes rec1 b config p start s = (r, st') ->
             r <> RecursionLimit ->
             get_bean_configured classes rec2 b config p start s = (r, st')).
  { intros b config p start s. unfold get_bean_configured.
    destruct (published classes config); auto.
    destruct (_create_instance_optimized classes rec1 b (p ++ [b]) s)
      as [[i|e| |] s1] eqn:Hc; intros H Hne;
      try (inversion H; subst; congruence);
      apply create_instance_extends in Hc; try discriminate;
      rewrite Hc; auto. }
  rewrite !get_bean_body_eq. cbv zeta.
  destruct (contains _ t); auto.
  destruct (dict_get (_component_configs st) t); auto.
  destruct (_find_implementations classes st t); auto.
  destruct (dict_get (_component_configs st) t0); auto.
Qed.
End Budget.

Lemma get_bean_fuel_succ fuel (t : TypeId) path st r st' :
  get_bean classes fuel t path st = (r, st') ->
  r <> RecursionLimit ->
  get_bean classes (S fuel) t path st = (r, st').
Proof.
  revert t path st r st'.
  induction fuel as [|fuel IH]; intros t path st r st' H Hne.
  - simpl in H. inversion H; subst. congruence.
  - rewrite get_bean_unfold in H. rewrite get_bean_unfold.
    eapply get_bean_body_extends; eauto.
Qed.

Lemma get_bean_fuel_le fuel fuel' (t : TypeId) path st r st' :
  get_bean classes fuel t path st = (r, st') ->
  r <> RecursionLimit ->
  fuel <= fuel' ->
  get_bean classes fuel' t path st = (r, st').
Proof.
  intros H Hne Hle. induction Hle; auto.
  now apply get_bean_fuel_succ.
Qed.

(** A registered, unpublished component without dependencies whose
    constructor accepts a call without arguments is constructed and
    returned. *)
Lemma get_bean_leaf_returns fuel (t : TypeId) config st :
  dict_get (_component_configs st) t = Some config ->
  published classes config = None ->
  match dict_get (_dependency_cache st) t with
  | Some d => d
  | None => []
  end = [] ->
  construct_error classes t [] = None ->
  exists st',
    get_bean classes (S fuel) t None st
    = (Return {| inst_id := List.length (heap (world st));
                 inst_class := t |}, st').
Proof.
  intros Hcfg Hpub Hdeps Hraise.
  rewrite get_bean_unfold, get_bean_body_off_path by reflexivity.
  cbv zeta. rewrite Hcfg. unfold get_bean_configured. rewrite Hpub.
  unfold _create_instance_optimized.
  change (_dependency_cache (ticked st)) with (_dependency_cache st).
  rewrite Hdeps. unfold construct. rewrite Hraise.
  eexists. reflexivity.
Qed.

(** The cyclic pair of the stability test, in general: two registered,
    unpublished components, each having the other as its first
    dependency.  [get_bean] on one of them raises the error with the path
    [a, b, a], and no constructor is called. *)
Lemma mutual_pair_is_rejected fuel (a b : TypeId) ca cb na nb da db st :
  a <> b ->
  dict_get (_component_configs st) a = Some ca ->
  dict_get (_component_configs st) b = Some cb ->
  published classes ca = None ->
  published classes cb = None ->
  dict_get (_dependency_cache st) a = Some ((na, b) :: da) ->
  dict_get (_dependency_cache st) b = Some ((nb, a) :: db) ->
  exists st',
    get_bean classes (S (S (S fuel))) a None st
    = (Raise (CircularDependencyError [a; b; a]), st')
    /\ constructor_calls (world st') = constructor_calls (world st).
Proof.
  intros Hab Ha Hb Hpa Hpb Hda Hdb.
  assert (Eba : String.eqb b a = false)
    by (apply String.eqb_neq; congruence).
  exists (ticked (ticked (ticked st))). split; [|reflexivity].
  rewrite get_bean_unfold, get_bean_body_off_path by reflexivity.
  cbv zeta. rewrite Ha. unfold get_bean_configured at 1. rewrite Hpa.
  unfold _create_instance_optimized at 1.
  change (_dependency_cache (ticked st)) with (_dependency_cache st).
  rewrite Hda. cbn [resolve_dependencies].
  rewrite get_bean_unfold, get_bean_body_off_path
    by (simpl; now rewrite Eba).
  cbv zeta.
  change (_component_configs (ticked st)) with (_component_configs st).
  rewrite Hb. unfold get_bean_configured at 1. rewrite Hpb.
  unfold _create_instance_optimized at 1.
  change (_dependency_cache (ticked (ticked st)))
    with (_dependency_cache st).
  rewrite Hdb. cbn [resolve_dependencies].
  rewrite get_bean_unfold, get_bean_body_eq. cbv zeta.
  simpl contains. rewrite String.eqb_refl. reflexivity.
Qed.

(** C9.  A cycle that runs through a capability is not detected.  Take a
    registry in which [capability] is not registered, its first
    implementation [component] is registered and not published, and the
    first constructor dependency of [component] is [capability] itself.
    The cycle check looks for the requested type [capability] on the
    creation path, while the path only ever receives [component]; hence
    [get_bean] on [capability] never raises [CircularDependencyError],
    never returns, and uses up every recursion budget. *)
Theorem capability_cycle_is_not_detected (capability component : TypeId)
  (rest : list TypeId) (config : Config) (name : string)
  (deps : dict TypeId) (st : Context) :
  dict_get (_component_configs st) capability = None ->
  _find_implementations classes st capability = component :: rest ->
  dict_get (_component_configs st) component = Some config ->
  published classes config = None ->
  dict_get (_dependency_cache st) component
  = Some ((name, capability) :: deps) ->
  forall (fuel : nat) (path : list TypeId),
    ~ In capability path ->
    fst (get_bean classes fuel capability (Some path) st) = RecursionLimit
    /\ constructor_calls
         (world (snd (get_bean classes fuel capability (Some path) st)))
       = constructor_calls (world st).
Proof.
  intros Hnone Hfind Hcfg Hpub Hdeps fuel.
  assert (Hne : capability <> component).
  { intros ->. congruence. }
  revert st Hnone Hfind Hcfg Hpub Hdeps.
  induction fuel as [|fuel IH]; intros st Hnone Hfind Hcfg Hpub Hdeps path Hp.
  - simpl. auto.
  - rewrite get_bean_unfold, get_bean_body_off_path
      by (now apply contains_false).
    cbv zeta. rewrite Hnone, Hfind, Hcfg.
    unfold get_bean_configured. rewrite Hpub.
    unfold _create_instance_optimized.
    change (_dependency_cache (ticked st)) with (_dependency_cache st).
    rewrite Hdeps. cbn [resolve_dependencies].
    assert (Hp' : ~ In capability (path ++ [component])).
    { rewrite in_app_iff. simpl. intuition. }
    destruct (IH (ticked st) Hnone Hfind Hcfg Hpub Hdeps _ Hp') as [Hr Hc].
    destruct (get_bean classes fuel capability
                (Some (path ++ [component])) (ticked st)) as [r st1].
    simpl in Hr, Hc. subst r. simpl. auto.
Qed.

(** A required parameter is missing from a call without arguments. *)
Lemma missing_arguments_nil (t : TypeId) (p : Param) :
  In p (tl (init_signature (classes t))) ->
  required p = true ->
  In (param_name p) (missing_arguments classes t []).
Proof.
  intros Hin Hreq. unfold missing_arguments. apply in_map.
  apply filter_In. split; [assumption|]. rewrite Hreq.
  now rewrite andb_false_r.
Qed.

(** C10, as the code has it.  Dependency maps are computed at
    registration only.  After [clear_cache], without re-registration,
    [get_bean] on a registered component that is not a published singleton
    finds no entry in the cache, takes that for "no dependencies", and
    calls the constructor with no arguments, whatever its dependencies;
    nothing is resolved and nothing is analysed anew.  The call fails with
    the constructor's own missing-argument [TypeError] when a parameter
    without default is left unbound.  When the call without arguments
    binds (every parameter has a default) and the body does not raise,
    [get_bean] returns an object that has none of its dependencies, and
    stores it when the component is a singleton. *)
Theorem cleared_cache_constructs_without_arguments (fuel : nat)
  (component_type : TypeId) (config : Config) (st0 : Context) :
  dict_get (_component_configs st0) component_type = Some config ->
  published classes config = None ->
  let r := get_bean classes (S fuel) component_type None (clear_cache st0) in
  let created :=
    {| inst_id := List.length (heap (world st0));
       inst_class := component_type |} in
  constructor_calls (world (snd r))
  = constructor_calls (world st0) ++ [(component_type, [])]
  /\ _dependency_cache (snd r) = []
  /\ (forall p,
         In p (tl (init_signature (classes component_type))) ->
         required p = true ->
         In (param_name p) (missing_arguments classes component_type []))
  /\ (takes_receiver (init_signature (classes component_type)) = true ->
      missing_arguments classes component_type [] <> [] ->
      fst r = Raise (TypeError component_type
                       (missing_arguments classes component_type []))
      /\ _component_configs (snd r) = _component_configs st0
      /\ heap (world (snd r)) = heap (world st0))
  /\ (construct_error classes component_type [] = None ->
      fst r = Return created
      /\ heap (world (snd r)) = heap (world st0) ++ [[]]
      /\ dict_get (_component_configs (snd r)) component_type
         = Some (if Scope_eqb (scope config) SINGLETON
                 then {| scope := scope config; primary := primary config;
                         instance := Some created |}
                 else config)).
Proof.
  intros Hcfg Hpub r created. subst r created.
  rewrite get_bean_unfold, get_bean_body_off_path by reflexivity.
  cbv zeta.
  change (_component_configs (clear_cache st0))
    with (_component_configs st0).
  rewrite Hcfg. unfold get_bean_configured. rewrite Hpub.
  unfold _create_instance_optimized, construct. simpl.
  destruct (construct_error classes component_type []) as [e|] eqn:He.
  - simpl. split; [reflexivity|]. split; [reflexivity|].
    split; [apply missing_arguments_nil|]. split; [|discriminate].
    intros Hrec Hmiss. unfold construct_error in He. simpl in He.
    rewrite Hrec in He. simpl in He.
    destruct (missing_arguments classes component_type []) as [|m ms];
      [contradiction|].
    injection He as <-. auto.
  - unfold record_creation. simpl.
    split; [destruct (Scope_eqb (scope config) SINGLETON); reflexivity|].
    split; [destruct (Scope_eqb (scope config) SINGLETON); reflexivity|].
    split; [apply missing_arguments_nil|]. split.
    + intros Hrec Hmiss. unfold construct_error in He. simpl in He.
      rewrite Hrec in He. simpl in He.
      destruct (missing_arguments classes component_type []) as [|m ms];
        [contradiction|discriminate].
    + intros _.
      destruct (Scope_eqb (scope config) SINGLETON); simpl;
        repeat split; auto.
      apply dict_get_set_eq.
Qed.

Lemma find_implementations_same_keys st st' (t : TypeId) :
  dict_keys (_component_configs st') = dict_keys (_component_configs st) ->
  _find_implementations classes st' t = _find_implementations classes st t.
Proof. unfold _find_implementations. now intros ->. Qed.

Lemma missing_evolves st st' (t : TypeId) :
  evolves classes st st' -> missing classes st' t -> missing classes st t.
Proof.
  intros E [Hn Hf]. split.
  - eapply dict_get_None_same_keys; [|exact Hn]. apply (ev_keys E).
  - rewrite <- Hf. symmetry. apply find_implementations_same_keys.
    apply (ev_keys E).
Qed.

Lemma construct_not_bean_not_found (t : TypeId) kwargs w x w' :
  construct classes t kwargs w <> (Raise (BeanNotFoundError x), w').
Proof.
  construct_cases classes t kwargs; congruence.
Qed.

Section Soundness.
Variable rec :
  TypeId -> option (list TypeId) -> Context -> Outcome Instance * Context.
Hypothesis rec_evolves :
  forall t p st r st', rec t p st = (r, st') -> evolves classes st st'.
Hypothesis rec_sound :
  forall t p st x st',
    rec t p st = (Raise (BeanNotFoundError x), st') -> missing classes st x.

Lemma resolve_dependencies_sound deps (path : list TypeId) acc st x st' :
  resolve_dependencies rec deps path acc st
  = (Raise (BeanNotFoundError x), st') ->
  missing classes st x.
Proof.
  revert acc st. induction deps as [|[name t] deps IH]; intros acc st; simpl.
  - discriminate.
  - destruct (rec t (Some path) st) as [[i|e| |] st1] eqn:Hr; intros H;
      try discriminate.
    + apply IH in H. eapply missing_evolves; [|exact H].
      eapply rec_evolves; eauto.
    + inversion H; subst. eapply rec_sound; eauto.
Qed.

Lemma create_instance_sound (t : TypeId) (path : list TypeId) st x st' :
  _create_instance_optimized classes rec t path st
  = (Raise (BeanNotFoundError x), st') ->
  missing classes st x.
Proof.
  unfold _create_instance_optimized.
  destruct (match dict_get (_dependency_cache st) t with
            | Some d => d
            | None => []
            end) as [|d deps].
  - destruct (construct classes t [] (world st)) as [r0 w] eqn:Hc.
    intros H. inversion H; subst.
    exfalso. eapply construct_not_bean_not_found; eauto.
  - destruct (resolve_dependencies rec (d :: deps) path [] st)
      as [[kw|e| |] st1] eqn:Hr; intros H; try discriminate.
    + destruct (construct classes t kw (world st1)) as [r0 w] eqn:Hc.
      inversion H; subst.
      exfalso. eapply construct_not_bean_not_found; eauto.
    + inversion H; subst. eapply resolve_dependencies_sound; eauto.
Qed.

Lemma get_bean_configured_sound (t : TypeId) config (path : list TypeId)
  start_time st x st' :
  get_bean_configured classes rec t config path start_time st
  = (Raise (BeanNotFoundError x), st') ->
  missing classes st x.
Proof.
  unfold get_bean_configured.
  destruct (published classes config); [discriminate|].
  destruct (_create_instance_optimized classes rec t (path ++ [t]) st)
    as [[i|e| |] st1] eqn:Hc; intros H; try discriminate.
  inversion H; subst. eapply create_instance_sound; eauto.
Qed.

Lemma get_bean_body_sound (t : TypeId) path st x st' :
  get_bean_body classes rec t path st = (Raise (BeanNotFoundError x), st') ->
  missing classes st x.
Proof.
  rewrite get_bean_body_eq. cbv zeta.
  destruct (contains _ t); [discriminate|].
  assert (Hm : forall y, missing classes (ticked st) y -> missing classes st y).
  { intros y. apply missing_evolves. apply tick_evolves. }
  destruct (dict_get (_component_configs st) t) as [config|] eqn:Hg.
  { intros H. apply Hm. eapply get_bean_configured_sound; eauto. }
  destruct (_find_implementations classes st t) as [|impl impls] eqn:Hf.
  { intros H. inversion H; subst. split; assumption. }
  destruct (dict_get (_component_configs st) impl) as [config|] eqn:Hg'.
  { intros H. apply Hm. eapply get_bean_configured_sound; eauto. }
  intros _. exfalso.
  apply (@find_implementations_registered st t impl); [|exact Hg'].
  rewrite Hf. now left.
Qed.
End Soundness.

(** Whatever type a [BeanNotFoundError] names, at whatever depth of the
    resolution it was raised, that type is missing from the registry. *)
Lemma bean_not_found_names_missing fuel (t : TypeId) path st x st' :
  get_bean classes fuel t path st = (Raise (BeanNotFoundError x), st') ->
  missing classes st x.
Proof.
  revert t path st x st'.
  induction fuel as [|fuel IH]; intros t path st x st'; simpl.
  - discriminate.
  - apply get_bean_body_sound.
    + intros. eapply get_bean_evolves; eauto.
    + exact IH.
Qed.

(** The loop over the dependencies, up to a given dependency. *)
Lemma resolve_dependencies_app rec before rest (path : list TypeId) acc st :
  resolve_dependencies rec (before ++ rest) path acc st
  = match resolve_dependencies rec before path acc st with
    | (Return resolved, st1) => resolve_dependencies rec rest path resolved st1
    | (Raise e, st1) => (Raise e, st1)
    | (RecursionLimit, st1) => (RecursionLimit, st1)
    | (Blocked, st1) => (Blocked, st1)
    end.
Proof.
  revert acc st. induction before as [|[name t] before IH]; intros acc st;
    simpl.
  - now destruct (resolve_dependencies rec rest path acc st) as [[| | |] ?].
  - destruct (rec t (Some path) st) as [[i|e| |] st1]; auto.
Qed.

(** C5.  [BeanNotFoundError] semantics.  (1) A [get_bean] for
    [bean_type], at top level or below a creation path of registered
    components (the only paths the resolver builds), fails with
    [BeanNotFoundError(bean_type)] exactly when [bean_type] has neither an
    exact registration nor any implementation.  (2) Whatever type a
    [BeanNotFoundError] names, raised for the requested type or for a type
    required at any depth, that type is missing in the same sense; it is
    not a registered component, so it is never the component that required
    it.  (3) A registered, unpublished component with a missing constructor
    dependency, once the dependencies declared before that one are
    resolved, fails with the error naming the missing dependency, not the
    component. *)
Theorem bean_not_found_iff_missing (fuel : nat) (bean_type : TypeId)
  (st : Context) :
  (forall path,
      (forall x, In x (match path with Some p => p | None => [] end) ->
                 dict_get (_component_configs st) x <> None) ->
      ((exists st',
           get_bean classes (S fuel) bean_type path st
           = (Raise (BeanNotFoundError bean_type), st'))
       <-> missing classes st bean_type))
  /\ (forall n path x st',
         get_bean classes n bean_type path st
         = (Raise (BeanNotFoundError x), st') ->
         missing classes st x /\ ~ In x (dict_keys (_component_configs st)))
  /\ (forall config before name dependency after resolved st1,
         dict_get (_component_configs st) bean_type = Some config ->
         published classes config = None ->
         dict_get (_dependency_cache st) bean_type
         = Some (before ++ (name, dependency) :: after) ->
         resolve_dependencies (get_bean classes (S fuel)) before
           [bean_type] [] (ticked st) = (Return resolved, st1) ->
         missing classes st dependency ->
         dependency <> bean_type
         /\ get_bean classes (S (S fuel)) bean_type None st
            = (Raise (BeanNotFoundError dependency), ticked st1)).
Proof.
  split; [intros path Hpath; split|split].
  - intros [st' H]. eapply bean_not_found_names_missing; eauto.
  - intros [Hn Hf]. exists (ticked st).
    rewrite get_bean_unfold, get_bean_body_off_path.
    + cbv zeta. now rewrite Hn, Hf.
    + apply contains_false. intros Hin. now apply (Hpath _ Hin).
  - intros n path x st' H.
    pose proof (bean_not_found_names_missing _ _ _ _ H) as Hm.
    split; [assumption|]. apply dict_get_None_keys. apply Hm.
  - intros config before name dependency after resolved st1
      Hcfg Hpub Hdeps Hres [Hn Hf].
    assert (Hne : dependency <> bean_type) by (intros ->; congruence).
    split; [assumption|].
    assert (E : evolves classes (ticked st) st1).
    { eapply resolve_dependencies_evolves; [|exact Hres].
      intros. eapply get_bean_evolves; eauto. }
    rewrite get_bean_unfold, get_bean_body_off_path by reflexivity.
    cbv zeta. rewrite Hcfg. unfold get_bean_configured. rewrite Hpub.
    unfold _create_instance_optimized.
    change (_dependency_cache (ticked st)) with (_dependency_cache st).
    rewrite Hdeps.
    destruct (before ++ (name, dependency) :: after) as [|x xs] eqn:Hl.
    { destruct before; discriminate. }
    rewrite <- Hl. rewrite resolve_dependencies_app.
    simpl app. rewrite Hres. cbn [resolve_dependencies].
    rewrite get_bean_unfold, get_bean_body_off_path.
    + cbv zeta.
      assert (Hn1 : dict_get (_component_configs st1) dependency = None).
      { eapply dict_get_None_same_keys; [|exact Hn].
        symmetry. apply (ev_keys E). }
      assert (Hf1 : _find_implementations classes st1 dependency = []).
      { rewrite <- Hf. apply find_implementations_same_keys.
        apply (ev_keys E). }
      now rewrite Hn1, Hf1.
    + simpl. apply String.eqb_neq in Hne. now rewrite Hne.
Qed.
End Resolution.

Section Validation.
Variable classes : TypeId -> ClassDef.

Lemma detect_unfold fuel (component_type : TypeId) visited path st :
  _detect_circular_dependencies (S fuel) component_type visited path st
  = detect_body (_detect_circular_dependencies fuel)
      component_type visited path st.
Proof. reflexivity. Qed.

(** The walk only reads the container. *)
Lemma detect_each_state rec param_types visited (path : list TypeId) st :
  (forall t v p s, snd (rec t v p s) = s) ->
  snd (detect_each rec param_types visited path st) = st.
Proof.
  intros Hrec. induction param_types as [|t ts IH]; simpl; auto.
  destruct (dict_mem (_component_configs st) t); auto.
  specialize (Hrec t visited (Some path) st).
  destruct (rec t visited (Some path) st) as [[u|e| |] st1];
    simpl in Hrec; subst st1; auto.
Qed.

Lemma detect_state fuel (component_type : TypeId) visited path st :
  snd (_detect_circular_dependencies fuel component_type visited path st)
  = st.
Proof.
  revert component_type visited path st.
  induction fuel as [|fuel IH]; intros c visited path st; simpl; auto.
  unfold detect_body.
  destruct (contains visited c).
  - destruct (list_index _ c); reflexivity.
  - apply detect_each_state. exact IH.
Qed.

Lemma check_cycles_state fuel component_types issues st :
  snd (check_cycles fuel component_types issues st) = st.
Proof.
  revert issues. induction component_types as [|c cs IH]; intros issues;
    simpl; auto.
  pose proof (detect_state fuel c [] None st) as Hs.
  destruct (_detect_circular_dependencies fuel c [] None st)
    as [[u|e| |] st1]; simpl in Hs; subst st1; auto.
  destruct e; auto.
Qed.

Lemma validate_configuration_state fuel st :
  snd (validate_configuration classes fuel st) = st.
Proof.
  unfold validate_configuration.
  pose proof (check_cycles_state fuel
                (dict_keys (_component_configs st)) [] st) as Hs.
  destruct (check_cycles fuel (dict_keys (_component_configs st)) [] st)
    as [[issues|e| |] st1]; simpl in Hs; subst st1; reflexivity.
Qed.

Lemma filter_length_lt (A : Type) (f g : A -> bool) (l : list A) (c : A) :
  (forall x, g x = true -> f x = true) ->
  In c l -> f c = true -> g c = false ->
  List.length (filter g l) < List.length (filter f l).
Proof.
  intros Himp. induction l as [|a l IH]; simpl; [tauto|].
  assert (Hle : List.length (filter g l) <= List.length (filter f l)).
  { clear IH. induction l as [|b l IHl]; simpl; [lia|].
    destruct (g b) eqn:Gb.
    - rewrite (Himp _ Gb). simpl. lia.
    - destruct (f b); simpl; lia. }
  intros [-> | Hin] Fc Gc.
  - rewrite Fc, Gc. simpl. lia.
  - specialize (IH Hin Fc Gc). destruct (g a) eqn:Ga.
    + rewrite (Himp _ Ga). simpl. lia.
    + destruct (f a); simpl; lia.
Qed.

Lemma unvisited_shrinks st visited (c : TypeId) :
  In c (dict_keys (_component_configs st)) ->
  contains visited c = false ->
  List.length (unvisited st (set_add visited c))
  < List.length (unvisited st visited).
Proof.
  intros Hin Hc. unfold unvisited. apply filter_length_lt with (c := c); auto.
  - intros x Hx. apply negb_true_iff in Hx. apply negb_true_iff.
    apply contains_false. apply contains_false in Hx.
    intros Hv. apply Hx. apply set_add_In. now right.
  - now rewrite Hc.
  - apply negb_false_iff. apply contains_In. apply set_add_In. now left.
Qed.

Lemma detect_each_ends_well rec param_types visited (path : list TypeId) st :
  (forall t v p s, snd (rec t v p s) = s) ->
  (forall t, In t (dict_keys (_component_configs st)) ->
             ends_well (fst (rec t visited (Some path) st))) ->
  ends_well (fst (detect_each rec param_types visited path st)).
Proof.
  intros Hst Hrec. induction param_types as [|t ts IH]; simpl.
  - now left.
  - destruct (dict_mem (_component_configs st) t) eqn:Hm; auto.
    apply dict_mem_true in Hm. specialize (Hrec t Hm).
    specialize (Hst t visited (Some path) st).
    destruct (rec t visited (Some path) st) as [[u|e| |] st1];
      simpl in Hst, Hrec; subst st1; auto;
      destruct Hrec as [Hr | [cyc Hr]]; discriminate.
Qed.

(** With one level of recursion per unvisited component and one more, the
    walk ends well: the recursion budget is not used up, and [path.index]
    finds the repeated component. *)
Lemma detect_ends_well fuel (c : TypeId) visited path st :
  (forall x, In x visited ->
             In x (match path with Some p => p | None => [] end)) ->
  In c (dict_keys (_component_configs st)) ->
  List.length (unvisited st visited) < fuel ->
  ends_well (fst (_detect_circular_dependencies fuel c visited path st)).
Proof.
  revert c visited path.
  induction fuel as [|fuel IH]; intros c visited path Hvis Hin Hlt; [lia|].
  rewrite detect_unfold. unfold detect_body.
  destruct (contains visited c) eqn:Hc.
  - apply contains_In in Hc. apply Hvis in Hc.
    destruct (list_index_In _ _ Hc) as [i Hi]. rewrite Hi.
    right. simpl. eauto.
  - apply detect_each_ends_well.
    + intros. apply detect_state.
    + intros t Ht. apply IH; auto.
      * intros x Hx. apply set_add_In in Hx. apply in_or_app.
        destruct Hx as [-> | Hx]; [right; now left | left; auto].
      * pose proof (unvisited_shrinks st visited c Hin Hc). lia.
Qed.

Lemma check_cycles_returns fuel component_types issues st :
  (forall c, In c component_types ->
             ends_well
               (fst (_detect_circular_dependencies fuel c [] None st))) ->
  check_cycles fuel component_types issues st
  = (Return (issues ++ flat_map (cycle_issue fuel st) component_types), st).
Proof.
  revert issues. induction component_types as [|c cs IH]; intros issues Hall;
    simpl.
  - now rewrite app_nil_r.
  - pose proof (detect_state fuel c [] None st) as Hs.
    pose proof (Hall c (or_introl eq_refl)) as Hw.
    unfold cycle_issue at 1.
    destruct (_detect_circular_dependencies fuel c [] None st)
      as [r st1]. simpl in Hs, Hw |- *. subst st1.
    destruct Hw as [-> | [cyc ->]].
    + apply IH. intros. apply Hall. now right.
    + rewrite IH by (intros; apply Hall; now right).
      now rewrite <- app_assoc.
Qed.

(** [validate_configuration] always returns its findings, in the order of
    the two loops, and hands the container back as it was. *)
Lemma validate_configuration_returns fuel st :
  validation_fuel st <= fuel ->
  validate_configuration classes fuel st
  = (Return (flat_map (cycle_issue fuel st)
               (dict_keys (_component_configs st))
             ++ check_unresolved classes st), st).
Proof.
  intros Hfuel. unfold validate_configuration.
  rewrite check_cycles_returns; [reflexivity|].
  intros c Hc. apply detect_ends_well; [intros x [] | assumption | ].
  unfold validation_fuel in Hfuel. unfold unvisited.
  pose proof (filter_length_le (fun k => negb (contains [] k))
                (dict_keys (_component_configs st))) as Hle.
  unfold dict_keys in Hle at 2. rewrite length_map in Hle. lia.
Qed.

(** C8.  [validate_configuration] only observes.  Whatever the registry
    and the recursion budget, the call hands the container back unchanged:
    every metrics record (creation count and total time) is as before, no
    constructor was called and no object was allocated.  With the budget
    [validation_fuel] it returns its list of findings. *)
Theorem validate_configuration_only_observes (fuel : nat) (st : Context) :
  let st' := snd (validate_configuration classes fuel st) in
  get_metrics st' = get_metrics st
  /\ (forall t, metric_of (_metrics st') t = metric_of (_metrics st) t)
  /\ constructor_calls (world st') = constructor_calls (world st)
  /\ heap (world st') = heap (world st)
  /\ st' = st
  /\ exists issues,
      validate_configuration classes (validation_fuel st) st
      = (Return issues, st).
Proof.
  cbv zeta. rewrite validate_configuration_state.
  repeat split; auto.
  rewrite validate_configuration_returns by lia. eauto.
Qed.

Lemma flat_map_agree (A B : Type) (f g : A -> list B) (l : list A) :
  (forall x, In x l -> f x = g x) -> flat_map f l = flat_map g l.
Proof.
  induction l as [|a l IH]; simpl; intros H; auto.
  rewrite (H a) by now left. f_equal. apply IH. intros. apply H. now right.
Qed.

Lemma flat_map_fst (A B C : Type) (f : A -> list C) (l : list (A * B)) :
  flat_map (fun e => f (fst e)) l = flat_map f (map fst l).
Proof. induction l as [|a l IH]; simpl; auto. now rewrite IH. Qed.

(** In a dictionary every entry is the one its key looks up. *)
Lemma dict_get_entry (V : Type) (d : dict V) k v :
  NoDup (dict_keys d) -> In (k, v) d -> dict_get d k = Some v.
Proof.
  induction d as [|[k' v'] d IH]; simpl; [tauto|].
  intros Hnd [H | H].
  - inversion H; subst. now rewrite String.eqb_refl.
  - inversion Hnd; subst. destruct (String.eqb k' k) eqn:E.
    + apply String.eqb_eq in E. subst k'. exfalso. apply H2.
      change k with (fst (k, v)). now apply in_map.
    + now apply IH.
Qed.

(** The walk from a member [a] of a cyclic pair [a -> b -> a]. *)
Lemma cycle_issue_pair fuel st (a b : TypeId) (na nb : string) :
  a <> b ->
  In a (dict_keys (_component_configs st)) ->
  In b (dict_keys (_component_configs st)) ->
  dict_get (_dependency_cache st) a = Some [(na, b)] ->
  dict_get (_dependency_cache st) b = Some [(nb, a)] ->
  cycle_issue (S (S (S fuel))) st a = [CircularIssue [a; b; a]].
Proof.
  intros Hab Ha Hb Hda Hdb.
  apply dict_mem_true in Ha, Hb.
  assert (Eab : String.eqb a b = false) by now apply String.eqb_neq.
  assert (Eba : String.eqb b a = false)
    by (apply String.eqb_neq; congruence).
  unfold cycle_issue.
  rewrite detect_unfold. unfold detect_body. simpl contains. cbv iota.
  rewrite Hda. simpl dict_values. cbn [detect_each]. rewrite Hb.
  rewrite detect_unfold. unfold detect_body, set_add. simpl.
  rewrite Eba. simpl. rewrite Hdb. simpl. rewrite Ha.
  unfold detect_body. simpl. rewrite !String.eqb_refl. reflexivity.
Qed.

(** The walk from a component whose only dependency is not registered. *)
Lemma cycle_issue_dangling fuel st (c d : TypeId) (nc : string) :
  ~ In d (dict_keys (_component_configs st)) ->
  dict_get (_dependency_cache st) c = Some [(nc, d)] ->
  cycle_issue (S fuel) st c = [].
Proof.
  intros Hd Hdc. unfold cycle_issue.
  rewrite detect_unfold. unfold detect_body. simpl contains. cbv iota.
  rewrite Hdc. simpl dict_values. cbn [detect_each].
  destruct (dict_mem (_component_configs st) d) eqn:Hm; [|reflexivity].
  apply dict_mem_true in Hm. contradiction.
Qed.

Lemma filter_none (A : Type) (f : A -> bool) (l : list A) :
  (forall x, In x l -> f x = false) -> filter f l = [].
Proof.
  induction l as [|a l IH]; simpl; intros H; auto.
  rewrite (H a) by now left. apply IH. intros. apply H. now right.
Qed.

(** The second loop of [validate_configuration] on a registry of a cyclic
    pair [a <-> b] and a component [c] with the dangling dependency [d]. *)
Lemma check_unresolved_dangling (a b c d : TypeId) (na nb nc : string)
  (st : Context) :
  NoDup [a; b; c; d] ->
  Permutation (dict_keys (_component_configs st)) [a; b; c] ->
  Permutation (dict_keys (_dependency_cache st)) [a; b; c] ->
  dict_get (_dependency_cache st) a = Some [(na, b)] ->
  dict_get (_dependency_cache st) b = Some [(nb, a)] ->
  dict_get (_dependency_cache st) c = Some [(nc, d)] ->
  (forall t, In t [a; b; c] -> issubclass classes t d = false) ->
  check_unresolved classes st = [UnresolvedIssue c d].
Proof.
  intros Hnd Hreg Hcache Ha Hb Hc Hsub.
  assert (Hneq : a <> c /\ b <> c /\ ~ In d [a; b; c]).
  { inversion Hnd as [|? ? Ha' Hnd1]; subst.
    inversion Hnd1 as [|? ? Hb' Hnd2]; subst.
    inversion Hnd2 as [|? ? Hc' Hnd3]; subst.
    simpl in *. intuition congruence. }
  destruct Hneq as [Hac [Hbc Hd]].
  assert (Hmem : forall t, In t [a; b; c] ->
                           dict_mem (_component_configs st) t = true).
  { intros t Ht. apply dict_mem_true.
    eapply Permutation_in; [apply Permutation_sym; exact Hreg | exact Ht]. }
  assert (Hdm : dict_mem (_component_configs st) d = false).
  { destruct (dict_mem (_component_configs st) d) eqn:E; auto.
    apply dict_mem_true in E. exfalso. apply Hd.
    exact (Permutation_in _ Hreg E). }
  assert (Hfind : _find_implementations classes st d = []).
  { unfold _find_implementations.
    apply filter_none. intros t Ht. rewrite (Hsub t); [reflexivity|].
    exact (Permutation_in _ Hreg Ht). }
  set (F := fun k : TypeId =>
              if String.eqb k c then [UnresolvedIssue c d] else []).
  assert (Hnd' : NoDup (dict_keys (_dependency_cache st))).
  { eapply Permutation_NoDup; [apply Permutation_sym; exact Hcache|].
    inversion Hnd as [|? ? Ha' Hnd1]; subst.
    inversion Hnd1 as [|? ? Hb' Hnd2]; subst.
    inversion Hnd2 as [|? ? Hc' Hnd3]; subst.
    simpl in *. repeat constructor; simpl; intuition. }
  assert (Hflat : check_unresolved classes st
                  = flat_map F (dict_keys (_dependency_cache st))).
  { unfold check_unresolved, dict_keys. rewrite <- flat_map_fst.
    apply flat_map_agree. intros [k v] Hin. simpl.
    pose proof (dict_get_entry _ _ _ Hnd' Hin) as Hget.
    assert (Hk : In k [a; b; c]).
    { eapply Permutation_in; [exact Hcache|].
      change k with (fst (k, v)). now apply in_map. }
    unfold F. simpl in Hk. destruct Hk as [<- | [<- | [<- | []]]].
    - apply String.eqb_neq in Hac. rewrite Hac.
      assert (v = [(na, b)]) by congruence. subst v.
      unfold unresolved_of. simpl. rewrite Hmem; simpl; auto.
    - apply String.eqb_neq in Hbc. rewrite Hbc.
      assert (v = [(nb, a)]) by congruence. subst v.
      unfold unresolved_of. simpl. rewrite Hmem; simpl; auto.
    - rewrite String.eqb_refl.
      assert (v = [(nc, d)]) by congruence. subst v.
      unfold unresolved_of. simpl. now rewrite Hdm, Hfind. }
  rewrite Hflat. apply Permutation_length_1_inv.
  apply Permutation_sym.
  rewrite (Permutation_flat_map F Hcache). simpl. unfold F.
  apply String.eqb_neq in Hac, Hbc.
  rewrite Hac, Hbc, String.eqb_refl. simpl. apply Permutation_refl.
Qed.

(** C4, as the code has it.  For a registry that holds exactly one cyclic
    pair of mutually dependent components [a], [b] and one component [c]
    with one dangling dependency [d] (not registered, without
    implementation), [validate_configuration] returns exactly three
    findings: the cycle is reported twice, once from each of its members
    ([a, b, a] and [b, a, b], in registry order), and the dangling
    dependency once, last. *)
Theorem cyclic_pair_and_dangling_dependency_give_three_issues
  (a b c d : TypeId) (na nb nc : string) (fuel : nat) (st : Context) :
  NoDup [a; b; c; d] ->
  Permutation (dict_keys (_component_configs st)) [a; b; c] ->
  Permutation (dict_keys (_dependency_cache st)) [a; b; c] ->
  dict_get (_dependency_cache st) a = Some [(na, b)] ->
  dict_get (_dependency_cache st) b = Some [(nb, a)] ->
  dict_get (_dependency_cache st) c = Some [(nc, d)] ->
  (forall t, In t [a; b; c] -> issubclass classes t d = false) ->
  validation_fuel st <= fuel ->
  exists cycles,
    validate_configuration classes fuel st
    = (Return (cycles ++ [UnresolvedIssue c d]), st)
    /\ Permutation cycles [CircularIssue [a; b; a]; CircularIssue [b; a; b]]
    /\ List.length (cycles ++ [UnresolvedIssue c d]) = 3.
Proof.
  intros Hnd Hreg Hcache Ha Hb Hc Hsub Hfuel.
  rewrite validate_configuration_returns by assumption.
  rewrite (@check_unresolved_dangling a b c d na nb nc st)
    by assumption.
  eexists. split; [reflexivity|].
  assert (Hlen : 4 <= fuel).
  { unfold validation_fuel in Hfuel.
    pose proof (Permutation_length Hreg) as Hl.
    unfold dict_keys in Hl. rewrite length_map in Hl. simpl in Hl. lia. }
  destruct fuel as [|[|[|fuel]]]; try lia.
  assert (Hin : forall t, In t [a; b; c] ->
                          In t (dict_keys (_component_configs st))).
  { intros t Ht.
    eapply Permutation_in; [apply Permutation_sym; exact Hreg | exact Ht]. }
  assert (Hab : a <> b /\ ~ In d (dict_keys (_component_configs st))).
  { inversion Hnd as [|? ? Ha' Hnd1]; subst.
    inversion Hnd1 as [|? ? Hb' Hnd2]; subst.
    inversion Hnd2 as [|? ? Hc' Hnd3]; subst. split.
    - simpl in Ha'. intuition congruence.
    - intros Hd. apply (Permutation_in _ Hreg) in Hd.
      simpl in *. intuition congruence. }
  destruct Hab as [Hab Hd].
  assert (Hcyc : Permutation
                   (flat_map (cycle_issue (S (S (S fuel))) st)
                      (dict_keys (_component_configs st)))
                   [CircularIssue [a; b; a]; CircularIssue [b; a; b]]).
  { rewrite (Permutation_flat_map _ Hreg). simpl.
    rewrite (@cycle_issue_pair fuel st a b na nb),
            (@cycle_issue_pair fuel st b a nb na),
            (@cycle_issue_dangling (S (S fuel)) st c d nc);
      simpl; auto; try apply Permutation_refl;
      apply Hin; simpl; auto. }
  split; [exact Hcyc|].
  rewrite length_app. rewrite (Permutation_length Hcyc). reflexivity.
Qed.
End Validation.

Section Scopes.
Variable classes : TypeId -> ClassDef.

Lemma record_creation_world (bean_type : TypeId) config i start_time st1 :
  heap (world (record_creation bean_type config i start_time st1))
  = heap (world st1)
  /\ constructor_calls
       (world (record_creation bean_type config i start_time st1))
     = constructor_calls (world st1).
Proof.
  unfold record_creation.
  destruct (Scope_eqb (scope config) SINGLETON); split; reflexivity.
Qed.

(** A constructed object is new: its identity is the first one that was
    free when construction began. *)
Lemma construct_fresh (t : TypeId) kwargs w i w' :
  construct classes t kwargs w = (Return i, w') ->
  inst_id i = List.length (heap w)
  /\ inst_class i = t
  /\ List.length (heap w') = S (List.length (heap w)).
Proof.
  unfold construct.
  destruct (construct_error classes t kwargs); intros H; inversion H; subst.
  simpl. rewrite length_app. simpl. repeat split; lia.
Qed.

Lemma evolves_heap_length st st' :
  evolves classes st st' ->
  List.length (heap (world st)) <= List.length (heap (world st')).
Proof.
  intros E. destruct (ev_heap E) as [new ->]. rewrite length_app. lia.
Qed.

Lemma create_instance_fresh rec (t : TypeId) (path : list TypeId) st i st' :
  (forall t p st r st', rec t p st = (r, st') -> evolves classes st st') ->
  _create_instance_optimized classes rec t path st = (Return i, st') ->
  List.length (heap (world st)) <= inst_id i
  /\ inst_id i < List.length (heap (world st'))
  /\ inst_class i = t.
Proof.
  intros Hrec. unfold _create_instance_optimized.
  destruct (match dict_get (_dependency_cache st) t with
            | Some d => d
            | None => []
            end) as [|d deps].
  - destruct (construct classes t [] (world st)) as [r0 w] eqn:Hc.
    intros H. inversion H; subst.
    destruct (construct_fresh _ _ _ Hc) as [Hid [Hcl Hlen]].
    simpl. repeat split; auto; lia.
  - destruct (resolve_dependencies rec (d :: deps) path [] st)
      as [[kw|e| |] st1] eqn:Hr; intros H; try discriminate.
    destruct (construct classes t kw (world st1)) as [r0 w] eqn:Hc.
    inversion H; subst.
    destruct (construct_fresh _ _ _ Hc) as [Hid [Hcl Hlen]].
    apply (@resolve_dependencies_evolves classes rec Hrec) in Hr.
    apply evolves_heap_length in Hr. simpl. repeat split; auto; lia.
Qed.

(** What [get_bean] returns for a component that is registered and not
    published is a new object of that component's class. *)
Lemma get_bean_unpublished_fresh fuel (t : TypeId) path config st o st' :
  dict_get (_component_configs st) t = Some config ->
  published classes config = None ->
  get_bean classes fuel t path st = (Return o, st') ->
  List.length (heap (world st)) <= inst_id o
  /\ inst_id o < List.length (heap (world st'))
  /\ inst_class o = t
  /\ st' = record_creation t config o (clock (world st))
             (snd (_create_instance_optimized classes
                     (get_bean classes (pred fuel)) t
                     (match path with Some p => p | None => [] end ++ [t])
                     (ticked st))).
Proof.
  intros Hcfg Hpub. destruct fuel as [|fuel]; [discriminate|].
  rewrite get_bean_unfold, get_bean_body_eq. cbv zeta.
  destruct (contains _ t); [discriminate|].
  rewrite Hcfg. unfold get_bean_configured. rewrite Hpub.
  destruct (_create_instance_optimized classes (get_bean classes fuel) t
              (match path with Some p => p | None => [] end ++ [t])
              (ticked st)) as [[i|e| |] st1] eqn:Hc;
    intros H; inversion H; subst.
  pose proof Hc as Hfresh. apply create_instance_fresh in Hfresh;
    [|intros; eapply get_bean_evolves; eauto].
  destruct (record_creation_world t config o (clock (world st)) st1)
    as [Hh _].
  rewrite Hh. simpl in Hfresh. simpl. repeat split; try tauto.
  now rewrite Hc.
Qed.

Lemma prototype_unpublished config :
  scope config = PROTOTYPE -> published classes config = None.
Proof. unfold published. now intros ->. Qed.

Lemma analyze_dependencies_frame (t : TypeId) st :
  _component_configs (snd (_analyze_dependencies classes t st))
  = _component_configs st
  /\ world (snd (_analyze_dependencies classes t st)) = world st.
Proof.
  unfold _analyze_dependencies, analyze_dependencies_body.
  destruct (dict_get (lru_cache st) t); [split; reflexivity|].
  destruct (dict_get (_dependency_cache st) t); split; reflexivity.
Qed.

Lemma run_call_settled (t : TypeId) config st c :
  registers t c = false ->
  dict_get (_component_configs st) t = Some config ->
  settled classes config ->
  dict_get (_component_configs (run_call classes st c)) t = Some config.
Proof.
  intros Hreg Hcfg Hset. destruct c; simpl in *; auto.
  - unfold register_component.
    destruct (analyze_dependencies_frame component_type
                (with_configs st
                   (dict_set (_component_configs st) component_type
                      {| scope := scope0; primary := primary0;
                         instance := None |}))) as [-> _].
    simpl. rewrite dict_get_set_neq; auto.
    now apply String.eqb_neq.
  - destruct (get_bean classes fuel bean_type _creation_path st)
      as [r st'] eqn:Hg.
    apply get_bean_evolves in Hg. simpl.
    destruct Hset as [Hp | Hp].
    + now apply (ev_prototype Hg).
    + now apply (ev_published Hg).
  - now rewrite validate_configuration_state.
Qed.

Lemma run_call_heap st c :
  List.length (heap (world st))
  <= List.length (heap (world (run_call classes st c))).
Proof.
  destruct c; simpl; auto.
  - unfold register_component.
    destruct (analyze_dependencies_frame component_type
                (with_configs st
                   (dict_set (_component_configs st) component_type
                      {| scope := scope0; primary := primary0;
                         instance := None |}))) as [_ ->].
    simpl. lia.
  - destruct (get_bean classes fuel bean_type _creation_path st)
      as [r st'] eqn:Hg.
    apply get_bean_evolves in Hg. simpl.
    now apply evolves_heap_length in Hg.
  - rewrite validate_configuration_state. lia.
  - rewrite setattr_length. lia.
Qed.

Lemma run_settled (t : TypeId) config calls st :
  Forall (fun c => registers t c = false) calls ->
  dict_get (_component_configs st) t = Some config ->
  settled classes config ->
  dict_get (_component_configs (run classes calls st)) t = Some config.
Proof.
  intros Hall. revert st. induction Hall as [|c calls Hc Hall IH];
    intros st Hcfg Hset; simpl; auto.
  apply IH; auto. now apply run_call_settled.
Qed.

Lemma run_heap calls st :
  List.length (heap (world st))
  <= List.length (heap (world (run classes calls st))).
Proof.
  revert st. induction calls as [|c calls IH]; intros st; simpl; [lia|].
  eapply Nat.le_trans; [apply (run_call_heap st c)|].
  apply (IH (run_call classes st c)).
Qed.

(** Prototype independence in [OptimizedApplicationContext].  Between the
    two calls the client may do anything but register [t] again. *)
Lemma prototype_independence_optimized (t : TypeId) (config : Config)
  (fuel1 fuel2 : nat) (path1 path2 : option (list TypeId))
  (calls : list Call) (st st1 st2 : Context) (o1 o2 : Instance) :
  dict_get (_component_configs st) t = Some config ->
  scope config = PROTOTYPE ->
  get_bean classes fuel1 t path1 st = (Return o1, st1) ->
  Forall (fun c => registers t c = false) calls ->
  get_bean classes fuel2 t path2 (run classes calls st1) = (Return o2, st2) ->
  inst_id o1 <> inst_id o2
  /\ dict_get (_component_configs st1) t = Some config
  /\ dict_get (_component_configs st2) t = Some config
  /\ (forall h name name' v,
         getattr (setattr h o1 name v) o2 name' = getattr h o2 name')
  /\ (forall h name name' v,
         getattr (setattr h o2 name v) o1 name' = getattr h o1 name').
Proof.
  intros Hcfg Hs H1 Hcalls H2.
  pose proof (@prototype_unpublished config Hs) as Hpub.
  assert (Hcfg1 : dict_get (_component_configs st1) t = Some config).
  { apply get_bean_evolves in H1. now apply (ev_prototype H1). }
  assert (Hcfg1' : dict_get (_component_configs (run classes calls st1)) t
                   = Some config).
  { apply run_settled; auto. now left. }
  assert (Hcfg2 : dict_get (_component_configs st2) t = Some config).
  { pose proof H2 as E. apply get_bean_evolves in E.
    now apply (ev_prototype E). }
  destruct (@get_bean_unpublished_fresh fuel1 t path1 config st o1 st1
              Hcfg Hpub H1) as [_ [Hlt1 _]].
  destruct (@get_bean_unpublished_fresh fuel2 t path2 config _ o2 st2
              Hcfg1' Hpub H2) as [Hge2 _].
  pose proof (run_heap calls st1) as Hrun.
  assert (Hne : inst_id o1 <> inst_id o2) by lia.
  repeat split; auto.
  - intros. now apply getattr_setattr_other.
  - intros. apply getattr_setattr_other. congruence.
Qed.


(** Once a singleton is published, a top-level [get_bean] returns it and
    changes nothing but the clock. *)
Lemma get_bean_published fuel (t : TypeId) config st o :
  dict_get (_component_configs st) t = Some config ->
  published classes config = Some o ->
  get_bean classes (S fuel) t None st = (Return o, ticked st).
Proof.
  intros Hcfg Hpub.
  rewrite get_bean_unfold, get_bean_body_off_path by reflexivity.
  cbv zeta. rewrite Hcfg. unfold get_bean_configured. now rewrite Hpub.
Qed.

End Scopes.

End OptimizedProperties.
(** * Properties of [ApplicationContext] *)

Module BasicProperties.
Import ApplicationContext.

Section Evolution.
Variable classes : TypeId -> ClassDef.

Lemma basic_evolves_refl st : evolves classes st st.
Proof. constructor; auto. Qed.

Lemma basic_evolves_trans st1 st2 st3 :
  evolves classes st1 st2 -> evolves classes st2 st3 -> evolves classes st1 st3.
Proof.
  intros A B. constructor.
  - rewrite (ev_keys B). apply (ev_keys A).
  - intros t c H Hs. apply (ev_settled B); auto. apply (ev_settled A); auto.
  - pose proof (ev_heap A). pose proof (ev_heap B). lia.
Qed.

Lemma with_lock_evolves st l : evolves classes st (with_lock st l).
Proof. constructor; simpl; auto. Qed.

Lemma basic_construct_evolves st (t : TypeId) kwargs r w :
  construct classes t kwargs (world st) = (r, w) ->
  evolves classes st (with_world st w).
Proof.
  unfold construct. intros H.
  destruct (construct_error classes t kwargs);
    inversion H; subst; constructor; simpl; auto.
  rewrite length_app. lia.
Qed.

Section Step.
Variable rec : TypeId -> Context -> Outcome Instance * Context.
Hypothesis rec_evolves :
  forall t st r st', rec t st = (r, st') -> evolves classes st st'.

Lemma inject_evolves params dependencies st r st' :
  inject rec params dependencies st = (r, st') -> evolves classes st st'.
Proof.
  revert dependencies st.
  induction params as [|p params IH]; intros dependencies st; simpl.
  - intros H. inversion H; subst. apply basic_evolves_refl.
  - destruct (String.eqb (param_name p) "self"); [apply IH|].
    destruct (annotation p) as [param_type|]; [|apply IH].
    destruct (rec param_type st) as [[i|e| |] st1] eqn:Hr; intros H;
      pose proof Hr as E1; apply rec_evolves in E1;
      try (inversion H; subst; assumption).
    eapply basic_evolves_trans; [exact E1|]. eapply IH; eauto.
Qed.

Lemma basic_create_instance_evolves (t : TypeId) st r st' :
  _create_instance classes rec t st = (r, st') -> evolves classes st st'.
Proof.
  unfold _create_instance.
  destruct (inject rec (init_signature (classes t)) [] st)
    as [[kw|e| |] st1] eqn:Hi; intros H;
    pose proof Hi as E1; apply inject_evolves in E1;
    try (inversion H; subst; assumption).
  destruct (construct classes t kw (world st1)) as [r0 w] eqn:Hc.
  inversion H; subst. eapply basic_evolves_trans; [exact E1|].
  eapply basic_construct_evolves; eauto.
Qed.

Lemma store_evolves st st1 (t : TypeId) config i :
  dict_get (_component_configs st) t = Some config ->
  published classes config = None ->
  evolves classes st st1 ->
  evolves classes st
    (if Scope_eqb (scope config) SINGLETON then
       with_configs st1
         (dict_set (_component_configs st1) t
            {| scope := scope config; primary := primary config;
               instance := Some i |})
     else st1).
Proof.
  intros Hcfg Hpub E.
  destruct (Scope_eqb (scope config) SINGLETON) eqn:Hs; [|assumption].
  constructor; simpl.
  - rewrite dict_keys_set_present; [apply (ev_keys E)|].
    rewrite (ev_keys E). eapply dict_get_Some_In_keys; eauto.
  - intros t' c H Hset. rewrite dict_get_set_neq; [apply (ev_settled E); auto|].
    intros ->. assert (c = config) by congruence. subst c.
    destruct Hset as [Hp | Hp]; [|congruence].
    rewrite Hp in Hs. discriminate.
  - apply (ev_heap E).
Qed.

Lemma basic_get_bean_configured_evolves (t : TypeId) config st r st' :
  dict_get (_component_configs st) t = Some config ->
  get_bean_configured classes rec t config st = (r, st') ->
  evolves classes st st'.
Proof.
  intros Hcfg. unfold get_bean_configured.
  destruct (published classes config) as [i|] eqn:Hp.
  - intros H. inversion H; subst. apply basic_evolves_refl.
  - destruct (_create_instance classes rec t st) as [[i|e| |] st1] eqn:Hc;
      intros H; pose proof Hc as E1; apply basic_create_instance_evolves in E1;
      inversion H; subst; try assumption.
    now apply store_evolves.
Qed.

Lemma get_bean_locked_evolves (t : TypeId) st r st' :
  get_bean_locked classes rec t st = (r, st') -> evolves classes st st'.
Proof.
  unfold get_bean_locked.
  destruct (dict_get (_component_configs st) t) as [config|] eqn:Hg.
  { apply basic_get_bean_configured_evolves; auto. }
  destruct (_find_implementations classes st t) as [|impl impls].
  { intros H. inversion H; subst. apply basic_evolves_refl. }
  destruct (dict_get (_component_configs st) impl) as [config|] eqn:Hg'.
  { apply basic_get_bean_configured_evolves; auto. }
  intros H. inversion H; subst. apply basic_evolves_refl.
Qed.

Lemma basic_get_bean_body_evolves (t : TypeId) st r st' :
  get_bean_body classes rec t st = (r, st') -> evolves classes st st'.
Proof.
  unfold get_bean_body. destruct (_lock st).
  { intros H. inversion H; subst. apply basic_evolves_refl. }
  destruct (get_bean_locked classes rec t (with_lock st true))
    as [[i|e| |] st1] eqn:Hl; intros H; inversion H; subst;
    apply get_bean_locked_evolves in Hl;
    (eapply basic_evolves_trans; [apply (with_lock_evolves st true)|]);
    try assumption;
    (eapply basic_evolves_trans; [exact Hl|]); apply with_lock_evolves.
Qed.
End Step.

Lemma basic_get_bean_evolves fuel (t : TypeId) st r st' :
  get_bean classes fuel t st = (r, st') -> evolves classes st st'.
Proof.
  revert t st r st'. induction fuel as [|fuel IH]; intros t st r st'; simpl.
  - intros H. inversion H; subst. apply basic_evolves_refl.
  - apply basic_get_bean_body_evolves. exact IH.
Qed.
End Evolution.

Section Scopes.
Variable classes : TypeId -> ClassDef.

Lemma basic_construct_fresh (t : TypeId) kwargs w i w' :
  construct classes t kwargs w = (Return i, w') ->
  inst_id i = List.length (heap w)
  /\ inst_class i = t
  /\ List.length (heap w') = S (List.length (heap w)).
Proof.
  unfold construct.
  destruct (construct_error classes t kwargs); intros H; inversion H; subst.
  simpl. rewrite length_app. simpl. repeat split; lia.
Qed.

Lemma basic_create_instance_fresh fuel (t : TypeId) st i st' :
  _create_instance classes (get_bean classes fuel) t st = (Return i, st') ->
  List.length (heap (world st)) <= inst_id i
  /\ inst_id i < List.length (heap (world st'))
  /\ inst_class i = t.
Proof.
  unfold _create_instance.
  destruct (inject (get_bean classes fuel) (init_signature (classes t)) [] st)
    as [[kw|e| |] st1] eqn:Hi; intros H; try discriminate.
  destruct (construct classes t kw (world st1)) as [r0 w] eqn:Hc.
  inversion H; subst.
  destruct (basic_construct_fresh _ _ _ Hc) as [Hid [Hcl Hlen]].
  apply (@inject_evolves classes (get_bean classes fuel)) in Hi;
    [|intros; eapply basic_get_bean_evolves; eauto].
  pose proof (ev_heap Hi). simpl. repeat split; auto; lia.
Qed.

(** What [get_bean] returns for a component that is registered and not
    published is a new object of its class; a singleton is then stored in
    the registry entry. *)
Lemma basic_get_bean_unpublished_fresh fuel (t : TypeId) config st o st' :
  dict_get (_component_configs st) t = Some config ->
  published classes config = None ->
  get_bean classes fuel t st = (Return o, st') ->
  List.length (heap (world st)) <= inst_id o
  /\ inst_id o < List.length (heap (world st'))
  /\ inst_class o = t
  /\ (scope config = SINGLETON ->
      dict_get (_component_configs st') t
      = Some {| scope := scope config; primary := primary config;
                instance := Some o |}).
Proof.
  intros Hcfg Hpub. destruct fuel as [|fuel]; [discriminate|].
  simpl. unfold get_bean_body. destruct (_lock st); [discriminate|].
  unfold get_bean_locked.
  change (_component_configs (with_lock st true))
    with (_component_configs st).
  rewrite Hcfg. unfold get_bean_configured. rewrite Hpub.
  destruct (_create_instance classes (get_bean classes fuel) t
              (with_lock st true)) as [[i|e| |] st1] eqn:Hc;
    intros H; inversion H; subst.
  apply basic_create_instance_fresh in Hc. simpl in Hc.
  destruct (Scope_eqb (scope config) SINGLETON) eqn:Hs; simpl.
  - repeat split; try tauto. intros _. apply dict_get_set_eq.
  - repeat split; try tauto. intros Hs'. rewrite Hs' in Hs. discriminate.
Qed.

Lemma basic_run_call_settled (t : TypeId) config st c :
  registers t c = false ->
  dict_get (_component_configs st) t = Some config ->
  settled classes config ->
  dict_get (_component_configs (run_call classes st c)) t = Some config.
Proof.
  intros Hreg Hcfg Hset. destruct c; simpl in *; auto.
  - unfold register_component. destruct (_lock st); simpl; auto.
    rewrite dict_get_set_neq; auto. now apply String.eqb_neq.
  - destruct (get_bean classes fuel bean_type st) as [r st'] eqn:Hg.
    apply basic_get_bean_evolves in Hg. simpl.
    now apply (ev_settled Hg).
Qed.

Lemma basic_run_call_heap st c :
  List.length (heap (world st))
  <= List.length (heap (world (run_call classes st c))).
Proof.
  destruct c; simpl; auto.
  - unfold register_component. destruct (_lock st); simpl; lia.
  - destruct (get_bean classes fuel bean_type st) as [r st'] eqn:Hg.
    apply basic_get_bean_evolves in Hg. simpl. apply (ev_heap Hg).
  - rewrite setattr_length. lia.
Qed.

Lemma basic_run_settled (t : TypeId) config calls st :
  Forall (fun c => registers t c = false) calls ->
  dict_get (_component_configs st) t = Some config ->
  settled classes config ->
  dict_get (_component_configs (run classes calls st)) t = Some config.
Proof.
  intros Hall. revert st. induction Hall as [|c calls Hc Hall IH];
    intros st Hcfg Hset; simpl; auto.
  apply IH; auto. now apply basic_run_call_settled.
Qed.

Lemma basic_run_heap calls st :
  List.length (heap (world st))
  <= List.length (heap (world (run classes calls st))).
Proof.
  revert st. induction calls as [|c calls IH]; intros st; simpl; [lia|].
  eapply Nat.le_trans; [apply (basic_run_call_heap st c)|].
  apply (IH (run_call classes st c)).
Qed.

Lemma basic_prototype_unpublished config :
  scope config = PROTOTYPE -> published classes config = None.
Proof. unfold published. now intros ->. Qed.

(** Prototype independence in [ApplicationContext]. *)
Lemma prototype_independence_basic (t : TypeId) (config : Config)
  (fuel1 fuel2 : nat) (calls : list Call) (st st1 st2 : Context)
  (o1 o2 : Instance) :
  dict_get (_component_configs st) t = Some config ->
  scope config = PROTOTYPE ->
  get_bean classes fuel1 t st = (Return o1, st1) ->
  Forall (fun c => registers t c = false) calls ->
  get_bean classes fuel2 t (run classes calls st1) = (Return o2, st2) ->
  inst_id o1 <> inst_id o2
  /\ dict_get (_component_configs st1) t = Some config
  /\ dict_get (_component_configs st2) t = Some config
  /\ (forall h name name' v,
         getattr (setattr h o1 name v) o2 name' = getattr h o2 name')
  /\ (forall h name name' v,
         getattr (setattr h o2 name v) o1 name' = getattr h o1 name').
Proof.
  intros Hcfg Hs H1 Hcalls H2.
  pose proof (@basic_prototype_unpublished config Hs) as Hpub.
  assert (Hset : settled classes config) by now left.
  assert (Hcfg1 : dict_get (_component_configs st1) t = Some config).
  { apply basic_get_bean_evolves in H1. now apply (ev_settled H1). }
  assert (Hcfg1' : dict_get (_component_configs (run classes calls st1)) t
                   = Some config).
  { apply basic_run_settled; auto. }
  assert (Hcfg2 : dict_get (_component_configs st2) t = Some config).
  { pose proof H2 as E. apply basic_get_bean_evolves in E.
    now apply (ev_settled E). }
  destruct (@basic_get_bean_unpublished_fresh fuel1 t config st o1 st1
              Hcfg Hpub H1) as [_ [Hlt1 _]].
  destruct (@basic_get_bean_unpublished_fresh fuel2 t config _ o2 st2
              Hcfg1' Hpub H2) as [Hge2 _].
  pose proof (basic_run_heap calls st1) as Hrun.
  assert (Hne : inst_id o1 <> inst_id o2) by lia.
  repeat split; auto.
  - intros. now apply getattr_setattr_other.
  - intros. apply getattr_setattr_other. congruence.
Qed.


(** The lock of [ApplicationContext] is not re-entrant: the recursive
    [get_bean] for the first injected parameter waits for the lock that the
    outer [get_bean] holds.  Resolving a registered, unpublished component
    whose constructor has an annotated parameter never returns. *)
Lemma inject_blocks fuel params dependencies st (p : Param) (d : TypeId) :
  _lock st = true ->
  In p params ->
  String.eqb (param_name p) "self" = false ->
  annotation p = Some d ->
  fst (inject (get_bean classes (S fuel)) params dependencies st) = Blocked.
Proof.
  intros Hlock. induction params as [|q params IH]; simpl; [tauto|].
  intros Hin Hname Hann.
  destruct (String.eqb (param_name q) "self") eqn:Hq.
  { destruct Hin as [-> | Hin]; [congruence | auto]. }
  destruct (annotation q) as [param_type|] eqn:Ha.
  - unfold get_bean_body. now rewrite Hlock.
  - destruct Hin as [-> | Hin]; [congruence | auto].
Qed.

Lemma basic_get_bean_with_dependency_blocks fuel (t d : TypeId)
  (config : Config) (p : Param) (st : Context) :
  _lock st = false ->
  dict_get (_component_configs st) t = Some config ->
  published classes config = None ->
  In p (init_signature (classes t)) ->
  String.eqb (param_name p) "self" = false ->
  annotation p = Some d ->
  fst (get_bean classes (S (S fuel)) t st) = Blocked.
Proof.
  intros Hlock Hcfg Hpub Hin Hname Hann.
  change (get_bean classes (S (S fuel)) t st)
    with (get_bean_body classes (get_bean classes (S fuel)) t st).
  unfold get_bean_body. rewrite Hlock. unfold get_bean_locked.
  change (_component_configs (with_lock st true))
    with (_component_configs st).
  rewrite Hcfg. unfold get_bean_configured. rewrite Hpub.
  unfold _create_instance.
  pose proof (@inject_blocks fuel (init_signature (classes t)) []
                (with_lock st true) p d eq_refl Hin Hname Hann) as Hb.
  destruct (inject (get_bean classes (S fuel)) (init_signature (classes t))
              [] (with_lock st true)) as [r st1].
  simpl in Hb. subst r. reflexivity.
Qed.
End Scopes.

End BasicProperties.
(** * Both containers, and the concrete registries *)

(** C1.  Singleton identity does not hold for every singleton type.  Both
    containers test the truth value of [config['instance']] where they
    mean "an instance was stored".  [Inbox] defines [__len__] and is empty
    when created, so its instances are false: every [get_bean] constructs
    and stores another [Inbox], and two calls return two objects.  (For
    components whose instances are true, [singleton_identity_optimized]
    and [singleton_identity_basic] prove the identity.) *)
Theorem singleton_identity_fails_for_false_instances :
  dict_get (OptimizedApplicationContext._component_configs
              Demo.service_registry) "Inbox"
  = Some {| scope := SINGLETON; primary := false; instance := None |}
  /\ (let (r1, st1) :=
        OptimizedApplicationContext.get_bean Demo.classes 1 "Inbox" None
          Demo.service_registry in
      let (r2, st2) :=
        OptimizedApplicationContext.get_bean Demo.classes 1 "Inbox" None
          st1 in
      r1 = Return {| inst_id := 0; inst_class := "Inbox" |}
      /\ r2 = Return {| inst_id := 1; inst_class := "Inbox" |}
      /\ OptimizedApplicationContext.get_metrics st2
         = [("Inbox", {| creation_count := 2; total_time := 2 |})])
  /\ (let (r1, st1) :=
        ApplicationContext.get_bean Demo.classes 1 "Inbox"
          Demo.basic_service_registry in
      let (r2, st2) :=
        ApplicationContext.get_bean Demo.classes 1 "Inbox" st1 in
      r1 = Return {| inst_id := 0; inst_class := "Inbox" |}
      /\ r2 = Return {| inst_id := 1; inst_class := "Inbox" |}).
Proof. vm_compute. repeat split. Qed.

Module Witnesses.
Import OptimizedApplicationContext.


(** C3 at a registry with two implementations of [IDataSource]. *)
Lemma capability_resolves_to_first_implementation_witness :
  (exists earlier later,
      dict_keys (_component_configs Demo.datasource_registry)
      = earlier ++ "DatabaseDataSource" :: later
      /\ issubclass Demo.classes "DatabaseDataSource" "IDataSource" = true
      /\ forall t, In t earlier ->
                   issubclass Demo.classes t "IDataSource" = false)
  /\ get_bean Demo.classes 1 "IDataSource" (Some [])
       Demo.datasource_registry
     = get_bean Demo.classes 1 "DatabaseDataSource" (Some [])
         Demo.datasource_registry.
Proof.
  destruct (@OptimizedProperties.capability_resolves_to_first_implementation
              Demo.classes 0 "IDataSource" "DatabaseDataSource"
              ["CacheDataSource"] [] Demo.datasource_registry
              eq_refl eq_refl (fun H : In "IDataSource" [] => H))
    as [Hfirst [_ Hsame]].
  split; [exact Hfirst|]. apply Hsame. simpl. tauto.
Defined.

(** C3 as stated fails: with exactly one implementation marked primary
    ([CacheDataSource]), [get_bean] hands out the other one, which was
    registered first; with two implementations marked primary, it hands
    out the first one as well instead of failing. *)
Lemma capability_tie_break_counterexample :
  (dict_get (_component_configs Demo.datasource_registry)
     "DatabaseDataSource"
   = Some {| scope := SINGLETON; primary := false; instance := None |}
   /\ dict_get (_component_configs Demo.datasource_registry)
        "CacheDataSource"
      = Some {| scope := SINGLETON; primary := true; instance := None |}
   /\ fst (get_bean Demo.classes 1 "IDataSource" None
             Demo.datasource_registry)
      = Return {| inst_id := 0; inst_class := "DatabaseDataSource" |})
  /\ (dict_get (_component_configs Demo.two_primaries_registry)
        "DatabaseDataSource"
      = Some {| scope := SINGLETON; primary := true; instance := None |}
      /\ dict_get (_component_configs Demo.two_primaries_registry)
           "CacheDataSource"
         = Some {| scope := SINGLETON; primary := true; instance := None |}
      /\ fst (get_bean Demo.classes 1 "IDataSource" None
                Demo.two_primaries_registry)
         = Return {| inst_id := 0; inst_class := "DatabaseDataSource" |}).
Proof. vm_compute. repeat split. Qed.

(** C4 at the registry of one cyclic pair and one dangling dependency. *)
Lemma cyclic_pair_and_dangling_dependency_witness :
  exists cycles,
    validate_configuration Demo.classes 4 Demo.cyclic_registry
    = (Return (cycles
               ++ [UnresolvedIssue "ServiceWithUnregisteredDep"
                     "UnregisteredDependency"]),
       Demo.cyclic_registry)
    /\ Permutation cycles
         [CircularIssue ["ServiceA"; "ServiceB"; "ServiceA"];
          CircularIssue ["ServiceB"; "ServiceA"; "ServiceB"]]
    /\ List.length
         (cycles ++ [UnresolvedIssue "ServiceWithUnregisteredDep"
                       "UnregisteredDependency"]) = 3.
Proof.
  apply (@OptimizedProperties.cyclic_pair_and_dangling_dependency_give_three_issues
           Demo.classes "ServiceA" "ServiceB" "ServiceWithUnregisteredDep"
           "UnregisteredDependency" "service_b" "service_a" "dep" 4
           Demo.cyclic_registry).
  - repeat constructor; simpl; intuition discriminate.
  - apply Permutation_refl.
  - apply Permutation_refl.
  - reflexivity.
  - reflexivity.
  - reflexivity.
  - intros t [<- | [<- | [<- | []]]]; reflexivity.
  - vm_compute. lia.
Defined.

(** C4 as stated fails: the registry of one cyclic pair and one dangling
    dependency yields three findings, not two. *)
Lemma static_validation_issue_count_counterexample :
  fst (validate_configuration Demo.classes
         (validation_fuel Demo.cyclic_registry) Demo.cyclic_registry)
  = Return [CircularIssue ["ServiceA"; "ServiceB"; "ServiceA"];
            CircularIssue ["ServiceB"; "ServiceA"; "ServiceB"];
            UnresolvedIssue "ServiceWithUnregisteredDep"
              "UnregisteredDependency"]
  /\ ~ (exists issues,
          fst (validate_configuration Demo.classes
                 (validation_fuel Demo.cyclic_registry)
                 Demo.cyclic_registry) = Return issues
          /\ List.length issues = 2).
Proof.
  split; [vm_compute; reflexivity|].
  intros [issues [H Hlen]]. vm_compute in H. inversion H; subst.
  discriminate.
Qed.

(** C5 at the missing dependency of the stability test. *)
Lemma bean_not_found_iff_missing_witness :
  ((exists st',
       get_bean Demo.classes 1 "UnregisteredDependency"
         (Some ["ServiceWithUnregisteredDep"]) Demo.cyclic_registry
       = (Raise (BeanNotFoundError "UnregisteredDependency"), st'))
   <-> missing Demo.classes Demo.cyclic_registry
         "UnregisteredDependency")
  /\ "UnregisteredDependency" <> "ServiceWithUnregisteredDep"
  /\ get_bean Demo.classes 2 "ServiceWithUnregisteredDep" None
       Demo.cyclic_registry
     = (Raise (BeanNotFoundError "UnregisteredDependency"),
        ticked
          (ticked Demo.cyclic_registry)).
Proof.
  split.
  - apply (proj1 (OptimizedProperties.bean_not_found_iff_missing
                    Demo.classes 0 "UnregisteredDependency"
                    Demo.cyclic_registry)
             (Some ["ServiceWithUnregisteredDep"])).
    intros x [<- | []]. discriminate.
  - apply (proj2 (proj2 (OptimizedProperties.bean_not_found_iff_missing
                           Demo.classes 0 "ServiceWithUnregisteredDep"
                           Demo.cyclic_registry))
             {| scope := SINGLETON; primary := false; instance := None |}
             [] "dep" "UnregisteredDependency" [] []).
    + reflexivity.
    + reflexivity.
    + reflexivity.
    + reflexivity.
    + split; reflexivity.
Defined.

(** C6 as stated fails: after one resolution, [clear_cache] leaves the
    descriptor table with its four entries and its published singletons,
    and leaves the metrics records with their counts and times. *)
Lemma clear_all_counterexample :
  let st :=
    snd (get_bean Demo.classes 2 "LoadTestService" None
           Demo.service_registry) in
  dict_keys (_component_configs (clear_cache st))
  = ["LoadTestRepository"; "LoadTestService"; "PrototypeService"; "Inbox"]
  /\ dict_get (_component_configs (clear_cache st)) "LoadTestService"
     = Some {| scope := SINGLETON; primary := false;
               instance := Some {| inst_id := 1;
                                   inst_class := "LoadTestService" |} |}
  /\ get_metrics (clear_cache st)
     = [("LoadTestRepository", {| creation_count := 1; total_time := 1 |});
        ("LoadTestService", {| creation_count := 1; total_time := 3 |})]
  /\ _component_configs (clear_cache st) <> []
  /\ get_metrics (clear_cache st) <> []
  /\ _dependency_cache (clear_cache st) = [].
Proof. vm_compute. repeat split; discriminate. Qed.

(** C9 at a decorator that takes the interface it implements, with a
    budget of a thousand nested calls. *)
Lemma capability_cycle_is_not_detected_witness :
  fst (get_bean Demo.classes 1000 "IHandler" (Some [])
         Demo.decorator_registry) = RecursionLimit
  /\ constructor_calls
       (world (snd (get_bean Demo.classes 1000 "IHandler" (Some [])
                      Demo.decorator_registry)))
     = constructor_calls (world Demo.decorator_registry).
Proof.
  apply (@OptimizedProperties.capability_cycle_is_not_detected
           Demo.classes "IHandler" "Decorator" []
           {| scope := SINGLETON; primary := false; instance := None |}
           "inner" [] Demo.decorator_registry);
    try reflexivity.
  simpl. tauto.
Defined.

(** C10 at the service of the load test, after [clear_cache]: its
    parameter has no default, and the call without arguments fails with
    the constructor's own error, which names the parameter. *)
Lemma cleared_cache_constructs_without_arguments_witness :
  let r :=
    get_bean Demo.classes 1 "LoadTestService" None
      (clear_cache Demo.service_registry) in
  constructor_calls (world (snd r))
  = constructor_calls (world Demo.service_registry)
    ++ [("LoadTestService", [])]
  /\ _dependency_cache (snd r) = []
  /\ fst r = Raise (TypeError "LoadTestService" ["repo"])
  /\ _component_configs (snd r) = _component_configs Demo.service_registry
  /\ heap (world (snd r)) = heap (world Demo.service_registry).
Proof.
  pose proof
    (@OptimizedProperties.cleared_cache_constructs_without_arguments
       Demo.classes 0 "LoadTestService"
       {| scope := SINGLETON; primary := false; instance := None |}
       Demo.service_registry eq_refl eq_refl) as H.
  cbv zeta in H. destruct H as (H1 & H2 & _ & H4 & _).
  destruct H4 as (H4 & H5 & H6);
    [reflexivity | vm_compute; discriminate |].
  cbv zeta. split; [exact H1|]. split; [exact H2|].
  split; [exact H4|]. split; [exact H5|exact H6].
Defined.

(** C10 as stated fails: [ReportService] has a constructor dependency,
    with a default, and no published instance.  After [clear_cache] the
    call without arguments binds, so [get_bean] does not fail: it returns
    a [ReportService] that has no repository, and stores it. *)
Lemma cleared_cache_default_counterexample :
  let st :=
    Demo.registry_of [("LoadTestRepository", SINGLETON, false);
                      ("ReportService", SINGLETON, false)] in
  let r := get_bean Demo.classes 2 "ReportService" None (clear_cache st) in
  dict_get (_dependency_cache st) "ReportService"
  = Some [("repo", "LoadTestRepository")]
  /\ dict_get (_component_configs st) "ReportService"
     = Some {| scope := SINGLETON; primary := false; instance := None |}
  /\ fst r = Return {| inst_id := 0; inst_class := "ReportService" |}
  /\ constructor_calls (world (snd r)) = [("ReportService", [])]
  /\ heap (world (snd r)) = [[]]
  /\ dict_get (_component_configs (snd r)) "ReportService"
     = Some {| scope := SINGLETON; primary := false;
               instance := Some {| inst_id := 0;
                                   inst_class := "ReportService" |} |}.
Proof. vm_compute. repeat split. Qed.
End Witnesses.
(** * Further properties of [OptimizedApplicationContext] *)

Module OptimizedExtras.
Import OptimizedApplicationContext OptimizedExtensions.

Section Registration.
Variable classes : TypeId -> ClassDef.

Lemma dict_set_NoDup (V : Type) (d : dict V) k v :
  NoDup (dict_keys d) -> NoDup (dict_keys (dict_set d k v)).
Proof.
  intros Hnd. destruct (in_dec string_dec k (dict_keys d)) as [Hin | Hout].
  - now rewrite dict_keys_set_present.
  - rewrite dict_keys_set_absent by assumption.
    apply NoDup_app; auto.
    + repeat constructor. intros [].
    + intros x Hx [<- | []]. contradiction.
Qed.

Lemma dict_get_In (V : Type) (d : dict V) k v :
  dict_get d k = Some v -> In (k, v) d.
Proof.
  induction d as [|[k' v'] d IH]; simpl; [discriminate|].
  destruct (String.eqb k' k) eqn:E.
  - apply String.eqb_eq in E. intros H. inversion H; subst. now left.
  - intros H. right. auto.
Qed.

Lemma dict_set_In (V : Type) (d : dict V) k v k' v' :
  In (k', v') (dict_set d k v) -> (k' = k /\ v' = v) \/ In (k', v') d.
Proof.
  induction d as [|[k0 v0] d IH]; simpl.
  - intros [H | []]. inversion H. auto.
  - destruct (String.eqb k0 k) eqn:E; simpl.
    + apply String.eqb_eq in E. subst k0.
      intros [H | H]; [inversion H; auto | auto].
    + intros [H | H]; [auto|]. destruct (IH H); auto.
Qed.

Lemma analyze_fold_NoDup params acc :
  NoDup (dict_keys acc) ->
  NoDup (dict_keys (fold_left analyze_step params acc)).
Proof.
  revert acc. induction params as [|p params IH]; intros acc Hnd; simpl; auto.
  apply IH. unfold analyze_step.
  destruct (String.eqb (param_name p) "self"); auto.
  destruct (annotation p); auto. now apply dict_set_NoDup.
Qed.

Lemma analyze_fold_sound params acc name d :
  In (name, d) (fold_left analyze_step params acc) ->
  In (name, d) acc
  \/ exists p, In p params /\ param_name p = name
               /\ annotation p = Some d /\ name <> "self".
Proof.
  revert acc. induction params as [|p params IH]; intros acc; simpl; auto.
  intros H. apply IH in H. destruct H as [H | [q [Hq Hrest]]].
  - unfold analyze_step in H.
    destruct (String.eqb (param_name p) "self") eqn:Es; auto.
    destruct (annotation p) as [t|] eqn:Ha; auto.
    apply dict_set_In in H. destruct H as [[-> ->] | H]; auto.
    right. exists p. apply String.eqb_neq in Es. auto.
  - right. exists q. auto.
Qed.

Lemma analyze_fold_keeps params acc name :
  In name (dict_keys acc) ->
  In name (dict_keys (fold_left analyze_step params acc)).
Proof.
  revert acc. induction params as [|p params IH]; intros acc H; simpl; auto.
  apply IH. unfold analyze_step.
  destruct (String.eqb (param_name p) "self"); auto.
  destruct (annotation p) as [t|]; auto.
  apply dict_get_In_keys. apply dict_get_In_keys in H.
  destruct (String.eqb (param_name p) name) eqn:E.
  - apply String.eqb_eq in E. subst. rewrite dict_get_set_eq. discriminate.
  - apply String.eqb_neq in E. now rewrite dict_get_set_neq.
Qed.

Lemma analyze_fold_complete params acc p :
  In p params ->
  param_name p <> "self" ->
  annotation p <> None ->
  In (param_name p) (dict_keys (fold_left analyze_step params acc)).
Proof.
  revert acc. induction params as [|q params IH]; intros acc; simpl; [tauto|].
  intros [-> | Hin] Hname Hann; [|now apply IH].
  apply analyze_fold_keeps. unfold analyze_step.
  apply String.eqb_neq in Hname. rewrite Hname.
  destruct (annotation p) as [t|]; [|congruence].
  apply dict_get_In_keys. rewrite dict_get_set_eq. discriminate.
Qed.

Lemma signature_dependencies_fold (t : TypeId) :
  signature_dependencies classes t
  = fold_left analyze_step (init_signature (classes t)) [].
Proof. reflexivity. Qed.

Lemma signature_dependencies_NoDup (t : TypeId) :
  NoDup (dict_keys (signature_dependencies classes t)).
Proof.
  rewrite signature_dependencies_fold. apply analyze_fold_NoDup. constructor.
Qed.

(** X1.  The dependency map that [_analyze_dependencies] reads off a
    constructor: its parameter names are distinct; each entry is a
    parameter of [__init__] that carries that annotation and is not named
    [self]; and every annotated parameter not named [self] has an entry
    under its name. *)
Theorem signature_dependencies_characterised (component_type : TypeId) :
  NoDup (dict_keys (signature_dependencies classes component_type))
  /\ (forall name d,
         In (name, d) (signature_dependencies classes component_type) ->
         name <> "self"
         /\ exists p,
             In p (init_signature (classes component_type))
             /\ param_name p = name /\ annotation p = Some d)
  /\ (forall p,
         In p (init_signature (classes component_type)) ->
         param_name p <> "self" ->
         annotation p <> None ->
         In (param_name p)
           (dict_keys (signature_dependencies classes component_type))).
Proof.
  rewrite signature_dependencies_fold.
  split; [|split].
  - apply analyze_fold_NoDup. constructor.
  - intros name d H. apply analyze_fold_sound in H.
    destruct H as [[] | [p [Hp [Hn [Ha Hs]]]]]. split; eauto.
  - intros p Hp Hn Ha. now apply analyze_fold_complete.
Qed.

Lemma analyze_dependencies_keeps (t : TypeId) st :
  _component_configs (snd (_analyze_dependencies classes t st))
  = _component_configs st
  /\ _metrics (snd (_analyze_dependencies classes t st)) = _metrics st
  /\ _creation_order_cache (snd (_analyze_dependencies classes t st))
     = _creation_order_cache st
  /\ world (snd (_analyze_dependencies classes t st)) = world st.
Proof.
  unfold _analyze_dependencies, analyze_dependencies_body.
  destruct (dict_get (lru_cache st) t); [repeat split|].
  destruct (dict_get (_dependency_cache st) t); repeat split.
Qed.

(** X2.  Registration through the decorators.  [component(scope,
    primary)] hands the class back and leaves its registry entry with that
    scope and mark and with no instance, so that a singleton published
    before is dropped; the entries of all other components, the metrics
    and the world are as before.  A new class goes to the end of the
    registry; a class registered before keeps its place, so that the
    implementation chosen for any interface does not change. *)
Theorem component_registers (scope : Scope) (primary : bool)
  (cls : TypeId) (st : Context) :
  let st' := snd (component classes scope primary cls st) in
  fst (component classes scope primary cls st) = cls
  /\ dict_get (_component_configs st') cls
     = Some {| scope := scope; primary := primary; instance := None |}
  /\ (forall t, t <> cls ->
        dict_get (_component_configs st') t
        = dict_get (_component_configs st) t)
  /\ dict_keys (_component_configs st')
     = (if dict_mem (_component_configs st) cls
        then dict_keys (_component_configs st)
        else dict_keys (_component_configs st) ++ [cls])
  /\ _metrics st' = _metrics st
  /\ world st' = world st
  /\ (dict_mem (_component_configs st) cls = true ->
      forall interface_type,
        _find_implementations classes st' interface_type
        = _find_implementations classes st interface_type).
Proof.
  cbv zeta. unfold component, register_component. simpl fst. simpl snd.
  set (st1 := with_configs st _).
  destruct (analyze_dependencies_keeps cls st1) as [Hc [Hm [_ Hw]]].
  rewrite Hc, Hm, Hw. subst st1. simpl.
  assert (Hkeys :
            dict_keys
              (dict_set (_component_configs st) cls
                 {| scope := scope; primary := primary; instance := None |})
            = (if dict_mem (_component_configs st) cls
               then dict_keys (_component_configs st)
               else dict_keys (_component_configs st) ++ [cls])).
  { destruct (dict_mem (_component_configs st) cls) eqn:Hm'.
    - apply dict_keys_set_present. now apply dict_mem_true.
    - apply dict_keys_set_absent. intros Hin.
      apply dict_mem_true in Hin. congruence. }
  repeat split; auto.
  - apply dict_get_set_eq.
  - intros t Ht. apply dict_get_set_neq. congruence.
  - intros Hmem interface_type. unfold _find_implementations.
    rewrite Hc. simpl. rewrite Hkeys, Hmem. reflexivity.
Qed.
End Registration.

Section Consistency.
Variable classes : TypeId -> ClassDef.

Lemma total_creations_set (m : dict Metric) (t : TypeId) (v : Metric) :
  total_creations (dict_set m t v) + creation_count (metric_of m t)
  = total_creations m + creation_count v.
Proof.
  unfold total_creations, metric_of.
  induction m as [|[k r] m IH]; simpl.
  - lia.
  - destruct (String.eqb k t) eqn:E; simpl; [lia|].
    destruct (dict_get m t); simpl in *; lia.
Qed.

Lemma published_instance config i :
  published classes config = Some i -> instance config = Some i.
Proof.
  unfold published.
  destruct (Scope_eqb (scope config) SINGLETON
            && instance_truth classes (instance config)); congruence.
Qed.

(** A change of the world that keeps the number of objects keeps the
    container consistent. *)
Lemma consistent_with_world st w :
  consistent classes st ->
  List.length (heap w) = List.length (heap (world st)) ->
  consistent classes (with_world st w).
Proof.
  intros C Hlen. constructor; simpl.
  - intros t c i H Hi. rewrite Hlen. apply (co_instances C _ H Hi).
  - apply (co_cache C).
  - apply (co_memo C).
  - apply (co_cache_registered C).
  - rewrite Hlen. apply (co_metrics C).
Qed.

Lemma resolved_type_evolves st st' (t : TypeId) :
  evolves classes st st' ->
  resolved_type classes st' t = resolved_type classes st t.
Proof.
  intros E. unfold resolved_type.
  rewrite (OptimizedProperties.find_implementations_same_keys
             classes st st' t (ev_keys E)).
  destruct (dict_get (_component_configs st) t) as [c|] eqn:Hg.
  - destruct (ev_static E _ Hg) as [c' [Hg' _]]. now rewrite Hg'.
  - assert (Hg' : dict_get (_component_configs st') t = None).
    { eapply dict_get_None_same_keys; [|exact Hg].
      symmetry. apply (ev_keys E). }
    now rewrite Hg'.
Qed.

Lemma well_wired_evolves st st' call :
  evolves classes st st' ->
  well_wired classes st' call -> well_wired classes st call.
Proof.
  intros E [Hk Hv]. unfold well_wired, dependencies_of in *.
  rewrite (ev_dependency_cache E) in Hk, Hv. split; [assumption|].
  intros name d i Hin Hget. rewrite <- (resolved_type_evolves d E). eauto.
Qed.

(** Storing and counting a freshly constructed object restores the
    consistency that the allocation suspended. *)
Lemma record_creation_consistent st0 (t : TypeId) config kwargs i w
  start_time :
  consistent classes st0 ->
  construct classes t kwargs (world st0) = (Return i, w) ->
  In t (dict_keys (_component_configs st0)) ->
  consistent classes
    (record_creation t config i start_time (with_world st0 w)).
Proof.
  intros C Hc Hin.
  destruct (OptimizedProperties.construct_fresh _ _ _ _ Hc)
    as [Hid [Hcl Hlen]].
  unfold record_creation.
  set (st2 := if Scope_eqb (scope config) SINGLETON then _ else _).
  assert (H2 : _dependency_cache st2 = _dependency_cache st0
               /\ lru_cache st2 = lru_cache st0
               /\ _metrics st2 = _metrics st0
               /\ world st2 = w
               /\ dict_keys (_component_configs st2)
                  = dict_keys (_component_configs st0)
               /\ forall u c j,
                    dict_get (_component_configs st2) u = Some c ->
                    instance c = Some j ->
                    inst_class j = u
                    /\ inst_id j < List.length (heap w)).
  { subst st2. destruct (Scope_eqb (scope config) SINGLETON); simpl.
    - repeat split; auto.
      + now apply dict_keys_set_present.
      + destruct (String.eqb t u) eqn:E.
        * apply String.eqb_eq in E. subst u.
          rewrite dict_get_set_eq in H. inversion H; subst c.
          simpl in H0. inversion H0; subst j. assumption.
        * apply String.eqb_neq in E.
          rewrite dict_get_set_neq in H by assumption.
          apply (co_instances C _ H H0).
      + destruct (String.eqb t u) eqn:E.
        * apply String.eqb_eq in E. subst u.
          rewrite dict_get_set_eq in H. inversion H; subst c.
          simpl in H0. inversion H0; subst j. lia.
        * apply String.eqb_neq in E.
          rewrite dict_get_set_neq in H by assumption.
          destruct (co_instances C _ H H0). lia.
    - repeat split; auto.
      + apply (co_instances C _ H H0).
      + destruct (co_instances C _ H H0). lia. }
  destruct H2 as [Hcache [Hlru [Hmet [Hw [Hkeys Hinst]]]]].
  unfold perf_counter. cbv beta iota zeta. constructor; simpl.
  - intros u c j H Hj. rewrite Hw. simpl. eapply Hinst; eauto.
  - rewrite Hcache. apply (co_cache C).
  - rewrite Hcache, Hlru. apply (co_memo C).
  - rewrite Hcache, Hkeys. apply (co_cache_registered C).
  - rewrite Hw. simpl. rewrite Hmet.
    pose proof (co_metrics C) as Hm.
    set (m := _metrics st0) in *.
    set (m1 := dict_set m t _).
    pose proof (total_creations_set m t
                  {| creation_count := creation_count (metric_of m t) + 1;
                     total_time := total_time (metric_of m t) |}) as E1.
    fold m1 in E1. simpl in E1.
    match goal with
    | |- total_creations (dict_set m1 t ?v) = _ =>
        pose proof (total_creations_set m1 t v) as E2
    end.
    simpl in E2. lia.
Qed.

Section Step.
Variable rec :
  TypeId -> option (list TypeId) -> Context -> Outcome Instance * Context.
Hypothesis rec_evolves :
  forall t p st r st', rec t p st = (r, st') -> evolves classes st st'.
Hypothesis rec_sound :
  forall t p st r st',
    consistent classes st -> rec t p st = (r, st') ->
    sound_outcome classes st t r st'.

(** The loop over the dependencies: the keyword arguments it returns are
    the parameters it went through, after the ones it was given, each
    bound to an object of the resolved component. *)
Lemma resolve_dependencies_wired deps (path : list TypeId) acc st r st' :
  consistent classes st ->
  NoDup (dict_keys acc ++ dict_keys deps) ->
  resolve_dependencies rec deps path acc st = (r, st') ->
  consistent classes st'
  /\ evolves classes st st'
  /\ (exists new,
         constructor_calls (world st') = constructor_calls (world st) ++ new
         /\ Forall (well_wired classes st) new)
  /\ (forall kw, r = Return kw ->
        dict_keys kw = dict_keys acc ++ dict_keys deps
        /\ forall name i,
             dict_get kw name = Some i ->
             dict_get acc name = Some i
             \/ exists d, In (name, d) deps
                          /\ resolved_type classes st d
                             = Some (inst_class i)).
Proof.
  revert acc st. induction deps as [|[name d] deps IH]; intros acc st C Hnd;
    simpl.
  - intros H. inversion H; subst. split; [assumption|].
    split; [apply OptimizedProperties.evolves_refl|]. split.
    + exists []. now rewrite app_nil_r.
    + intros kw Hkw. inversion Hkw; subst. rewrite app_nil_r. auto.
  - destruct (rec d (Some path) st) as [[i|e| |] st1] eqn:Hr; intros H;
      pose proof (rec_evolves Hr) as E1;
      destruct (rec_sound C Hr) as [C1 [[new1 [Hn1 Hw1]] Hret]];
      try (inversion H; subst;
           split; [assumption|]; split; [assumption|];
           split; [eauto | intros kw Hkw; discriminate]).
    assert (Hname : ~ In name (dict_keys acc)).
    { intros Hin. apply NoDup_remove_2 in Hnd. apply Hnd.
      apply in_or_app. now left. }
    assert (Hnd' : NoDup (dict_keys (dict_set acc name i) ++ dict_keys deps)).
    { rewrite dict_keys_set_absent by assumption.
      rewrite <- app_assoc. exact Hnd. }
    destruct (IH _ _ C1 Hnd' H) as [C' [E' [[new2 [Hn2 Hw2]] Hkw]]].
    split; [assumption|].
    split; [eapply OptimizedProperties.evolves_trans; eauto|]. split.
    + exists (new1 ++ new2). split.
      * rewrite Hn2, Hn1. now rewrite app_assoc.
      * apply Forall_app. split; [assumption|].
        eapply Forall_impl; [|exact Hw2].
        intros call. now apply well_wired_evolves.
    + intros kw ->. destruct (Hkw _ eq_refl) as [Hkeys Hvals].
      split.
      * rewrite Hkeys, dict_keys_set_absent by assumption.
        now rewrite <- app_assoc.
      * intros n j Hget. destruct (Hvals _ _ Hget) as [Ha | [d' [Hin Hd']]].
        -- destruct (String.eqb name n) eqn:En.
           ++ apply String.eqb_eq in En. subst n.
              rewrite dict_get_set_eq in Ha. inversion Ha; subst j.
              right. exists d. split; [now left|].
              apply (Hret _ eq_refl).
           ++ apply String.eqb_neq in En.
              rewrite dict_get_set_neq in Ha by assumption. now left.
        -- right. exists d'. split; [now right|].
           now rewrite <- (resolved_type_evolves d' E1).
Qed.

Lemma construct_calls (t : TypeId) kwargs w r w' :
  construct classes t kwargs w = (r, w') ->
  constructor_calls w' = constructor_calls w ++ [(t, kwargs)]
  /\ ((forall i, r <> Return i) ->
      List.length (heap w') = List.length (heap w)).
Proof.
  unfold construct.
  destruct (construct_error classes t kwargs);
    intros H; inversion H; subst; simpl; split; auto.
  intros Hr. exfalso. eapply Hr. reflexivity.
Qed.

Lemma dict_entry_unique (V : Type) (d : dict V) k v v' :
  NoDup (dict_keys d) -> In (k, v) d -> In (k, v') d -> v = v'.
Proof.
  intros Hnd H1 H2.
  revert H1 H2. induction d as [|[k0 v0] d IH]; simpl; [tauto|].
  inversion Hnd as [|? ? Hout Hnd']; subst.
  assert (Hk : forall w, In (k, w) d -> In k (dict_keys d)).
  { intros w Hw. change k with (fst (k, w)). now apply in_map. }
  intros [H1 | H1] [H2 | H2].
  - congruence.
  - inversion H1; subst. exfalso. eauto.
  - inversion H2; subst. exfalso. eauto.
  - auto.
Qed.


Lemma dependencies_of_NoDup st (t : TypeId) :
  consistent classes st -> NoDup (dict_keys (dependencies_of st t)).
Proof.
  intros C. unfold dependencies_of.
  destruct (dict_get (_dependency_cache st) t) as [d|] eqn:Hd.
  - rewrite (co_cache C _ Hd). apply signature_dependencies_NoDup.
  - constructor.
Qed.

(** [_create_instance_optimized] either fails and leaves a consistent
    container, or ends with the allocation of the object in a consistent
    container; its constructor call is well wired. *)
Lemma create_instance_wired (t : TypeId) (path : list TypeId) st r st1 :
  consistent classes st ->
  _create_instance_optimized classes rec t path st = (r, st1) ->
  (exists new,
      constructor_calls (world st1) = constructor_calls (world st) ++ new
      /\ Forall (well_wired classes st) new)
  /\ match r with
     | Return i =>
         exists st0 kwargs w,
           consistent classes st0 /\ evolves classes st st0
           /\ construct classes t kwargs (world st0) = (Return i, w)
           /\ st1 = with_world st0 w
     | _ => consistent classes st1
     end.
Proof.
  intros C. unfold _create_instance_optimized.
  pose proof (dependencies_of_NoDup t C) as Hnd.
  unfold dependencies_of in Hnd.
  fold (dependencies_of st t) in Hnd |- *.
  destruct (dependencies_of st t) as [|dep deps] eqn:Hdeps.
  - destruct (construct classes t [] (world st)) as [r0 w] eqn:Hc.
    intros H. inversion H; subst. clear H.
    destruct (construct_calls _ _ _ Hc) as [Hcalls Hheap]. split.
    + exists [(t, [])]. split; [exact Hcalls|].
      constructor; [|constructor]. split; simpl.
      * now rewrite Hdeps.
      * intros name d i _ Hget. discriminate.
    + destruct r.
      * exists st, [], w. split; [assumption|].
        split; [apply OptimizedProperties.evolves_refl|].
        split; [assumption | reflexivity].
      * apply consistent_with_world; auto. apply Hheap. congruence.
      * apply consistent_with_world; auto. apply Hheap. congruence.
      * apply consistent_with_world; auto. apply Hheap. congruence.
  - destruct (resolve_dependencies rec (dep :: deps) path [] st)
      as [[kw|e| |] st0] eqn:Hr; intros H;
      pose proof Hr as Hr';
      (apply resolve_dependencies_wired in Hr'; [|assumption|exact Hnd]);
      destruct Hr' as [C0 [E0 [[new0 [Hn0 Hw0]] Hkw]]];
      try (inversion H; subst; split; [eauto | assumption]).
    destruct (construct classes t kw (world st0)) as [r0 w] eqn:Hc.
    inversion H; subst. clear H.
    destruct (construct_calls _ _ _ Hc) as [Hcalls Hheap].
    destruct (Hkw _ eq_refl) as [Hkeys Hvals]. split.
    + exists (new0 ++ [(t, kw)]). split.
      * simpl. rewrite Hcalls, Hn0. now rewrite app_assoc.
      * apply Forall_app. split; [assumption|].
        constructor; [|constructor]. split; simpl.
        -- now rewrite Hdeps.
        -- rewrite Hdeps. intros name d i Hin Hget.
           destruct (Hvals _ _ Hget) as [Ha | [d' [Hin' Hd']]];
             [discriminate|].
           now rewrite (@dict_entry_unique _ _ name d d' Hnd Hin Hin').
    + destruct r.
      * exists st0, kw, w. split; [assumption|].
        split; [assumption|]. split; [assumption | reflexivity].
      * apply consistent_with_world; auto. apply Hheap. congruence.
      * apply consistent_with_world; auto. apply Hheap. congruence.
      * apply consistent_with_world; auto. apply Hheap. congruence.
Qed.

Lemma get_bean_configured_wired (t : TypeId) config (path : list TypeId)
  start_time st r st' :
  consistent classes st ->
  dict_get (_component_configs st) t = Some config ->
  get_bean_configured classes rec t config path start_time st = (r, st') ->
  consistent classes st'
  /\ (exists new,
         constructor_calls (world st') = constructor_calls (world st) ++ new
         /\ Forall (well_wired classes st) new)
  /\ (forall i, r = Return i ->
        inst_class i = t /\ inst_id i < List.length (heap (world st'))).
Proof.
  intros C Hcfg. unfold get_bean_configured.
  destruct (published classes config) as [i|] eqn:Hp.
  - intros H. inversion H; subst. split; [assumption|]. split.
    + exists []. now rewrite app_nil_r.
    + intros j Hj. inversion Hj; subst j.
      apply (co_instances C _ Hcfg). now apply published_instance.
  - destruct (_create_instance_optimized classes rec t (path ++ [t]) st)
      as [r0 st1] eqn:Hc.
    destruct (create_instance_wired _ _ C Hc) as [Hnew Hr0].
    destruct r0 as [i|e| |]; intros H; inversion H; subst; clear H;
      try (split; [assumption|]; split; [assumption|];
           intros j Hj; discriminate).
    destruct Hr0 as [st0 [kw [w [C0 [E0 [Hcons ->]]]]]].
    destruct (OptimizedProperties.construct_fresh _ _ _ _ Hcons)
      as [Hid [Hcl Hlen]].
    destruct (OptimizedProperties.record_creation_world
                t config i start_time (with_world st0 w)) as [Hh Hcalls].
    split; [|split].
    + eapply record_creation_consistent; eauto.
      rewrite (ev_keys E0). eapply dict_get_Some_In_keys; eauto.
    + destruct Hnew as [new [Hn Hw]]. exists new. split; [|assumption].
      rewrite Hcalls. exact Hn.
    + intros j Hj. inversion Hj; subst j. split; [assumption|].
      rewrite Hh. simpl. lia.
Qed.

Lemma get_bean_body_wired (t : TypeId) path st r st' :
  consistent classes st ->
  get_bean_body classes rec t path st = (r, st') ->
  sound_outcome classes st t r st'.
Proof.
  intros C. rewrite OptimizedProperties.get_bean_body_eq. cbv zeta.
  assert (Ct : consistent classes (ticked st)).
  { apply consistent_with_world; auto. }
  assert (Et : evolves classes st (ticked st))
    by apply OptimizedProperties.tick_evolves.
  assert (Hfail : forall e,
             sound_outcome classes st t (Raise e) (ticked st)).
  { intros e. split; [assumption|]. split.
    - exists []. now rewrite app_nil_r.
    - intros i Hi. discriminate. }
  assert (Hconf : forall b config,
             dict_get (_component_configs st) b = Some config ->
             resolved_type classes st t = Some b ->
             get_bean_configured classes rec b config
               match path with Some p => p | None => [] end
               (clock (world st)) (ticked st) = (r, st') ->
             sound_outcome classes st t r st').
  { intros b config Hcfg Hres H.
    pose proof H as H'.
    apply get_bean_configured_wired in H'; [|exact Ct|exact Hcfg].
    destruct H' as [C' [[new [Hn Hw]] Hret]].
    split; [assumption|]. split.
    - exists new. split; [exact Hn|].
      eapply Forall_impl; [|exact Hw].
      intros call. now apply well_wired_evolves.
    - intros i Hi. destruct (Hret _ Hi) as [Hcl Hid].
      split; [|assumption]. now rewrite Hcl. }
  destruct (contains _ t).
  { intros H. inversion H; subst. apply Hfail. }
  destruct (dict_get (_component_configs st) t) as [config|] eqn:Hg.
  { apply Hconf with (b := t); auto. unfold resolved_type. now rewrite Hg. }
  destruct (_find_implementations classes st t) as [|impl impls] eqn:Hf.
  { intros H. inversion H; subst. apply Hfail. }
  destruct (dict_get (_component_configs st) impl) as [config|] eqn:Hg'.
  { apply Hconf with (b := impl); auto.
    unfold resolved_type. now rewrite Hg, Hf. }
  intros H. inversion H; subst. apply Hfail.
Qed.
End Step.

(** Whatever [get_bean] does from a consistent container, it leaves a
    consistent container, its constructor calls are well wired, and what
    it returns is an object of the component that the type resolves to. *)
Lemma get_bean_wired fuel (t : TypeId) path st r st' :
  consistent classes st ->
  get_bean classes fuel t path st = (r, st') ->
  sound_outcome classes st t r st'.
Proof.
  revert t path st r st'.
  induction fuel as [|fuel IH]; intros t path st r st' C; simpl.
  - intros H. inversion H; subst. split; [assumption|]. split.
    + exists []. now rewrite app_nil_r.
    + intros i Hi. discriminate.
  - apply get_bean_body_wired; auto.
    intros. eapply OptimizedProperties.get_bean_evolves; eauto.
Qed.

Lemma dict_get_firstn (V : Type) n (l : dict V) k v :
  dict_get (firstn n l) k = Some v -> dict_get l k = Some v.
Proof.
  revert l. induction n as [|n IH]; intros [|[k' v'] l]; simpl;
    try discriminate.
  destruct (String.eqb k' k); auto.
Qed.

Lemma dict_get_filter_other (V : Type) (l : dict V) (t k : string) v :
  dict_get (filter (fun e => negb (String.eqb (fst e) t)) l) k = Some v ->
  dict_get l k = Some v.
Proof.
  induction l as [|[k' v'] l IH]; simpl; auto.
  destruct (String.eqb k' t) eqn:Et; simpl.
  - intros H. destruct (String.eqb k' k) eqn:Ek; auto.
    apply String.eqb_eq in Et, Ek. subst.
    exfalso. clear IH. induction l as [|[k2 v2] l IHl]; simpl in H;
      [discriminate|].
    destruct (String.eqb k2 k) eqn:E2; simpl in H; auto.
    rewrite E2 in H. auto.
  - destruct (String.eqb k' k); auto.
Qed.

Ltac proj_simpl :=
  cbn [_component_configs _dependency_cache _creation_order_cache lru_cache
       _metrics world with_lru_cache with_dependency_cache with_configs
       with_world with_metrics fst snd].

Lemma register_component_consistent (t : TypeId) scope primary st :
  consistent classes st ->
  consistent classes (register_component classes t scope primary st)
  /\ dict_get
       (_dependency_cache (register_component classes t scope primary st)) t
     = Some (signature_dependencies classes t).
Proof.
  intros C. unfold register_component.
  set (cfg := {| scope := scope; primary := primary; instance := None |}).
  set (st1 := with_configs st (dict_set (_component_configs st) t cfg)).
  assert (C1 : consistent classes st1).
  { constructor; simpl.
    - intros u c i H Hi. destruct (String.eqb t u) eqn:E.
      + apply String.eqb_eq in E. subst u.
        rewrite dict_get_set_eq in H. inversion H; subst c. discriminate.
      + apply String.eqb_neq in E.
        rewrite dict_get_set_neq in H by assumption.
        apply (co_instances C _ H Hi).
    - apply (co_cache C).
    - apply (co_memo C).
    - intros u Hu. apply (co_cache_registered C) in Hu.
      apply dict_get_In_keys. apply dict_get_In_keys in Hu.
      destruct (String.eqb t u) eqn:E.
      + apply String.eqb_eq in E. subst u. rewrite dict_get_set_eq.
        discriminate.
      + apply String.eqb_neq in E. now rewrite dict_get_set_neq.
    - apply (co_metrics C). }
  assert (Hreg : In t (dict_keys (_component_configs st1))).
  { apply dict_get_In_keys. simpl. rewrite dict_get_set_eq. discriminate. }
  clearbody st1. clear C.
  unfold _analyze_dependencies, analyze_dependencies_body.
  destruct (dict_get (lru_cache st1) t) as [d|] eqn:Hl.
  - proj_simpl. split.
    + constructor; proj_simpl.
      * apply (co_instances C1).
      * apply (co_cache C1).
      * intros u d'. cbn [dict_get]. destruct (String.eqb t u) eqn:E.
        -- apply String.eqb_eq in E. subst u. intros H. inversion H; subst.
           apply (co_memo C1 _ Hl).
        -- intros H. apply dict_get_filter_other in H.
           apply (co_memo C1 _ H).
      * apply (co_cache_registered C1).
      * apply (co_metrics C1).
    + pose proof (co_memo C1 _ Hl) as Hc. rewrite Hc.
      now rewrite (co_cache C1 _ Hc).
  - destruct (dict_get (_dependency_cache st1) t) as [d|] eqn:Hd; proj_simpl.
    + split.
      * constructor; proj_simpl.
        -- apply (co_instances C1).
        -- apply (co_cache C1).
        -- intros u d' H. apply dict_get_firstn in H. cbn [dict_get] in H.
           destruct (String.eqb t u) eqn:E.
           ++ apply String.eqb_eq in E. subst u. congruence.
           ++ apply (co_memo C1 _ H).
        -- apply (co_cache_registered C1).
        -- apply (co_metrics C1).
      * rewrite Hd. now rewrite (co_cache C1 _ Hd).
    + split.
      * constructor; proj_simpl.
        -- apply (co_instances C1).
        -- intros u d' H. destruct (String.eqb t u) eqn:E.
           ++ apply String.eqb_eq in E. subst u.
              rewrite dict_get_set_eq in H. congruence.
           ++ apply String.eqb_neq in E.
              rewrite dict_get_set_neq in H by assumption.
              apply (co_cache C1 _ H).
        -- intros u d' H. apply dict_get_firstn in H. cbn [dict_get] in H.
           destruct (String.eqb t u) eqn:E.
           ++ apply String.eqb_eq in E. subst u.
              rewrite dict_get_set_eq. congruence.
           ++ pose proof E as E'. apply String.eqb_neq in E'.
              rewrite dict_get_set_neq by assumption.
              apply (co_memo C1 _ H).
        -- intros u Hu. apply dict_get_In_keys in Hu.
           destruct (String.eqb t u) eqn:E.
           ++ apply String.eqb_eq in E. now subst u.
           ++ apply String.eqb_neq in E.
              rewrite dict_get_set_neq in Hu by assumption.
              apply (co_cache_registered C1). now apply dict_get_In_keys.
        -- apply (co_metrics C1).
      * apply dict_get_set_eq.
Qed.

Lemma run_call_consistent st c :
  consistent classes st -> consistent classes (run_call classes st c).
Proof.
  intros C. destruct c; simpl; auto.
  - now apply register_component_consistent.
  - destruct (get_bean classes fuel bean_type _creation_path st)
      as [r st'] eqn:Hg.
    apply get_bean_wired in Hg; auto. apply Hg.
  - constructor; simpl; try discriminate.
    + apply (co_instances C).
    + intros t Ht. contradiction.
    + apply (co_metrics C).
  - now rewrite OptimizedProperties.validate_configuration_state.
  - apply consistent_with_world; auto. simpl. apply setattr_length.
Qed.

Lemma empty_context_consistent : consistent classes empty_context.
Proof.
  constructor; simpl; try discriminate; auto.
Qed.

(** The container is consistent after any client program that starts with
    the empty container. *)
Lemma run_consistent calls st :
  consistent classes st -> consistent classes (run classes calls st).
Proof.
  revert st. induction calls as [|c calls IH]; intros st C; simpl; auto.
  apply IH. now apply run_call_consistent.
Qed.


(** X3.  The caches stay true to the classes.  After any sequence of
    calls of the public methods on a fresh container, every entry of
    [_dependency_cache] is the dependency map that the signature of the
    class gives, every entry that [lru_cache] memoised for
    [_analyze_dependencies] is in [_dependency_cache] as well, and only
    registered components have an entry. *)
Theorem caches_agree_with_signatures (calls : list Call) :
  let st := run classes calls empty_context in
  (forall t d,
      dict_get (_dependency_cache st) t = Some d ->
      d = signature_dependencies classes t)
  /\ (forall t d,
         dict_get (lru_cache st) t = Some d ->
         dict_get (_dependency_cache st) t = Some d)
  /\ (forall t,
         In t (dict_keys (_dependency_cache st)) ->
         In t (dict_keys (_component_configs st))).
Proof.
  intros st.
  pose proof (run_consistent calls empty_context_consistent) as C.
  fold st in C.
  split; [|split].
  - intros t d H. apply (co_cache C _ H).
  - intros t d H. apply (co_memo C _ H).
  - apply (co_cache_registered C).
Qed.

(** X4.  Registration always leaves the dependency map of the component
    in [_dependency_cache], whatever the client did before: a memoised
    answer of [_analyze_dependencies] skips the body, but then the entry is
    in the cache already.  So registering a component again after
    [clear_cache] restores what the resolver reads. *)
Theorem registration_caches_dependency_map (calls : list Call)
  (component_type : TypeId) (scope : Scope) (primary : bool) :
  dict_get
    (_dependency_cache
       (register_component classes component_type scope primary
          (run classes calls empty_context)))
    component_type
  = Some (signature_dependencies classes component_type).
Proof.
  apply register_component_consistent.
  apply run_consistent. apply empty_context_consistent.
Qed.

(** X5.  The metrics count every construction once.  After any sequence
    of calls on a fresh container, the [creation_count]s that
    [get_metrics] returns add up to the number of objects that the
    container has constructed: constructions that raised are not counted,
    returns of a stored singleton are not counted, and a dependency
    constructed on the way is counted even if the resolution that asked for
    it fails later. *)
Theorem metrics_count_every_construction (calls : list Call) :
  total_creations (get_metrics (run classes calls empty_context))
  = List.length (heap (world (run classes calls empty_context))).
Proof.
  pose proof (run_consistent calls empty_context_consistent) as C.
  apply (co_metrics C).
Qed.

(** X6.  [get_bean] wires what the registry says.  From any state that a
    client can reach, every constructor call that a resolution makes, at
    any depth, passes exactly the parameters of the cached dependency map,
    in order, each bound to an object of the component that its annotation
    resolves to; and the object returned is of the component that the
    requested type resolves to. *)
Theorem get_bean_wires_constructor_calls (calls : list Call) (fuel : nat)
  (bean_type : TypeId) (path : option (list TypeId)) :
  let st := run classes calls empty_context in
  let r := fst (get_bean classes fuel bean_type path st) in
  let st' := snd (get_bean classes fuel bean_type path st) in
  (exists new,
      constructor_calls (world st') = constructor_calls (world st) ++ new
      /\ Forall (well_wired classes st) new)
  /\ (forall i, r = Return i ->
        resolved_type classes st bean_type = Some (inst_class i)
        /\ inst_id i < List.length (heap (world st'))).
Proof.
  intros st r st'.
  assert (C : consistent classes st)
    by (apply run_consistent; apply empty_context_consistent).
  destruct (get_bean classes fuel bean_type path st) as [r0 st0] eqn:Hg.
  apply get_bean_wired in Hg; [|assumption].
  destruct Hg as (_ & Hcalls & Hret). subst r st'. simpl.
  split; assumption.
Qed.

(** X7.  What a resolution leaves alone.  Whatever [get_bean] returns or
    raises, at whatever budget, the registry keeps its keys in their
    order, every component keeps its scope and its primary flag, the entry
    of a prototype and the entry of a published singleton are untouched,
    the three caches are untouched, and the heap and the record of
    constructor calls are only extended. *)
Theorem get_bean_changes_only_instances (fuel : nat) (bean_type : TypeId)
  (path : option (list TypeId)) (st : Context) :
  evolves classes st (snd (get_bean classes fuel bean_type path st)).
Proof.
  destruct (get_bean classes fuel bean_type path st) as [r st'] eqn:Hg.
  simpl. eapply OptimizedProperties.get_bean_evolves. eassumption.
Qed.

Lemma register_component_entry (t : TypeId) scope primary st :
  dict_get (_component_configs (register_component classes t scope primary st))
    t
  = Some {| scope := scope; primary := primary; instance := None |}
  /\ world (register_component classes t scope primary st) = world st.
Proof.
  unfold register_component.
  destruct (analyze_dependencies_keeps classes t
              (with_configs st
                 (dict_set (_component_configs st) t
                    {| scope := scope; primary := primary;
                       instance := None |}))) as (Hc & _ & _ & Hw).
  rewrite Hc, Hw. simpl. split; [apply dict_get_set_eq | reflexivity].
Qed.

(** X8.  Registering a component again drops its singleton.  Let a client
    obtain [o1] for [t], go on with any calls, register [t] again, and ask
    for [t] once more: the object it gets is a new one, constructed after
    [o1], and an instance of [t] itself. *)
Theorem reregistration_replaces_singleton (calls between : list Call)
  (fuel1 fuel2 : nat) (t : TypeId) (path1 path2 : option (list TypeId))
  (scope : Scope) (primary : bool) (o1 o2 : Instance) (st1 st2 : Context) :
  get_bean classes fuel1 t path1 (run classes calls empty_context)
  = (Return o1, st1) ->
  get_bean classes fuel2 t path2
    (register_component classes t scope primary (run classes between st1))
  = (Return o2, st2) ->
  inst_id o1 < inst_id o2 /\ inst_class o2 = t /\ o1 <> o2.
Proof.
  intros H1 H2.
  assert (C : consistent classes (run classes calls empty_context))
    by (apply run_consistent; apply empty_context_consistent).
  apply get_bean_wired in H1; [|assumption].
  destruct H1 as (_ & _ & Hret).
  destruct (Hret o1 eq_refl) as [_ Hlt].
  pose proof (OptimizedProperties.run_heap classes between st1) as Hh.
  destruct (register_component_entry t scope primary
              (run classes between st1)) as [Hc Hw].
  eapply OptimizedProperties.get_bean_unpublished_fresh in H2;
    [|exact Hc|now destruct scope].
  destruct H2 as (Hge & _ & Hcls & _).
  rewrite Hw in Hge.
  assert (Hid : inst_id o1 < inst_id o2) by lia.
  split; [assumption|]. split; [assumption|].
  intros E. subst o2. lia.
Qed.
End Consistency.

End OptimizedExtras.

(** * Termination of the resolver *)

Module OptimizedTermination.
Import OptimizedApplicationContext OptimizedExtensions.

Lemma closedb_closed st : closedb st = true -> closed st.
Proof.
  unfold closedb, closed, dependencies_of. intros H t name d Hin.
  destruct (dict_get (_dependency_cache st) t) as [deps|] eqn:Hd;
    [|contradiction].
  apply OptimizedExtras.dict_get_In in Hd.
  rewrite forallb_forall in H. specialize (H _ Hd). simpl in H.
  rewrite forallb_forall in H. specialize (H _ Hin). simpl in H.
  unfold dict_mem in H.
  destruct (dict_get (_component_configs st) d); congruence.
Qed.

Lemma unvisited_snoc st path (t : TypeId) :
  In t (dict_keys (_component_configs st)) ->
  contains path t = false ->
  List.length (unvisited st (path ++ [t])) < List.length (unvisited st path).
Proof.
  intros Hin Hc. unfold unvisited.
  apply OptimizedProperties.filter_length_lt with (c := t); auto.
  - intros x Hx. unfold contains in *. rewrite existsb_app in Hx.
    apply negb_true_iff in Hx. apply orb_false_iff in Hx.
    apply negb_true_iff. tauto.
  - now rewrite Hc.
  - unfold contains. rewrite existsb_app. simpl.
    rewrite String.eqb_refl. now rewrite orb_true_r.
Qed.

Lemma unvisited_length st path :
  List.length (unvisited st path) <= List.length (_component_configs st).
Proof.
  unfold unvisited, dict_keys.
  rewrite <- (length_map fst (_component_configs st)).
  generalize (map fst (_component_configs st)) as l.
  induction l as [|x l IH]; simpl; [lia|].
  destruct (negb (contains path x)); simpl; lia.
Qed.

Section Closed.
Variable classes : TypeId -> ClassDef.

Lemma closed_evolves st st' :
  evolves classes st st' -> closed st -> closed st'.
Proof.
  unfold closed, dependencies_of. intros E H t name d Hin.
  rewrite (ev_dependency_cache E) in Hin.
  specialize (H _ _ _ Hin).
  rewrite dict_get_In_keys in *. now rewrite (ev_keys E).
Qed.

Lemma registered_evolves st st' (t : TypeId) :
  evolves classes st st' ->
  dict_get (_component_configs st) t <> None ->
  dict_get (_component_configs st') t <> None.
Proof.
  intros E H. rewrite dict_get_In_keys in *. now rewrite (ev_keys E).
Qed.

Lemma unvisited_evolves st st' path :
  evolves classes st st' -> unvisited st' path = unvisited st path.
Proof. intros E. unfold unvisited. now rewrite (ev_keys E). Qed.

Lemma construct_finishes (t : TypeId) kwargs w :
  finishes (fst (construct classes t kwargs w)).
Proof.
  unfold construct.
  destruct (construct_error classes t kwargs); exact I.
Qed.

Section Step.
Variable rec :
  TypeId -> option (list TypeId) -> Context -> Outcome Instance * Context.
Variable n : nat.
Hypothesis rec_evolves :
  forall t p st r st', rec t p st = (r, st') -> evolves classes st st'.
Hypothesis rec_finishes :
  forall (t : TypeId) (path : list TypeId) st,
    closed st ->
    dict_get (_component_configs st) t <> None ->
    List.length (unvisited st path) < n ->
    finishes (fst (rec t (Some path) st)).

Lemma resolve_dependencies_finishes deps (path : list TypeId) acc st :
  closed st ->
  (forall name d, In (name, d) deps ->
                  dict_get (_component_configs st) d <> None) ->
  List.length (unvisited st path) < n ->
  finishes (fst (resolve_dependencies rec deps path acc st)).
Proof.
  revert acc st.
  induction deps as [|[name d] rest IH]; intros acc st Hc Hreg Hlt; simpl.
  - exact I.
  - assert (Hd : dict_get (_component_configs st) d <> None)
      by (apply (Hreg name); now left).
    pose proof (rec_finishes d path Hc Hd Hlt) as Hf.
    destruct (rec d (Some path) st) as [[i|e| |] st1] eqn:Hr;
      simpl in Hf; try exact I; try contradiction.
    apply rec_evolves in Hr.
    apply IH.
    + eapply closed_evolves; eauto.
    + intros name' d' Hin. eapply registered_evolves; eauto.
      apply (Hreg name'). now right.
    + now rewrite (unvisited_evolves path Hr).
Qed.

Lemma create_instance_finishes (t : TypeId) (path : list TypeId) st :
  closed st ->
  List.length (unvisited st path) < n ->
  finishes (fst (_create_instance_optimized classes rec t path st)).
Proof.
  intros Hc Hlt. unfold _create_instance_optimized.
  pose proof (Hc t) as Hdeps. unfold dependencies_of in Hdeps.
  destruct (dict_get (_dependency_cache st) t) as [[|p deps]|] eqn:Hd.
  - pose proof (construct_finishes t [] (world st)) as Hf.
    destruct (construct classes t [] (world st)). exact Hf.
  - pose proof (@resolve_dependencies_finishes (p :: deps) path [] st Hc
                  Hdeps Hlt) as Hf.
    destruct (resolve_dependencies rec (p :: deps) path [] st)
      as [[kw|e| |] st1]; simpl in Hf; try exact I; try contradiction.
    pose proof (construct_finishes t kw (world st1)) as Hf'.
    destruct (construct classes t kw (world st1)). exact Hf'.
  - pose proof (construct_finishes t [] (world st)) as Hf.
    destruct (construct classes t [] (world st)). exact Hf.
Qed.

Lemma get_bean_configured_finishes (t : TypeId) config (path : list TypeId)
  start_time st :
  closed st ->
  List.length (unvisited st (path ++ [t])) < n ->
  finishes
    (fst (get_bean_configured classes rec t config path start_time st)).
Proof.
  intros Hc Hlt. unfold get_bean_configured.
  destruct (published classes config); [exact I|].
  pose proof (create_instance_finishes t (path ++ [t]) Hc Hlt) as Hf.
  destruct (_create_instance_optimized classes rec t (path ++ [t]) st)
    as [[i|e| |] st1]; simpl in Hf; try exact I; contradiction.
Qed.
End Step.

(** A request for a registered type at a path that leaves fewer
    components unvisited than the budget allows finishes. *)
Lemma get_bean_finishes fuel :
  forall (t : TypeId) (path : list TypeId) st,
    closed st ->
    dict_get (_component_configs st) t <> None ->
    List.length (unvisited st path) < fuel ->
    finishes (fst (get_bean classes fuel t (Some path) st)).
Proof.
  induction fuel as [|fuel IH]; intros t path st Hc Hreg Hlt; [lia|].
  rewrite OptimizedProperties.get_bean_unfold,
    OptimizedProperties.get_bean_body_eq.
  cbv zeta.
  destruct (contains path t) eqn:Hp; [exact I|].
  destruct (dict_get (_component_configs st) t) as [config|] eqn:Hcfg;
    [|congruence].
  apply get_bean_configured_finishes with (n := fuel); auto.
  - intros t0 p s r s'. apply OptimizedProperties.get_bean_evolves.
  - apply dict_get_Some_In_keys in Hcfg.
    pose proof (unvisited_snoc st path t Hcfg Hp) as Hs.
    change (unvisited (ticked st) (path ++ [t]))
      with (unvisited st (path ++ [t])).
    lia.
Qed.

(** X9.  In a closed registry every resolution finishes.  When every
    cached dependency is itself a registered component, [get_component]
    (that is [get_bean] without a path) returns or raises for every type,
    registered or not, within a recursion depth of one more than the
    number of registered components: each nested call adds one more
    component to the creation path, and a repeated one is rejected. *)
Theorem get_component_finishes_on_closed_registry (fuel : nat)
  (component_type : TypeId) (st : Context) :
  closed st ->
  List.length (_component_configs st) < fuel ->
  finishes (fst (get_component classes fuel component_type st)).
Proof.
  intros Hc Hlt. unfold get_component.
  destruct fuel as [|fuel]; [lia|].
  rewrite OptimizedProperties.get_bean_unfold,
    OptimizedProperties.get_bean_body_eq.
  cbv zeta. cbn [contains existsb].
  assert (Hstep : forall (t : TypeId) config,
             dict_get (_component_configs st) t = Some config ->
             finishes
               (fst (get_bean_configured classes (get_bean classes fuel) t
                       config [] (clock (world st)) (ticked st)))).
  { intros t config Hcfg.
    apply get_bean_configured_finishes with (n := fuel); auto.
    - intros t0 p s r s'. apply OptimizedProperties.get_bean_evolves.
    - intros t0 path s. apply get_bean_finishes.
    - assert (Hreg : In t (dict_keys (_component_configs st)))
        by (apply dict_get_In_keys; congruence).
      pose proof (@unvisited_snoc st [] t Hreg eq_refl) as Hs.
      pose proof (unvisited_length st []) as Hl.
      change (unvisited (ticked st) ([] ++ [t]))
        with (unvisited st ([] ++ [t])).
      lia. }
  destruct (dict_get (_component_configs st) component_type)
    as [config|] eqn:Hcfg.
  - now apply Hstep.
  - destruct (_find_implementations classes st component_type)
      as [|impl rest] eqn:Hf; [exact I|].
    destruct (dict_get (_component_configs st) impl) as [config|] eqn:Hi;
      [|exact I].
    now apply Hstep.
Qed.
End Closed.

End OptimizedTermination.

(** * What the validator reports *)

Module OptimizedValidation.
Import OptimizedApplicationContext OptimizedExtensions.

Lemma walk_tail st (u : TypeId) l : walk st (u :: l) -> walk st l.
Proof. destruct l; simpl; tauto. Qed.

Lemma walk_app_r st (l1 l2 : list TypeId) :
  walk st (l1 ++ l2) -> walk st l2.
Proof.
  induction l1 as [|a l1 IH]; simpl app; auto.
  intros H. apply IH. now apply walk_tail in H.
Qed.

Lemma walk_snoc st (l : list TypeId) (u v : TypeId) :
  walk st (l ++ [u]) -> edge st u v -> walk st ((l ++ [u]) ++ [v]).
Proof.
  intros H E. induction l as [|a l IH].
  - simpl. tauto.
  - destruct l as [|b l].
    + simpl in *. tauto.
    + change (edge st a b /\ walk st ((b :: l) ++ [u])) in H.
      change (edge st a b /\ walk st (((b :: l) ++ [u]) ++ [v])).
      split; [apply H|]. apply IH. apply H.
Qed.

(** Every element of a walk but the first is registered. *)
Lemma walk_targets st (u : TypeId) l :
  walk st (u :: l) ->
  Forall (fun x => In x (dict_keys (_component_configs st))) l.
Proof.
  revert u. induction l as [|v l IH]; intros u H; constructor.
  - destruct H as [[_ Hr] _]. now apply dict_get_In_keys.
  - apply (IH v). apply H.
Qed.

Lemma list_index_split (l : list TypeId) (x : TypeId) i :
  list_index l x = Some i ->
  exists pre post,
    l = pre ++ x :: post /\ skipn i l = x :: post /\ ~ In x pre.
Proof.
  revert i. induction l as [|y l IH]; intros i H; simpl in H;
    [discriminate|].
  destruct (String.eqb y x) eqn:E.
  - apply String.eqb_eq in E. subst y. injection H as <-.
    exists [], l. simpl. tauto.
  - destruct (list_index l x) as [j|] eqn:Hj; [|discriminate].
    injection H as <-. destruct (IH j eq_refl) as (pre & post & -> & Hs & Hn).
    exists (y :: pre), post. simpl. repeat split; auto.
    apply String.eqb_neq in E. intros [->|H]; tauto.
Qed.

Lemma detect_None fuel (c : TypeId) visited st :
  _detect_circular_dependencies fuel c visited None st
  = _detect_circular_dependencies fuel c visited (Some []) st.
Proof. destruct fuel; reflexivity. Qed.

Section Cycles.
Variable classes : TypeId -> ClassDef.

Lemma detect_cycle_sound fuel :
  forall (c : TypeId) visited (path : list TypeId) st cyc st',
    (forall x, In x visited <-> In x path) ->
    NoDup path ->
    walk st (path ++ [c]) ->
    _detect_circular_dependencies fuel c visited (Some path) st
    = (Raise (CircularDependencyError cyc), st') ->
    simple_cycle st cyc.
Proof.
  induction fuel as [|fuel IH]; intros c visited path st cyc st' Hv Hn Hw H;
    [discriminate|].
  rewrite OptimizedProperties.detect_unfold in H. unfold detect_body in H.
  destruct (contains visited c) eqn:Hc.
  - apply contains_In in Hc. apply Hv in Hc.
    destruct (list_index_In _ _ Hc) as [i Hi]. rewrite Hi in H.
    injection H as <- _.
    destruct (list_index_split _ _ Hi) as (pre & post & -> & -> & _).
    exists c, post. split; [reflexivity|]. split.
    + now apply NoDup_app_remove_l in Hn.
    + rewrite <- app_assoc in Hw. now apply walk_app_r in Hw.
  - apply contains_false in Hc.
    assert (Hv' : forall x, In x (set_add visited c) <-> In x (path ++ [c])).
    { intros x. rewrite set_add_In, in_app_iff, Hv. simpl. intuition. }
    assert (Hn' : NoDup (path ++ [c])).
    { apply NoDup_app; [assumption|repeat constructor; simpl; tauto|].
      intros x Hx [<-|[]]. apply Hc. now apply Hv. }
    fold (dependencies_of st c) in H.
    assert (Hd : forall pt, In pt (dict_values (dependencies_of st c)) ->
                            exists name, In (name, pt) (dependencies_of st c)).
    { intros pt Hp. unfold dict_values in Hp. apply in_map_iff in Hp.
      destruct Hp as ([name pt'] & <- & Hp). now exists name. }
    revert Hd H.
    generalize (dict_values (dependencies_of st c)) as pts.
    induction pts as [|pt pts IHp]; intros Hd H; simpl in H; [discriminate|].
    destruct (dict_mem (_component_configs st) pt) eqn:Hm.
    + destruct (_detect_circular_dependencies fuel pt (set_add visited c)
                  (Some (path ++ [c])) st) as [[u|e| |] st1] eqn:Hr;
        try discriminate.
      * pose proof (OptimizedProperties.detect_state fuel pt
                      (set_add visited c) (Some (path ++ [c])) st) as Hs.
        rewrite Hr in Hs. simpl in Hs. subst st1.
        apply IHp; auto. intros pt' Hp. apply Hd. now right.
      * injection H as -> _.
        eapply IH; [exact Hv'|exact Hn'| |exact Hr].
        apply walk_snoc; auto. split; [apply Hd; now left|].
        unfold dict_mem in Hm.
        destruct (dict_get (_component_configs st) pt); congruence.
    + apply IHp; auto. intros pt' Hp. apply Hd. now right.
Qed.

Lemma detect_each_returns rec pts visited (path : list TypeId) st u st' :
  (forall t v p s, snd (rec t v p s) = s) ->
  detect_each rec pts visited path st = (Return u, st') ->
  forall pt, In pt pts -> dict_mem (_component_configs st) pt = true ->
             exists u', rec pt visited (Some path) st = (Return u', st).
Proof.
  intros Hs. induction pts as [|p pts IH]; intros H pt Hin Hm; [contradiction|].
  simpl in H.
  destruct (dict_mem (_component_configs st) p) eqn:Hp.
  - pose proof (Hs p visited (Some path) st) as Hst.
    destruct (rec p visited (Some path) st) as [[u'|e| |] st1] eqn:Hr;
      try discriminate.
    simpl in Hst. subst st1.
    destruct Hin as [<-|Hin]; [now exists u'|]. now apply IH.
  - destruct Hin as [<-|Hin]; [congruence|]. now apply IH.
Qed.

(** A walk of the validator that returns has seen no way back: every walk
    of the dependency graph from the component visits new components
    only. *)
Lemma detect_return_no_cycle fuel :
  forall (c : TypeId) visited (path : list TypeId) st u st',
    (forall x, In x visited <-> In x path) ->
    NoDup path ->
    _detect_circular_dependencies fuel c visited (Some path) st
    = (Return u, st') ->
    forall w, walk st (c :: w) -> NoDup (path ++ c :: w).
Proof.
  induction fuel as [|fuel IH]; intros c visited path st u st' Hv Hn H w Hw;
    [discriminate|].
  rewrite OptimizedProperties.detect_unfold in H. unfold detect_body in H.
  destruct (contains visited c) eqn:Hc.
  - destruct (list_index path c); discriminate.
  - apply contains_false in Hc.
    assert (Hv' : forall x, In x (set_add visited c) <-> In x (path ++ [c])).
    { intros x. rewrite set_add_In, in_app_iff, Hv. simpl. intuition. }
    assert (Hn' : NoDup (path ++ [c])).
    { apply NoDup_app; [assumption|repeat constructor; simpl; tauto|].
      intros x Hx [<-|[]]. apply Hc. now apply Hv. }
    fold (dependencies_of st c) in H.
    destruct w as [|w1 w]; [exact Hn'|].
    destruct Hw as [[[name Hin] Hreg] Hw].
    assert (Hm : dict_mem (_component_configs st) w1 = true).
    { unfold dict_mem.
      destruct (dict_get (_component_configs st) w1); congruence. }
    assert (Hin' : In w1 (dict_values (dependencies_of st c))).
    { unfold dict_values. apply in_map_iff. now exists (name, w1). }
    destruct (detect_each_returns _ _ _ _ _
                (OptimizedProperties.detect_state fuel) H w1 Hin' Hm)
      as [u' Hr].
    pose proof (IH _ _ _ _ _ _ Hv' Hn' Hr w Hw) as Hnd.
    now rewrite <- app_assoc in Hnd.
Qed.

Lemma check_cycles_issues fuel cts :
  forall issues st out st' issue,
    check_cycles fuel cts issues st = (Return out, st') ->
    In issue out ->
    In issue issues
    \/ exists c cyc,
         In c cts /\ issue = CircularIssue cyc
         /\ fst (_detect_circular_dependencies fuel c [] None st)
            = Raise (CircularDependencyError cyc).
Proof.
  induction cts as [|c cts IH]; intros issues st out st' issue H Hin;
    simpl in H.
  - injection H as <- _. now left.
  - pose proof (OptimizedProperties.detect_state fuel c [] None st) as Hs.
    destruct (_detect_circular_dependencies fuel c [] None st)
      as [[u|e| |] st1] eqn:Hr; try discriminate; simpl in Hs; subst st1.
    + destruct (IH _ _ _ _ _ H Hin) as [Hi|(c' & cyc & Hc & He & Hd)];
        [now left|].
      right. exists c', cyc. simpl. tauto.
    + destruct e; try discriminate.
      destruct (IH _ _ _ _ _ H Hin) as [Hi|(c' & cyc & Hc & He & Hd)].
      * apply in_app_iff in Hi. destruct Hi as [Hi|[<-|[]]]; [now left|].
        right. exists c, cycle_path. rewrite Hr. simpl. auto.
      * right. exists c', cyc. simpl. tauto.
Qed.

Lemma check_unresolved_issues st issue :
  In issue (check_unresolved classes st) <->
  exists c deps name d,
    issue = UnresolvedIssue c d
    /\ In (c, deps) (_dependency_cache st) /\ In (name, d) deps
    /\ missing classes st d.
Proof.
  unfold check_unresolved, unresolved_of, missing. split.
  - intros H. apply in_flat_map in H. destruct H as ([c deps] & Hc & H).
    apply in_flat_map in H. destruct H as ([name d] & Hd & H).
    simpl in H. unfold dict_mem in H.
    destruct (dict_get (_component_configs st) d) eqn:Hg; [contradiction|].
    destruct (_find_implementations classes st d) eqn:Hf; [|contradiction].
    destruct H as [<-|[]]. exists c, deps, name, d. tauto.
  - intros (c & deps & name & d & -> & Hc & Hd & Hg & Hf).
    apply in_flat_map. exists (c, deps). split; [assumption|].
    apply in_flat_map. exists (name, d). split; [assumption|].
    simpl. unfold dict_mem. rewrite Hg, Hf. now left.
Qed.

Lemma validate_configuration_issues fuel st issues st' issue :
  validate_configuration classes fuel st = (Return issues, st') ->
  In issue issues ->
  (exists c cyc,
      In c (dict_keys (_component_configs st)) /\ issue = CircularIssue cyc
      /\ fst (_detect_circular_dependencies fuel c [] None st)
         = Raise (CircularDependencyError cyc))
  \/ In issue (check_unresolved classes st).
Proof.
  unfold validate_configuration. intros H Hin.
  pose proof (OptimizedProperties.check_cycles_state fuel
                (dict_keys (_component_configs st)) [] st) as Hs.
  destruct (check_cycles fuel (dict_keys (_component_configs st)) [] st)
    as [[out|e| |] st1] eqn:Hc; try discriminate.
  simpl in Hs. subst st1. injection H as <- _.
  apply in_app_iff in Hin. destruct Hin as [Hin|Hin]; [|now right].
  destruct (@check_cycles_issues _ _ _ _ _ _ _ Hc Hin) as [[]|H]. now left.
Qed.

(** X10.  Every cycle that [validate_configuration] reports is a cycle of
    the registry.  The path of a [Circular dependency] issue begins and
    ends with the same component, lists no other component twice, consists
    of registered components only, and each component of it has the next
    one as the annotation of a constructor parameter in its cached
    dependency map. *)
Theorem reported_cycles_are_cycles (fuel : nat) (st st' : Context)
  (issues : list Issue) (cycle_path : list TypeId) :
  validate_configuration classes fuel st = (Return issues, st') ->
  In (CircularIssue cycle_path) issues ->
  (exists x mid,
      cycle_path = x :: mid ++ [x] /\ NoDup (x :: mid))
  /\ walk st cycle_path
  /\ Forall (fun x => In x (dict_keys (_component_configs st))) cycle_path.
Proof.
  intros H Hin.
  destruct (@validate_configuration_issues _ _ _ _ _ H Hin)
    as [(c & cyc & Hc & He & Hd)|Hu].
  - injection He as ->.
    destruct (_detect_circular_dependencies fuel c [] None st)
      as [r st1] eqn:Hr.
    simpl in Hd. subst r. rewrite detect_None in Hr.
    apply detect_cycle_sound in Hr;
      [|tauto|constructor|exact I].
    destruct Hr as (x & mid & -> & Hn & Hw).
    split; [now exists x, mid|]. split; [assumption|].
    pose proof (walk_targets _ _ _ Hw) as Ht.
    constructor; [|assumption].
    rewrite Forall_forall in Ht. apply Ht. apply in_app_iff. simpl. tauto.
  - apply check_unresolved_issues in Hu.
    destruct Hu as (c & deps & name & d & Hu & _). discriminate.
Qed.

Lemma cycle_is_reported fuel st (x : TypeId) mid :
  validation_fuel st <= fuel ->
  walk st (x :: mid ++ [x]) ->
  exists cyc, cycle_issue fuel st x = [CircularIssue cyc]
              /\ In x (dict_keys (_component_configs st)).
Proof.
  intros Hf Hw.
  assert (Hx : In x (dict_keys (_component_configs st))).
  { pose proof (walk_targets _ _ _ Hw) as Ht. rewrite Forall_forall in Ht.
    apply Ht. apply in_app_iff. simpl. tauto. }
  assert (He : ends_well
                 (fst (_detect_circular_dependencies fuel x [] None st))).
  { apply OptimizedProperties.detect_ends_well; auto.
    pose proof (OptimizedTermination.unvisited_length st []) as Hl.
    unfold validation_fuel in Hf. lia. }
  unfold cycle_issue.
  destruct (_detect_circular_dependencies fuel x [] None st) as [r st1] eqn:Hr.
  simpl in *. destruct He as [->|[cyc ->]].
  - rewrite detect_None in Hr.
    pose proof (@detect_return_no_cycle fuel x [] [] st tt st1) as Hnd.
    specialize (Hnd (fun y => conj (fun H => H) (fun H => H))
                  (NoDup_nil _) Hr (mid ++ [x]) Hw).
    simpl in Hnd. apply NoDup_cons_iff in Hnd. destruct Hnd as [Hnd _].
    exfalso. apply Hnd. apply in_app_iff. simpl. tauto.
  - now exists cyc.
Qed.


Lemma missing_iff_bean_not_found fuel st (d : TypeId) :
  missing classes st d
  <-> fst (get_bean classes (S fuel) d None st)
      = Raise (BeanNotFoundError d).
Proof.
  split.
  - intros [Hn Hf].
    rewrite OptimizedProperties.get_bean_unfold,
      OptimizedProperties.get_bean_body_eq.
    cbv zeta. cbn [contains existsb]. now rewrite Hn, Hf.
  - intros H.
    destruct (get_bean classes (S fuel) d None st) as [r st1] eqn:Hg.
    simpl in H. subst r.
    eapply OptimizedProperties.bean_not_found_names_missing. exact Hg.
Qed.

(** X12.  The validator and the resolver agree on unresolved
    dependencies.  [validate_configuration] reports [c -> d] exactly when
    the cached dependency map of [c] has a parameter annotated with [d]
    and a request for [d] ends in a [BeanNotFoundError] that names [d]:
    what the second loop of the validator predicts is what [get_bean]
    does, at whatever depth the error arises. *)
Theorem unresolved_issues_are_resolver_failures (fuel budget : nat)
  (st st' : Context) (issues : list Issue) (c d : TypeId) :
  validate_configuration classes budget st = (Return issues, st') ->
  (In (UnresolvedIssue c d) issues
   <-> exists deps name,
         In (c, deps) (_dependency_cache st) /\ In (name, d) deps
         /\ fst (get_bean classes (S fuel) d None st)
            = Raise (BeanNotFoundError d)).
Proof.
  intros H. split.
  - intros Hin.
    destruct (@validate_configuration_issues _ _ _ _ _ H Hin)
      as [(c' & cyc & _ & He & _)|Hu]; [discriminate|].
    apply check_unresolved_issues in Hu.
    destruct Hu as (c' & deps & name & d' & He & Hc & Hd & Hm).
    injection He as -> ->. exists deps, name.
    split; [assumption|]. split; [assumption|].
    now apply missing_iff_bean_not_found.
  - intros (deps & name & Hc & Hd & Hm).
    apply missing_iff_bean_not_found in Hm.
    unfold validate_configuration in H.
    pose proof (OptimizedProperties.check_cycles_state budget
                  (dict_keys (_component_configs st)) [] st) as Hs.
    destruct (check_cycles budget (dict_keys (_component_configs st)) [] st)
      as [[out|e| |] st1]; try discriminate.
    simpl in Hs. subst st1. injection H as <- _.
    apply in_app_iff. right. apply check_unresolved_issues.
    now exists c, deps, name, d.
Qed.
End Cycles.

Section Agreement.
Variable classes : TypeId -> ClassDef.

Lemma edge_evolves st st' (u v : TypeId) :
  evolves classes st st' -> (edge st' u v <-> edge st u v).
Proof.
  intros E. unfold edge, dependencies_of.
  rewrite (ev_dependency_cache E), !dict_get_In_keys, (ev_keys E).
  reflexivity.
Qed.

Lemma walk_evolves st st' (l : list TypeId) :
  evolves classes st st' -> (walk st' l <-> walk st l).
Proof.
  intros E. induction l as [|u l IH]; [reflexivity|].
  destruct l as [|v l]; [reflexivity|].
  change (edge st' u v /\ walk st' (v :: l)
          <-> edge st u v /\ walk st (v :: l)).
  now rewrite IH, (edge_evolves u v E).
Qed.

Lemma cyclic_walk_evolves st st' cyc :
  evolves classes st st' -> cyclic_walk st' cyc -> cyclic_walk st cyc.
Proof.
  intros E [Hw Hc]. split; [|assumption]. now apply (walk_evolves cyc E).
Qed.

Lemma construct_not_cycle (t : TypeId) kwargs w cyc w' :
  construct classes t kwargs w <> (Raise (CircularDependencyError cyc), w').
Proof.
  construct_cases classes t kwargs; discriminate.
Qed.

Section Step.
Variable rec :
  TypeId -> option (list TypeId) -> Context -> Outcome Instance * Context.
Hypothesis rec_evolves :
  forall t p st r st', rec t p st = (r, st') -> evolves classes st st'.
Hypothesis rec_cycle :
  forall (t : TypeId) (path : list TypeId) st cyc st',
    closed st ->
    dict_get (_component_configs st) t <> None ->
    walk st (path ++ [t]) ->
    rec t (Some path) st = (Raise (CircularDependencyError cyc), st') ->
    cyclic_walk st cyc.

Lemma resolve_dependencies_cycle deps (path : list TypeId) acc st cyc st' :
  closed st ->
  (forall name d, In (name, d) deps ->
                  dict_get (_component_configs st) d <> None
                  /\ walk st (path ++ [d])) ->
  resolve_dependencies rec deps path acc st
  = (Raise (CircularDependencyError cyc), st') ->
  cyclic_walk st cyc.
Proof.
  revert acc st.
  induction deps as [|[name d] rest IH]; intros acc st Hc Hd H; simpl in H;
    [discriminate|].
  destruct (Hd name d (or_introl eq_refl)) as [Hreg Hw].
  destruct (rec d (Some path) st) as [[i|e| |] st1] eqn:Hr;
    try discriminate.
  - pose proof (rec_evolves Hr) as E.
    apply (cyclic_walk_evolves E).
    apply IH with (acc := dict_set acc name i); auto.
    + eapply OptimizedTermination.closed_evolves; eauto.
    + intros name' d' Hin.
      destruct (Hd name' d' (or_intror Hin)) as [Hreg' Hw'].
      split.
      * eapply OptimizedTermination.registered_evolves; eauto.
      * now apply (walk_evolves _ E).
  - injection H as -> ->. eapply rec_cycle; eauto.
Qed.

Lemma create_instance_cycle (t : TypeId) (p : list TypeId) st cyc st' :
  closed st ->
  walk st (p ++ [t]) ->
  _create_instance_optimized classes rec t (p ++ [t]) st
  = (Raise (CircularDependencyError cyc), st') ->
  cyclic_walk st cyc.
Proof.
  intros Hc Hw H. unfold _create_instance_optimized in H.
  pose proof (Hc t) as Hdeps. unfold dependencies_of in Hdeps.
  assert (He : forall name d,
             In (name, d) (dependencies_of st t) -> edge st t d).
  { intros name d Hin. split; [now exists name|].
    apply (Hc t name d Hin). }
  unfold dependencies_of in He.
  destruct (dict_get (_dependency_cache st) t) as [[|e deps]|] eqn:Hd.
  - destruct (construct classes t [] (world st)) as [r w] eqn:Hk.
    injection H as -> _. exfalso. eapply construct_not_cycle; eauto.
  - destruct (resolve_dependencies rec (e :: deps) (p ++ [t]) [] st)
      as [[kw|e'| |] st1] eqn:Hr; try discriminate.
    + destruct (construct classes t kw (world st1)) as [r w] eqn:Hk.
      injection H as -> _. exfalso. eapply construct_not_cycle; eauto.
    + injection H as -> ->.
      eapply resolve_dependencies_cycle; [exact Hc| |exact Hr].
      intros name d Hin. split; [apply (Hdeps name d Hin)|].
      apply walk_snoc; auto. apply (He name d Hin).
  - destruct (construct classes t [] (world st)) as [r w] eqn:Hk.
    injection H as -> _. exfalso. eapply construct_not_cycle; eauto.
Qed.

Lemma get_bean_configured_cycle (t : TypeId) config (p : list TypeId)
  start_time st cyc st' :
  closed st ->
  walk st (p ++ [t]) ->
  get_bean_configured classes rec t config p start_time st
  = (Raise (CircularDependencyError cyc), st') ->
  cyclic_walk st cyc.
Proof.
  intros Hc Hw H. unfold get_bean_configured in H.
  destruct (published classes config); [discriminate|].
  destruct (_create_instance_optimized classes rec t (p ++ [t]) st)
    as [[i|e| |] st1] eqn:Hk; try discriminate.
  injection H as -> ->. eapply create_instance_cycle; eauto.
Qed.
End Step.

Lemma closed_ticked st : closed st -> closed (ticked st).
Proof. intros H. exact H. Qed.

(** In a closed registry, the path of a [CircularDependencyError] that
    [get_bean] raises is a walk of the dependency graph that ends in a
    component it has visited before. *)
Lemma get_bean_cycle fuel :
  forall (t : TypeId) (path : list TypeId) st cyc st',
    closed st ->
    dict_get (_component_configs st) t <> None ->
    walk st (path ++ [t]) ->
    get_bean classes fuel t (Some path) st
    = (Raise (CircularDependencyError cyc), st') ->
    cyclic_walk st cyc.
Proof.
  induction fuel as [|fuel IH]; intros t path st cyc st' Hc Hreg Hw H;
    [discriminate|].
  rewrite OptimizedProperties.get_bean_unfold,
    OptimizedProperties.get_bean_body_eq in H.
  cbv zeta in H.
  destruct (contains path t) eqn:Hp.
  - injection H as <- _. split; [assumption|].
    apply contains_In in Hp. apply in_split in Hp.
    destruct Hp as (l1 & l2 & ->). exists l1, t, l2.
    now rewrite <- app_assoc.
  - destruct (dict_get (_component_configs st) t) as [config|] eqn:Hcfg;
      [|congruence].
    apply (cyclic_walk_evolves (OptimizedProperties.tick_evolves classes st)).
    eapply get_bean_configured_cycle with (rec := get_bean classes fuel);
      [| |apply closed_ticked; exact Hc| |exact H].
    + intros t0 p0 s r s'. apply OptimizedProperties.get_bean_evolves.
    + exact IH.
    + apply (walk_evolves _ (OptimizedProperties.tick_evolves classes st)).
      exact Hw.
Qed.

(** X13.  The validator and the resolver agree on closed registries.  If
    every cached dependency is a registered component and
    [validate_configuration] reports no [Circular dependency] issue, then
    no request to [get_component] raises [CircularDependencyError],
    whatever the type and at whatever depth. *)
Theorem validated_registry_raises_no_cycle (fuel budget : nat)
  (component_type : TypeId) (st : Context) (issues : list Issue) :
  closed st ->
  validation_fuel st <= budget ->
  fst (validate_configuration classes budget st) = Return issues ->
  (forall cycle_path, ~ In (CircularIssue cycle_path) issues) ->
  forall cycle_path,
    fst (get_component classes fuel component_type st)
    <> Raise (CircularDependencyError cycle_path).
Proof.
  intros Hc Hb Hv Hnone cyc Hraise.
  assert (Hcw : cyclic_walk st cyc).
  { unfold get_component in Hraise.
    destruct (get_bean classes fuel component_type None st) as [r st'] eqn:H.
    simpl in Hraise. subst r.
    destruct fuel as [|fuel]; [discriminate|].
    rewrite OptimizedProperties.get_bean_unfold,
      OptimizedProperties.get_bean_body_eq in H.
    cbv zeta in H. cbn [contains existsb] in H.
    assert (Hstep : forall (t : TypeId) config,
               get_bean_configured classes (get_bean classes fuel) t config
                 [] (clock (world st)) (ticked st)
               = (Raise (CircularDependencyError cyc), st') ->
               cyclic_walk st cyc).
    { intros t config Hk.
      apply (cyclic_walk_evolves
               (OptimizedProperties.tick_evolves classes st)).
      eapply get_bean_configured_cycle with (rec := get_bean classes fuel);
        [| |apply closed_ticked; exact Hc| |exact Hk].
      - intros t0 p0 s r s'. apply OptimizedProperties.get_bean_evolves.
      - apply get_bean_cycle.
      - exact I. }
    destruct (dict_get (_component_configs st) component_type)
      as [config|] eqn:Hcfg.
    - now apply (Hstep component_type config).
    - destruct (_find_implementations classes st component_type)
        as [|impl rest] eqn:Hf; [discriminate|].
      destruct (dict_get (_component_configs st) impl) as [config|] eqn:Hi;
        [|discriminate].
      now apply (Hstep impl config). }
  destruct Hcw as [Hw (pre & x & mid & ->)].
  apply walk_app_r in Hw.
  destruct (@cycle_is_reported classes _ _ _ _ Hb Hw) as (c' & Hci & Hx).
  rewrite (OptimizedProperties.validate_configuration_returns classes Hb)
    in Hv.
  simpl in Hv. injection Hv as <-.
  apply (Hnone c'). apply in_app_iff. left. apply in_flat_map.
  exists x. split; [assumption|]. rewrite Hci. now left.
Qed.
End Agreement.

End OptimizedValidation.

(** * When a resolution succeeds *)

Module OptimizedProgress.
Import OptimizedApplicationContext OptimizedExtensions.

Lemma cachedb_cached st : cachedb st = true -> cached st.
Proof.
  unfold cachedb, cached. intros H c Hc.
  rewrite forallb_forall in H. specialize (H c Hc).
  unfold dict_mem in H.
  destruct (dict_get (_dependency_cache st) c); congruence.
Qed.

Lemma dict_mem_same_keys (A B : Type) (d : dict A) (d' : dict B) k :
  dict_keys d = dict_keys d' -> dict_mem d k = dict_mem d' k.
Proof.
  unfold dict_mem. revert d'.
  induction d as [|[k1 v1] d IH]; intros [|[k2 v2] d'] H;
    try discriminate; [reflexivity|].
  simpl in H. injection H as -> H. simpl.
  destruct (String.eqb k2 k); [reflexivity|]. now apply IH.
Qed.

Section Progress.
Variable classes : TypeId -> ClassDef.

(** Whether a call binds depends on the keywords it passes only. *)
Lemma construct_error_same_keys (t : TypeId) (kwargs kwargs' : dict Instance) :
  dict_keys kwargs = dict_keys kwargs' ->
  construct_error classes t kwargs = construct_error classes t kwargs'.
Proof.
  intros H. unfold construct_error, rejected_keywords, missing_arguments.
  rewrite H.
  rewrite (filter_ext
             (fun p => required p
                       && negb (by_keyword p
                                && dict_mem kwargs (param_name p)))
             (fun p => required p
                       && negb (by_keyword p
                                && dict_mem kwargs' (param_name p)))).
  - reflexivity.
  - intros q. now rewrite (dict_mem_same_keys kwargs kwargs' _ H).
Qed.

Lemma constructibleb_constructible (c : TypeId) :
  constructibleb classes c = true -> constructible classes c.
Proof.
  unfold constructibleb, constructible. intros H kwargs Hk.
  rewrite (@construct_error_same_keys c kwargs
             (map (fun e : string * TypeId =>
                     (fst e, {| inst_id := 0; inst_class := snd e |}))
                (signature_dependencies classes c))).
  - destruct (construct_error classes c
                (map (fun e : string * TypeId =>
                        (fst e, {| inst_id := 0; inst_class := snd e |}))
                   (signature_dependencies classes c)));
      [discriminate|reflexivity].
  - rewrite Hk. unfold dict_keys. rewrite map_map. reflexivity.
Qed.

Lemma construct_returns (t : TypeId) kwargs w :
  construct_error classes t kwargs = None ->
  exists i w', construct classes t kwargs w = (Return i, w').
Proof. intros H. unfold construct. rewrite H. eauto. Qed.

Lemma well_formed_evolves st st' :
  evolves classes st st' ->
  consistent classes st' ->
  well_formed classes st -> well_formed classes st'.
Proof.
  intros E C (_ & Hcl & Hca & Hco). split; [assumption|]. split; [|split].
  - eapply OptimizedTermination.closed_evolves; eauto.
  - unfold cached in *. rewrite (ev_keys E), (ev_dependency_cache E).
    exact Hca.
  - rewrite (ev_keys E). exact Hco.
Qed.

Lemma well_formed_ticked st :
  well_formed classes st -> well_formed classes (ticked st).
Proof.
  intros W. apply well_formed_evolves with (st := st); auto.
  - apply OptimizedProperties.tick_evolves.
  - apply OptimizedExtras.consistent_with_world; [apply W|reflexivity].
Qed.

Section Step.
Variable rec :
  TypeId -> option (list TypeId) -> Context -> Outcome Instance * Context.
Hypothesis rec_evolves :
  forall t p st r st', rec t p st = (r, st') -> evolves classes st st'.
Hypothesis rec_sound :
  forall t p st r st',
    consistent classes st -> rec t p st = (r, st') ->
    sound_outcome classes st t r st'.
Hypothesis rec_raises :
  forall (t : TypeId) (path : list TypeId) st e st',
    well_formed classes st ->
    dict_get (_component_configs st) t <> None ->
    walk st (path ++ [t]) ->
    rec t (Some path) st = (Raise e, st') ->
    only_cycle st e.

Lemma resolve_dependencies_raises deps (path : list TypeId) acc st e st' :
  well_formed classes st ->
  (forall name d, In (name, d) deps ->
                  dict_get (_component_configs st) d <> None
                  /\ walk st (path ++ [d])) ->
  resolve_dependencies rec deps path acc st = (Raise e, st') ->
  only_cycle st e.
Proof.
  revert acc st.
  induction deps as [|[name d] rest IH]; intros acc st W Hd H; simpl in H;
    [discriminate|].
  destruct (Hd name d (or_introl eq_refl)) as [Hreg Hw].
  destruct (rec d (Some path) st) as [[i|e'| |] st1] eqn:Hr;
    try discriminate.
  - pose proof (rec_evolves Hr) as E.
    pose proof (rec_sound (proj1 W) Hr) as [C _].
    destruct (IH (dict_set acc name i) st1) as (cyc & -> & Hcw); auto.
    + now apply (well_formed_evolves E).
    + intros name' d' Hin.
      destruct (Hd name' d' (or_intror Hin)) as [Hreg' Hw'].
      split.
      * eapply OptimizedTermination.registered_evolves; eauto.
      * now apply (OptimizedValidation.walk_evolves _ E).
    + exists cyc. split; [reflexivity|].
      now apply (OptimizedValidation.cyclic_walk_evolves E).
  - injection H as -> ->. eapply rec_raises; eauto.
Qed.

Lemma create_instance_raises (t : TypeId) (p : list TypeId) st e st' :
  well_formed classes st ->
  dict_get (_component_configs st) t <> None ->
  walk st (p ++ [t]) ->
  _create_instance_optimized classes rec t (p ++ [t]) st = (Raise e, st') ->
  only_cycle st e.
Proof.
  intros W Hreg Hw H. pose proof W as (C & Hcl & Hca & Hco).
  apply dict_get_In_keys in Hreg.
  pose proof (OptimizedExtras.dependencies_of_NoDup t C) as Hnd.
  assert (He : forall name d,
             In (name, d) (dependencies_of st t) -> edge st t d).
  { intros name d Hin. split; [now exists name|].
    apply (Hcl t name d Hin). }
  pose proof (Hcl t) as Hdeps.
  unfold _create_instance_optimized in H.
  unfold dependencies_of in Hnd, He, Hdeps.
  destruct (dict_get (_dependency_cache st) t) as [deps|] eqn:Hd;
    [|exfalso; now apply (Hca t Hreg)].
  pose proof (co_cache C _ Hd) as Hsig.
  pose proof (Hco t Hreg) as Hcon. unfold constructible in Hcon.
  rewrite <- Hsig in Hcon.
  destruct deps as [|e0 deps].
  - destruct (@construct_returns t [] (world st) (Hcon [] eq_refl))
      as (i & w' & Hk).
    rewrite Hk in H. discriminate.
  - destruct (resolve_dependencies rec (e0 :: deps) (p ++ [t]) [] st)
      as [[kw|e'| |] st1] eqn:Hr; try discriminate.
    + pose proof (@OptimizedExtras.resolve_dependencies_wired classes rec
                    rec_evolves rec_sound (e0 :: deps) (p ++ [t]) [] st
                    (Return kw) st1 C Hnd Hr) as (_ & _ & _ & Hkw).
      destruct (Hkw kw eq_refl) as [Hk _]. simpl in Hk.
      destruct (@construct_returns t kw (world st1) (Hcon kw Hk))
        as (i & w' & Hc).
      rewrite Hc in H. discriminate.
    + injection H as -> ->.
      eapply resolve_dependencies_raises; [exact W| |exact Hr].
      intros name d Hin. split; [apply (Hdeps name d Hin)|].
      apply OptimizedValidation.walk_snoc; auto. apply (He name d Hin).
Qed.

Lemma get_bean_configured_raises (t : TypeId) config (p : list TypeId)
  start_time st e st' :
  well_formed classes st ->
  dict_get (_component_configs st) t <> None ->
  walk st (p ++ [t]) ->
  get_bean_configured classes rec t config p start_time st = (Raise e, st') ->
  only_cycle st e.
Proof.
  intros W Hreg Hw H. unfold get_bean_configured in H.
  destruct (published classes config); [discriminate|].
  destruct (_create_instance_optimized classes rec t (p ++ [t]) st)
    as [[i|e'| |] st1] eqn:Hk; try discriminate.
  injection H as -> ->. eapply create_instance_raises; eauto.
Qed.
End Step.

Lemma only_cycle_ticked st e : only_cycle (ticked st) e -> only_cycle st e.
Proof.
  intros (cyc & -> & Hcw). exists cyc. split; [reflexivity|].
  apply (OptimizedValidation.cyclic_walk_evolves
           (OptimizedProperties.tick_evolves classes st) Hcw).
Qed.

Lemma get_bean_raises fuel :
  forall (t : TypeId) (path : list TypeId) st e st',
    well_formed classes st ->
    dict_get (_component_configs st) t <> None ->
    walk st (path ++ [t]) ->
    get_bean classes fuel t (Some path) st = (Raise e, st') ->
    only_cycle st e.
Proof.
  induction fuel as [|fuel IH]; intros t path st e st' W Hreg Hw H;
    [discriminate|].
  rewrite OptimizedProperties.get_bean_unfold,
    OptimizedProperties.get_bean_body_eq in H.
  cbv zeta in H.
  destruct (contains path t) eqn:Hp.
  - injection H as <- _. exists (path ++ [t]). split; [reflexivity|].
    split; [assumption|].
    apply contains_In in Hp. apply in_split in Hp.
    destruct Hp as (l1 & l2 & ->). exists l1, t, l2.
    now rewrite <- app_assoc.
  - destruct (dict_get (_component_configs st) t) as [config|] eqn:Hcfg;
      [|congruence].
    apply only_cycle_ticked.
    eapply get_bean_configured_raises with (rec := get_bean classes fuel);
      [| | |apply well_formed_ticked; exact W| | |exact H].
    + intros t0 p0 s r s'. apply OptimizedProperties.get_bean_evolves.
    + intros t0 p0 s r s' C Hg. eapply OptimizedExtras.get_bean_wired; eauto.
    + exact IH.
    + change (_component_configs (ticked st)) with (_component_configs st).
      congruence.
    + apply (OptimizedValidation.walk_evolves _
               (OptimizedProperties.tick_evolves classes st)).
      exact Hw.
Qed.

Lemma validated_acyclic budget st :
  validation_fuel st <= budget ->
  fst (validate_configuration classes budget st) = Return [] ->
  forall e, ~ only_cycle st e.
Proof.
  intros Hb Hv e (cyc & -> & Hw & pre & x & mid & ->).
  apply OptimizedValidation.walk_app_r in Hw.
  destruct (@OptimizedValidation.cycle_is_reported classes _ _ _ _ Hb Hw)
    as (c' & Hci & Hx).
  rewrite (OptimizedProperties.validate_configuration_returns classes Hb)
    in Hv.
  simpl in Hv. injection Hv as Hv.
  apply app_eq_nil in Hv. destruct Hv as [Hv _].
  assert (Hin : In (CircularIssue c')
                  (flat_map (cycle_issue budget st)
                     (dict_keys (_component_configs st)))).
  { apply in_flat_map. exists x. split; [assumption|].
    rewrite Hci. now left. }
  rewrite Hv in Hin. contradiction.
Qed.

(** In a well-formed registry without cycles, a request without a path
    returns, within a budget of one nested call per registered component
    and one more. *)
Lemma get_bean_returns fuel (component_type resolved : TypeId) st :
  well_formed classes st ->
  (forall e, ~ only_cycle st e) ->
  resolved_type classes st component_type = Some resolved ->
  List.length (_component_configs st) < fuel ->
  exists i,
    fst (get_bean classes fuel component_type None st) = Return i
    /\ inst_class i = resolved.
Proof.
  intros W Hacyclic Hres Hlt.
  pose proof W as (C & Hcl & Hca & Hco).
  assert (Hstep : forall config,
             dict_get (_component_configs st) resolved = Some config ->
             exists i,
               fst (get_bean_configured classes (get_bean classes (pred fuel))
                      resolved config [] (clock (world st)) (ticked st))
               = Return i
               /\ inst_class i = resolved).
  { intros config Hcfg.
    assert (Hreg : dict_get (_component_configs st) resolved <> None)
      by congruence.
    pose proof (@OptimizedTermination.get_bean_configured_finishes classes
                  (get_bean classes (pred fuel)) (pred fuel)) as Hfin.
    specialize (Hfin (fun t0 p0 s r s' =>
                        @OptimizedProperties.get_bean_evolves classes
                          (pred fuel) t0 p0 s r s')
                  (OptimizedTermination.get_bean_finishes classes
                     (fuel := pred fuel))
                  resolved config [] (clock (world st)) (ticked st) Hcl).
    destruct (get_bean_configured classes (get_bean classes (pred fuel))
                resolved config [] (clock (world st)) (ticked st))
      as [r st'] eqn:Hg.
    assert (Hf : finishes r).
    { apply Hfin.
      assert (Hk : In resolved (dict_keys (_component_configs st)))
        by now apply dict_get_In_keys.
      pose proof (@OptimizedTermination.unvisited_snoc st [] resolved Hk
                    eq_refl) as Hs.
      pose proof (OptimizedTermination.unvisited_length st []) as Hl.
      change (unvisited (ticked st) ([] ++ [resolved]))
        with (unvisited st ([] ++ [resolved])).
      lia. }
    destruct r as [i|e| |]; simpl in Hf; try contradiction.
    - exists i. split; [reflexivity|].
      pose proof (@OptimizedExtras.get_bean_configured_wired classes
                    (get_bean classes (pred fuel))
                    (fun t0 p0 s r s' =>
                       @OptimizedProperties.get_bean_evolves classes
                         (pred fuel) t0 p0 s r s')
                    (fun t0 p0 s r s' C0 Hg0 =>
                       @OptimizedExtras.get_bean_wired classes (pred fuel)
                         t0 p0 s r s' C0 Hg0)
                    resolved config [] (clock (world st)) (ticked st)
                    (Return i) st'
                    (proj1 (well_formed_ticked W)) Hcfg Hg)
        as (_ & _ & Hret).
      apply (Hret i eq_refl).
    - exfalso. apply (Hacyclic e). apply only_cycle_ticked.
      eapply get_bean_configured_raises
        with (rec := get_bean classes (pred fuel));
        [| | |apply well_formed_ticked; exact W| | |exact Hg].
      + intros t0 p0 s r s'. apply OptimizedProperties.get_bean_evolves.
      + intros t0 p0 s r s' C0 Hg0.
        eapply OptimizedExtras.get_bean_wired; eauto.
      + apply get_bean_raises.
      + exact Hreg.
      + exact I. }
  destruct fuel as [|fuel]; [lia|].
  rewrite OptimizedProperties.get_bean_unfold,
    OptimizedProperties.get_bean_body_eq.
  cbv zeta. cbn [contains existsb]. simpl pred in Hstep.
  unfold resolved_type in Hres.
  destruct (dict_get (_component_configs st) component_type)
    as [config|] eqn:Hcfg.
  - injection Hres as <-. now apply Hstep.
  - destruct (_find_implementations classes st component_type)
      as [|impl rest] eqn:Hf; [discriminate|].
    injection Hres as <-.
    destruct (dict_get (_component_configs st) impl) as [config|] eqn:Hi.
    + now apply Hstep.
    + exfalso.
      apply (@OptimizedProperties.find_implementations_registered classes st
               component_type impl); [rewrite Hf; now left|assumption].
Qed.

(** X14.  When a resolution succeeds.  Take a state that a client has
    reached, in which every cached dependency is a registered component,
    every registered component has its dependency map cached, and every
    registered class can be constructed from its dependency map (the call
    that passes exactly the annotated parameters as keywords binds its
    arguments, and the body of [__init__] does not raise).  If
    [validate_configuration] reports no issue, then [get_component]
    returns an object for every type that resolves to a registered
    component, and the object is an instance of that component, provided
    the recursion limit allows one nested call of [get_bean] for each
    registered component and one more. *)
Theorem get_component_returns_on_validated_registry (calls : list Call)
  (fuel budget : nat) (component_type resolved : TypeId) :
  let st := run classes calls empty_context in
  closed st ->
  cached st ->
  (forall c, In c (dict_keys (_component_configs st)) ->
             constructible classes c) ->
  validation_fuel st <= budget ->
  fst (validate_configuration classes budget st) = Return [] ->
  resolved_type classes st component_type = Some resolved ->
  List.length (_component_configs st) < fuel ->
  exists i,
    fst (get_component classes fuel component_type st) = Return i
    /\ inst_class i = resolved.
Proof.
  intros st Hcl Hca Hco Hb Hv Hres Hlt.
  assert (C : consistent classes st).
  { apply OptimizedExtras.run_consistent.
    apply OptimizedExtras.empty_context_consistent. }
  unfold get_component. apply get_bean_returns; auto.
  - exact (conj C (conj Hcl (conj Hca Hco))).
  - now apply (validated_acyclic Hb).
Qed.

(** ** Requests that follow one another *)

Lemma walk_frame st st' (l : list TypeId) :
  dict_keys (_component_configs st') = dict_keys (_component_configs st) ->
  _dependency_cache st' = _dependency_cache st ->
  walk st' l -> walk st l.
Proof.
  intros Hk Hc. induction l as [|u l IH]; [auto|].
  destruct l as [|v l]; [auto|].
  change (edge st' u v /\ walk st' (v :: l)
          -> edge st u v /\ walk st (v :: l)).
  intros [[Hd Hr] Hw]. split; [|now apply IH].
  unfold edge, dependencies_of in *. rewrite Hc in Hd.
  split; [assumption|]. rewrite dict_get_In_keys in *. now rewrite <- Hk.
Qed.

Lemma only_cycle_frame st st' e :
  dict_keys (_component_configs st') = dict_keys (_component_configs st) ->
  _dependency_cache st' = _dependency_cache st ->
  only_cycle st' e -> only_cycle st e.
Proof.
  intros Hk Hc (cyc & -> & Hw & Hs). exists cyc.
  split; [reflexivity|]. split; [|assumption].
  eapply walk_frame; eauto.
Qed.

Lemma well_formed_frame st st' :
  dict_keys (_component_configs st') = dict_keys (_component_configs st) ->
  _dependency_cache st' = _dependency_cache st ->
  consistent classes st' ->
  well_formed classes st -> well_formed classes st'.
Proof.
  intros Hk Hc C (_ & Hcl & Hca & Hco). split; [assumption|].
  split; [|split].
  - unfold closed, dependencies_of in *. rewrite Hc. intros t name d Hin.
    specialize (Hcl t name d Hin).
    rewrite dict_get_In_keys in *. now rewrite Hk.
  - unfold cached in *. now rewrite Hk, Hc.
  - now rewrite Hk.
Qed.

Lemma run_call_quiet st c :
  quiet c = true ->
  dict_keys (_component_configs (run_call classes st c))
  = dict_keys (_component_configs st)
  /\ _dependency_cache (run_call classes st c) = _dependency_cache st.
Proof.
  destruct c; simpl; try discriminate; intros _; auto.
  - destruct (get_bean classes fuel bean_type _creation_path st)
      as [r st'] eqn:Hg.
    apply OptimizedProperties.get_bean_evolves in Hg. simpl.
    split; [apply (ev_keys Hg)|apply (ev_dependency_cache Hg)].
  - now rewrite OptimizedProperties.validate_configuration_state.
Qed.

Lemma run_quiet calls st :
  Forall (fun c => quiet c = true) calls ->
  dict_keys (_component_configs (run classes calls st))
  = dict_keys (_component_configs st)
  /\ _dependency_cache (run classes calls st) = _dependency_cache st.
Proof.
  revert st. induction calls as [|c calls IH]; intros st H; simpl; [auto|].
  inversion H as [|? ? Hc Hcalls]; subst.
  destruct (IH (run_call classes st c) Hcalls) as [Hk Hd].
  destruct (@run_call_quiet st c Hc) as [Hk' Hd'].
  split; congruence.
Qed.

Lemma quiet_registers (t : TypeId) calls :
  Forall (fun c => quiet c = true) calls ->
  Forall (fun c => registers t c = false) calls.
Proof.
  apply Forall_impl. intros c H. destruct c; try reflexivity; discriminate.
Qed.

(** In a well-formed registry without cycles, two requests for a
    prototype, with quiet calls in between, both return. *)
Lemma prototype_requests_return (calls : list Call) (t : TypeId) config
  fuel1 fuel2 st :
  well_formed classes st ->
  (forall e, ~ only_cycle st e) ->
  dict_get (_component_configs st) t = Some config ->
  scope config = PROTOTYPE ->
  Forall (fun c => quiet c = true) calls ->
  List.length (_component_configs st) < fuel1 ->
  List.length (_component_configs st) < fuel2 ->
  exists o1 st1 o2 st2,
    get_bean classes fuel1 t None st = (Return o1, st1)
    /\ get_bean classes fuel2 t None (run classes calls st1)
       = (Return o2, st2)
    /\ inst_class o1 = t /\ inst_class o2 = t.
Proof.
  intros W Ha Hcfg Hs Hq H1 H2.
  assert (Hres : resolved_type classes st t = Some t)
    by (unfold resolved_type; now rewrite Hcfg).
  destruct (@get_bean_returns fuel1 t t st W Ha Hres H1) as (o1 & Hr1 & Hc1).
  destruct (get_bean classes fuel1 t None st) as [r1 st1] eqn:Hg1.
  simpl in Hr1. subst r1.
  pose proof Hg1 as E. apply OptimizedProperties.get_bean_evolves in E.
  pose proof Hg1 as C1.
  apply OptimizedExtras.get_bean_wired in C1; [|apply W].
  destruct C1 as (C1 & _).
  destruct (@run_quiet calls st1 Hq) as [Hk Hd].
  assert (W2 : well_formed classes (run classes calls st1)).
  { apply well_formed_frame with (st := st1); auto.
    - now apply OptimizedExtras.run_consistent.
    - eapply well_formed_evolves; eauto. }
  assert (Ha2 : forall e, ~ only_cycle (run classes calls st1) e).
  { intros e He. apply (Ha e).
    eapply only_cycle_frame in He; [|exact Hk|exact Hd].
    destruct He as (cyc & -> & Hcw). exists cyc. split; [reflexivity|].
    eapply OptimizedValidation.cyclic_walk_evolves; eauto. }
  assert (Hcfg2 : dict_get (_component_configs (run classes calls st1)) t
                  = Some config).
  { apply OptimizedProperties.run_settled.
    - now apply quiet_registers.
    - eapply (ev_prototype E); eauto.
    - now left. }
  assert (Hres2 : resolved_type classes (run classes calls st1) t = Some t)
    by (unfold resolved_type; now rewrite Hcfg2).
  assert (Hl : List.length (_component_configs (run classes calls st1))
               = List.length (_component_configs st)).
  { rewrite <- (length_map fst (_component_configs (run classes calls st1))).
    rewrite <- (length_map fst (_component_configs st)).
    change (List.length (dict_keys
                           (_component_configs (run classes calls st1)))
            = List.length (dict_keys (_component_configs st))).
    now rewrite Hk, (ev_keys E). }
  assert (H2' : List.length (_component_configs (run classes calls st1))
                < fuel2) by lia.
  destruct (@get_bean_returns fuel2 t t _ W2 Ha2 Hres2 H2')
    as (o2 & Hr2 & Hc2).
  destruct (get_bean classes fuel2 t None (run classes calls st1))
    as [r2 st2] eqn:Hg2.
  simpl in Hr2. subst r2.
  exists o1, st1, o2, st2. auto.
Qed.
End Progress.

End OptimizedProgress.

(** * Further properties of [ApplicationContext] *)

Module BasicExtras.
Import ApplicationContext BasicExtensions.

Lemma nth_error_update_nth (h : list Object) n f :
  nth_error (update_nth h n f) n = option_map f (nth_error h n).
Proof.
  revert n. induction h as [|obj h IH]; intros [|n]; simpl; auto.
Qed.

Lemma getattr_setattr_same h o name v :
  inst_id o < List.length h ->
  getattr (setattr h o name v) o name = Some v.
Proof.
  intros Hlt. unfold getattr, setattr. rewrite nth_error_update_nth.
  destruct (nth_error h (inst_id o)) as [attrs|] eqn:Hn; simpl.
  - apply dict_get_set_eq.
  - apply nth_error_None in Hn. lia.
Qed.

Section Lock.
Variable classes : TypeId -> ClassDef.

Lemma get_bean_held fuel (t : TypeId) st :
  _lock st = true ->
  get_bean classes fuel t st = (held_outcome Instance fuel, st).
Proof.
  intros H. destruct fuel; simpl; [reflexivity|].
  unfold get_bean_body. now rewrite H.
Qed.

Lemma inject_held fuel params deps st :
  _lock st = true ->
  inject (get_bean classes fuel) params deps st
  = (if existsb injected params then held_outcome (dict Instance) fuel
     else Return deps, st).
Proof.
  intros H. induction params as [|p params IH]; simpl; [reflexivity|].
  unfold injected at 1.
  destruct (String.eqb (param_name p) "self"); simpl; [exact IH|].
  destruct (annotation p) as [d|]; simpl; [|exact IH].
  rewrite (get_bean_held fuel d st H). now destruct fuel.
Qed.

Lemma create_instance_held fuel (t : TypeId) st :
  _lock st = true ->
  _create_instance classes (get_bean classes fuel) t st
  = if existsb injected (init_signature (classes t))
    then (held_outcome Instance fuel, st)
    else let (r, w) := construct classes t [] (world st) in
         (r, with_world st w).
Proof.
  intros H. unfold _create_instance. rewrite (inject_held fuel _ _ st H).
  destruct (existsb injected (init_signature (classes t))); [|reflexivity].
  now destruct fuel.
Qed.

Lemma get_bean_configured_held fuel (t : TypeId) config st r st1 :
  _lock st = true ->
  get_bean_configured classes (get_bean classes fuel) t config st = (r, st1) ->
  (r = Blocked -> st1 = st)
  /\ (forall x, r = Raise (ValueError x) ->
        published classes config = None
        /\ existsb injected (init_signature (classes t)) = false
        /\ construct_error classes t [] = Some (ValueError x)).
Proof.
  intros H Hg. unfold get_bean_configured in Hg.
  destruct (published classes config) as [i|].
  { injection Hg as <- <-. split; discriminate. }
  rewrite (create_instance_held fuel t st H) in Hg.
  destruct (existsb injected (init_signature (classes t))).
  - destruct fuel; simpl in Hg; injection Hg as <- <-;
      (split; [auto|intros x; discriminate]).
  - unfold construct in Hg.
    destruct (construct_error classes t []) as [e|];
      injection Hg as <- <-; (split; [discriminate|]).
    + intros x Hx. injection Hx as ->. auto.
    + discriminate.
Qed.

Lemma basic_find_implementations_registered st (t impl : TypeId) :
  In impl (_find_implementations classes st t) ->
  dict_get (_component_configs st) impl <> None.
Proof.
  unfold _find_implementations. intros H. apply filter_In in H.
  apply dict_get_In_keys. apply H.
Qed.

Lemma get_bean_locked_held fuel (t : TypeId) st r st1 :
  _lock st = true ->
  get_bean_locked classes (get_bean classes fuel) t st = (r, st1) ->
  (r = Blocked -> st1 = st)
  /\ (forall x, r = Raise (ValueError x) ->
        (x = t /\ dict_get (_component_configs st) t = None
         /\ _find_implementations classes st t = [])
        \/ exists c config,
             resolved_type classes st t = Some c
             /\ dict_get (_component_configs st) c = Some config
             /\ published classes config = None
             /\ existsb injected (init_signature (classes c)) = false
             /\ construct_error classes c [] = Some (ValueError x)).
Proof.
  intros H Hg. unfold get_bean_locked in Hg. unfold resolved_type.
  destruct (dict_get (_component_configs st) t) as [config|] eqn:Hc.
  { destruct (get_bean_configured_held fuel t config st H Hg) as [Hb Hv].
    split; [assumption|]. intros x Hx. right. exists t, config.
    destruct (Hv x Hx) as (? & ? & ?). auto. }
  destruct (_find_implementations classes st t) as [|impl rest] eqn:Hf.
  { injection Hg as <- <-. split; [discriminate|].
    intros x Hx. injection Hx as ->. left. auto. }
  destruct (dict_get (_component_configs st) impl) as [config|] eqn:Hi.
  - destruct (get_bean_configured_held fuel impl config st H Hg) as [Hb Hv].
    split; [assumption|]. intros x Hx. right. exists impl, config.
    destruct (Hv x Hx) as (? & ? & ?). auto.
  - exfalso. apply (@basic_find_implementations_registered st t impl);
      [rewrite Hf; now left|assumption].
Qed.

(** X15.  The container of spring_di.py cannot inject.  [get_bean] holds
    the plain [threading.Lock] while [_create_instance] calls [get_bean]
    for each annotated parameter, and the nested call waits for the same
    lock.  So for a registered component without a published singleton, a
    request blocks exactly when the constructor has a parameter other than
    [self] with an annotation. *)
Theorem basic_get_bean_blocks_iff_injected (fuel : nat) (t : TypeId)
  (config : Config) (st : Context) :
  _lock st = false ->
  dict_get (_component_configs st) t = Some config ->
  published classes config = None ->
  (fst (get_bean classes (S (S fuel)) t st) = Blocked
   <-> exists p, In p (init_signature (classes t)) /\ injected p = true).
Proof.
  intros Hl Hc Hp.
  rewrite <- existsb_exists.
  change (get_bean classes (S (S fuel)) t st)
    with (get_bean_body classes (get_bean classes (S fuel)) t st).
  unfold get_bean_body. rewrite Hl. unfold get_bean_locked.
  change (_component_configs (with_lock st true))
    with (_component_configs st).
  rewrite Hc. unfold get_bean_configured. rewrite Hp.
  rewrite (create_instance_held (S fuel) t (with_lock st true) eq_refl).
  destruct (existsb injected (init_signature (classes t))).
  - simpl. tauto.
  - pose proof (OptimizedTermination.construct_finishes classes t []
                  (world (with_lock st true))) as Hf.
    destruct (construct classes t [] (world (with_lock st true)))
      as [[i|e| |] w]; simpl in Hf; try contradiction; simpl;
      split; discriminate.
Qed.

(** X16.  A blocked request leaves the container blocked.  When
    [get_bean] blocks, nothing has been constructed or stored, the lock is
    still held, and every later [get_bean] and [register_component]
    blocks as well. *)
Theorem basic_blocked_container_stays_blocked (fuel : nat) (t : TypeId)
  (st : Context) :
  _lock st = false ->
  fst (get_bean classes fuel t st) = Blocked ->
  snd (get_bean classes fuel t st) = with_lock st true
  /\ (forall fuel' t',
         get_bean classes (S fuel') t' (with_lock st true)
         = (Blocked, with_lock st true))
  /\ (forall t' scope primary,
         register_component t' scope primary (with_lock st true)
         = (Blocked, with_lock st true)).
Proof.
  intros Hl Hb. split; [|split].
  - destruct fuel as [|fuel]; [discriminate|].
    simpl in *. unfold get_bean_body in *. rewrite Hl in *.
    destruct (get_bean_locked classes (get_bean classes fuel) t
                (with_lock st true)) as [r st1] eqn:Hg.
    apply get_bean_locked_held in Hg; [|reflexivity].
    destruct r; simpl in Hb; try discriminate.
    simpl. now apply Hg.
  - intros fuel' t'. now apply (get_bean_held (S fuel')).
  - reflexivity.
Qed.

(** X17.  [ValueError] in the container of spring_di.py.  A request to
    an unlocked container ends in a [ValueError] in exactly two ways: the
    requested type is neither registered nor in the [__mro__] of a
    registered component, and the error names the requested type; or the
    component that the request resolves to has no stored instance to hand
    out, has no parameter to inject, and its constructor, called without
    arguments, raises a [ValueError] of its own, which [get_bean] lets
    through. *)
Theorem basic_value_error_iff_missing_or_raised (fuel : nat)
  (t x : TypeId) (st : Context) :
  _lock st = false ->
  (fst (get_bean classes (S fuel) t st) = Raise (ValueError x)
   <-> (x = t /\ dict_get (_component_configs st) t = None
        /\ _find_implementations classes st t = [])
       \/ exists c config,
            resolved_type classes st t = Some c
            /\ dict_get (_component_configs st) c = Some config
            /\ published classes config = None
            /\ existsb injected (init_signature (classes c)) = false
            /\ construct_error classes c [] = Some (ValueError x)).
Proof.
  intros Hl. simpl. unfold get_bean_body. rewrite Hl. split.
  - intros H.
    destruct (get_bean_locked classes (get_bean classes fuel) t
                (with_lock st true)) as [r st1] eqn:Hg.
    apply get_bean_locked_held in Hg; [|reflexivity].
    destruct r; simpl in H; try discriminate.
    apply (proj2 Hg x). congruence.
  - assert (Hstep : forall c config,
               dict_get (_component_configs st) c = Some config ->
               published classes config = None ->
               existsb injected (init_signature (classes c)) = false ->
               construct_error classes c [] = Some (ValueError x) ->
               fst (let (r, st1) :=
                      get_bean_configured classes (get_bean classes fuel) c
                        config (with_lock st true) in
                    match r with
                    | Return i => (Return i, with_lock st1 false)
                    | Raise e => (Raise e, with_lock st1 false)
                    | RecursionLimit => (RecursionLimit, st1)
                    | Blocked => (Blocked, st1)
                    end)
               = Raise (ValueError x)).
    { intros c config Hc Hp Hi He. unfold get_bean_configured. rewrite Hp.
      rewrite (create_instance_held fuel c (with_lock st true) eq_refl).
      rewrite Hi. unfold construct. rewrite He. reflexivity. }
    unfold get_bean_locked, resolved_type.
    change (_component_configs (with_lock st true))
      with (_component_configs st).
    change (_find_implementations classes (with_lock st true) t)
      with (_find_implementations classes st t).
    intros [(-> & Hc & Hf)|(c & config & Hr & Hc & Hp & Hi & He)].
    + now rewrite Hc, Hf.
    + destruct (dict_get (_component_configs st) t) as [config'|] eqn:Ht.
      * injection Hr as <-. rewrite Hc in Ht. injection Ht as <-.
        now apply Hstep.
      * destruct (_find_implementations classes st t) as [|impl rest];
          [discriminate|].
        injection Hr as <-. rewrite Hc. now apply Hstep.
Qed.

(** X18.  A capability in the container of spring_di.py.  A request for
    a type that is not registered is answered as a request for the first
    registered component, in registration order, that has the type in its
    [__mro__]; the [primary] flags are not read. *)
Theorem basic_capability_resolves_to_first_implementation (fuel : nat)
  (capability impl : TypeId) (rest : list TypeId) (st : Context) :
  dict_get (_component_configs st) capability = None ->
  _find_implementations classes st capability = impl :: rest ->
  (exists earlier later,
      dict_keys (_component_configs st) = earlier ++ impl :: later
      /\ contains (mro (classes impl)) capability = true
      /\ forall t, In t earlier ->
                   contains (mro (classes t)) capability = false)
  /\ get_bean classes fuel capability st = get_bean classes fuel impl st.
Proof.
  intros Hc Hf. split.
  - unfold _find_implementations in Hf.
    apply OptimizedProperties.filter_head in Hf.
    destruct Hf as (earlier & later & Hk & Hi & He).
    now exists earlier, later.
  - destruct fuel as [|fuel]; [reflexivity|].
    simpl. unfold get_bean_body.
    destruct (_lock st); [reflexivity|].
    unfold get_bean_locked.
    change (_component_configs (with_lock st true))
      with (_component_configs st).
    change (_find_implementations classes (with_lock st true) capability)
      with (_find_implementations classes st capability).
    rewrite Hc, Hf.
    destruct (dict_get (_component_configs st) impl) as [config|] eqn:Hi;
      [reflexivity|].
    exfalso.
    apply (@basic_find_implementations_registered st capability impl);
      [rewrite Hf; now left|assumption].
Qed.

(** A component without parameters to inject is built under the lock,
    which is released afterwards. *)
Lemma basic_get_bean_leaf_returns fuel (t : TypeId) config st :
  _lock st = false ->
  dict_get (_component_configs st) t = Some config ->
  published classes config = None ->
  existsb injected (init_signature (classes t)) = false ->
  construct_error classes t [] = None ->
  exists st',
    get_bean classes (S fuel) t st
    = (Return {| inst_id := List.length (heap (world st));
                 inst_class := t |}, st')
    /\ _lock st' = false.
Proof.
  intros Hl Hc Hp Hi He. simpl. unfold get_bean_body. rewrite Hl.
  unfold get_bean_locked.
  change (_component_configs (with_lock st true))
    with (_component_configs st).
  rewrite Hc. unfold get_bean_configured. rewrite Hp.
  rewrite (create_instance_held fuel t (with_lock st true) eq_refl).
  rewrite Hi. unfold construct. rewrite He. simpl.
  eexists. split; [reflexivity|].
  destruct (Scope_eqb (scope config) SINGLETON); reflexivity.
Qed.

(** A component with a parameter to inject blocks its own request. *)
Lemma basic_injected_blocks fuel (t : TypeId) config st p :
  _lock st = false ->
  dict_get (_component_configs st) t = Some config ->
  published classes config = None ->
  In p (init_signature (classes t)) ->
  injected p = true ->
  fst (get_bean classes (S (S fuel)) t st) = Blocked.
Proof.
  intros Hl Hc Hp Hin Hi.
  change (get_bean classes (S (S fuel)) t st)
    with (get_bean_body classes (get_bean classes (S fuel)) t st).
  unfold get_bean_body. rewrite Hl. unfold get_bean_locked.
  change (_component_configs (with_lock st true))
    with (_component_configs st).
  rewrite Hc. unfold get_bean_configured. rewrite Hp.
  rewrite (create_instance_held (S fuel) t (with_lock st true) eq_refl).
  assert (He : existsb injected (init_signature (classes t)) = true)
    by (apply existsb_exists; now exists p).
  rewrite He. reflexivity.
Qed.

(** A component with a parameter to inject is never handed out. *)
Lemma basic_injected_never_returns fuel (t : TypeId) config st p :
  _lock st = false ->
  dict_get (_component_configs st) t = Some config ->
  published classes config = None ->
  In p (init_signature (classes t)) ->
  injected p = true ->
  forall i, fst (get_bean classes fuel t st) <> Return i.
Proof.
  intros Hl Hc Hp Hin Hi i.
  destruct fuel as [|fuel]; [discriminate|].
  simpl. unfold get_bean_body. rewrite Hl. unfold get_bean_locked.
  change (_component_configs (with_lock st true))
    with (_component_configs st).
  rewrite Hc. unfold get_bean_configured. rewrite Hp.
  rewrite (create_instance_held fuel t (with_lock st true) eq_refl).
  assert (He : existsb injected (init_signature (classes t)) = true)
    by (apply existsb_exists; now exists p).
  rewrite He. destruct fuel; discriminate.
Qed.

(** X19.  What a resolution of spring_di.py leaves alone.  Whatever
    [get_bean] returns or raises, the registry keeps its keys in their
    order, the entry of a prototype and the entry of a published singleton
    are untouched, and no object is lost from the heap. *)
Theorem basic_get_bean_changes_only_instances (fuel : nat) (t : TypeId)
  (st : Context) :
  evolves classes st (snd (get_bean classes fuel t st)).
Proof.
  destruct (get_bean classes fuel t st) as [r st'] eqn:Hg.
  simpl. eapply BasicProperties.basic_get_bean_evolves. eassumption.
Qed.
End Lock.

Section Descriptor.
Variable classes : TypeId -> ClassDef.

(** X20.  An autowired field is resolved once.  When a read of the field
    through [AutowiredDescriptor.__get__] returns a value, every later
    read returns the same value and leaves the container as it is: the
    first read stored the bean on the instance. *)
Theorem autowired_get_is_pinned (fuel fuel' : nat) (field_type : TypeId)
  (name : string) (instance : Instance) (v : Value) (st st1 : Context) :
  inst_id instance < List.length (heap (world st)) ->
  autowired_get classes fuel field_type name instance st = (Return v, st1) ->
  autowired_get classes fuel' field_type name instance st1
  = (Return v, st1).
Proof.
  intros Hlt H. unfold autowired_get in H.
  destruct (getattr (heap (world st)) instance (field_name name))
    as [v0|] eqn:Hg.
  - injection H as <- <-. unfold autowired_get. now rewrite Hg.
  - destruct (get_bean classes fuel field_type st) as [[i|e| |] st'] eqn:Hb;
      try discriminate.
    injection H as <- <-. unfold autowired_get. simpl.
    rewrite getattr_setattr_same; [reflexivity|].
    apply BasicProperties.basic_get_bean_evolves in Hb.
    pose proof (ev_heap Hb). lia.
Qed.

(** X21.  Assigning to an autowired field overrides the injection.
    After [AutowiredDescriptor.__set__] stored a value on an instance, a
    read returns that value and never asks the container. *)
Theorem autowired_set_then_get (fuel : nat) (field_type : TypeId)
  (name : string) (instance : Instance) (value : Value) (st : Context) :
  inst_id instance < List.length (heap (world st)) ->
  autowired_get classes fuel field_type name instance
    (autowired_set name instance value st)
  = (Return value, autowired_set name instance value st).
Proof.
  intros Hlt. unfold autowired_get, autowired_set. simpl.
  now rewrite getattr_setattr_same.
Qed.
End Descriptor.

End BasicExtras.

(** * Both containers again, and the extras at concrete registries *)

(** C7.  Prototype independence.  The claim holds of
    optimized_spring_di.py, and of spring_di.py for components that have
    nothing to inject; a prototype of spring_di.py that has a parameter to
    inject is never handed out.

    (1) [OptimizedApplicationContext]: in a state that a client has
    reached, where every cached dependency is registered, every
    registered component is cached and constructible, and the validator
    reports nothing, two requests for a prototype [t], with any calls in
    between that neither register nor clear, both return; the objects
    are instances of [t], independent of each other, and the registry
    entry of [t] is as it was: no instance is stored.

    (2) In any state, whenever two requests for a prototype return, with
    calls in between that do not register it again, the same holds.

    (3) and (4) [ApplicationContext]: the same two statements, the first
    for components without a parameter to inject, on a container whose
    lock is free at both requests.

    (5) [ApplicationContext], for a prototype with an annotated
    constructor parameter: [get_bean] waits for the lock that it holds
    itself, and returns no object at any budget. *)
Theorem prototype_independence :
  (forall (classes : TypeId -> ClassDef)
          (calls0 calls : list OptimizedApplicationContext.Call)
          (t : TypeId) (config : Config) (fuel1 fuel2 budget : nat),
      let st :=
        OptimizedApplicationContext.run classes calls0
          OptimizedApplicationContext.empty_context in
      dict_get (OptimizedApplicationContext._component_configs st) t
      = Some config ->
      scope config = PROTOTYPE ->
      OptimizedExtensions.closed st ->
      OptimizedExtensions.cached st ->
      (forall c,
          In c (dict_keys (OptimizedApplicationContext._component_configs st))
          -> OptimizedExtensions.constructible classes c) ->
      OptimizedApplicationContext.validation_fuel st <= budget ->
      fst (OptimizedApplicationContext.validate_configuration classes budget
             st) = Return [] ->
      Forall (fun c => OptimizedExtensions.quiet c = true) calls ->
      List.length (OptimizedApplicationContext._component_configs st)
      < fuel1 ->
      List.length (OptimizedApplicationContext._component_configs st)
      < fuel2 ->
      exists o1 st1 o2 st2,
        OptimizedApplicationContext.get_bean classes fuel1 t None st
        = (Return o1, st1)
        /\ OptimizedApplicationContext.get_bean classes fuel2 t None
             (OptimizedApplicationContext.run classes calls st1)
           = (Return o2, st2)
        /\ inst_class o1 = t /\ inst_class o2 = t
        /\ independent o1 o2
        /\ dict_get (OptimizedApplicationContext._component_configs st1) t
           = Some config
        /\ dict_get (OptimizedApplicationContext._component_configs st2) t
           = Some config)
  /\
  (forall (classes : TypeId -> ClassDef) (t : TypeId) (config : Config)
          (fuel1 fuel2 : nat) (path1 path2 : option (list TypeId))
          (calls : list OptimizedApplicationContext.Call)
          (st st1 st2 : OptimizedApplicationContext.Context)
          (o1 o2 : Instance),
      dict_get (OptimizedApplicationContext._component_configs st) t
      = Some config ->
      scope config = PROTOTYPE ->
      OptimizedApplicationContext.get_bean classes fuel1 t path1 st
      = (Return o1, st1) ->
      Forall (fun c => OptimizedApplicationContext.registers t c = false)
        calls ->
      OptimizedApplicationContext.get_bean classes fuel2 t path2
        (OptimizedApplicationContext.run classes calls st1)
      = (Return o2, st2) ->
      independent o1 o2
      /\ dict_get (OptimizedApplicationContext._component_configs st1) t
         = Some config
      /\ dict_get (OptimizedApplicationContext._component_configs st2) t
         = Some config)
  /\
  (forall (classes : TypeId -> ClassDef) (t : TypeId) (config : Config)
          (fuel1 fuel2 : nat) (calls : list ApplicationContext.Call)
          (st : ApplicationContext.Context),
      ApplicationContext._lock st = false ->
      dict_get (ApplicationContext._component_configs st) t = Some config ->
      scope config = PROTOTYPE ->
      existsb BasicExtensions.injected (init_signature (classes t)) = false ->
      construct_error classes t [] = None ->
      Forall (fun c => ApplicationContext.registers t c = false) calls ->
      ApplicationContext._lock
        (ApplicationContext.run classes calls
           (snd (ApplicationContext.get_bean classes (S fuel1) t st)))
      = false ->
      exists o1 st1 o2 st2,
        ApplicationContext.get_bean classes (S fuel1) t st = (Return o1, st1)
        /\ ApplicationContext.get_bean classes (S fuel2) t
             (ApplicationContext.run classes calls st1)
           = (Return o2, st2)
        /\ inst_class o1 = t /\ inst_class o2 = t
        /\ independent o1 o2
        /\ dict_get (ApplicationContext._component_configs st1) t
           = Some config
        /\ dict_get (ApplicationContext._component_configs st2) t
           = Some config)
  /\
  (forall (classes : TypeId -> ClassDef) (t : TypeId) (config : Config)
          (fuel1 fuel2 : nat) (calls : list ApplicationContext.Call)
          (st st1 st2 : ApplicationContext.Context) (o1 o2 : Instance),
      dict_get (ApplicationContext._component_configs st) t = Some config ->
      scope config = PROTOTYPE ->
      ApplicationContext.get_bean classes fuel1 t st = (Return o1, st1) ->
      Forall (fun c => ApplicationContext.registers t c = false) calls ->
      ApplicationContext.get_bean classes fuel2 t
        (ApplicationContext.run classes calls st1)
      = (Return o2, st2) ->
      independent o1 o2
      /\ dict_get (ApplicationContext._component_configs st1) t = Some config
      /\ dict_get (ApplicationContext._component_configs st2) t
         = Some config)
  /\
  (forall (classes : TypeId -> ClassDef) (t : TypeId) (config : Config)
          (p : Param) (st : ApplicationContext.Context),
      ApplicationContext._lock st = false ->
      dict_get (ApplicationContext._component_configs st) t = Some config ->
      scope config = PROTOTYPE ->
      In p (init_signature (classes t)) ->
      BasicExtensions.injected p = true ->
      (forall fuel,
          fst (ApplicationContext.get_bean classes (S (S fuel)) t st)
          = Blocked)
      /\ (forall fuel i,
             fst (ApplicationContext.get_bean classes fuel t st)
             <> Return i)).
Proof.
  assert (Hopt :
    forall (classes : TypeId -> ClassDef) (t : TypeId) (config : Config)
           (fuel1 fuel2 : nat) (path1 path2 : option (list TypeId))
           (calls : list OptimizedApplicationContext.Call)
           (st st1 st2 : OptimizedApplicationContext.Context)
           (o1 o2 : Instance),
      dict_get (OptimizedApplicationContext._component_configs st) t
      = Some config ->
      scope config = PROTOTYPE ->
      OptimizedApplicationContext.get_bean classes fuel1 t path1 st
      = (Return o1, st1) ->
      Forall (fun c => OptimizedApplicationContext.registers t c = false)
        calls ->
      OptimizedApplicationContext.get_bean classes fuel2 t path2
        (OptimizedApplicationContext.run classes calls st1)
      = (Return o2, st2) ->
      independent o1 o2
      /\ dict_get (OptimizedApplicationContext._component_configs st1) t
         = Some config
      /\ dict_get (OptimizedApplicationContext._component_configs st2) t
         = Some config).
  { intros classes t config fuel1 fuel2 path1 path2 calls st st1 st2 o1 o2
      Hc Hs H1 Hf H2.
    destruct (@OptimizedProperties.prototype_independence_optimized
                classes t config fuel1 fuel2 path1 path2 calls st st1 st2
                o1 o2 Hc Hs H1 Hf H2) as (Hd & Hc1 & Hc2 & Ha & Hb).
    unfold independent. auto. }
  assert (Hbas :
    forall (classes : TypeId -> ClassDef) (t : TypeId) (config : Config)
           (fuel1 fuel2 : nat) (calls : list ApplicationContext.Call)
           (st st1 st2 : ApplicationContext.Context) (o1 o2 : Instance),
      dict_get (ApplicationContext._component_configs st) t = Some config ->
      scope config = PROTOTYPE ->
      ApplicationContext.get_bean classes fuel1 t st = (Return o1, st1) ->
      Forall (fun c => ApplicationContext.registers t c = false) calls ->
      ApplicationContext.get_bean classes fuel2 t
        (ApplicationContext.run classes calls st1)
      = (Return o2, st2) ->
      independent o1 o2
      /\ dict_get (ApplicationContext._component_configs st1) t = Some config
      /\ dict_get (ApplicationContext._component_configs st2) t
         = Some config).
  { intros classes t config fuel1 fuel2 calls st st1 st2 o1 o2
      Hc Hs H1 Hf H2.
    destruct (@BasicProperties.prototype_independence_basic
                classes t config fuel1 fuel2 calls st st1 st2 o1 o2
                Hc Hs H1 Hf H2) as (Hd & Hc1 & Hc2 & Ha & Hb).
    unfold independent. auto. }
  split; [|split; [exact Hopt|split; [|split; [exact Hbas|]]]].
  - intros classes calls0 calls t config fuel1 fuel2 budget st
      Hc Hs Hcl Hca Hco Hb Hv Hq H1 H2.
    assert (C : OptimizedExtensions.consistent classes st).
    { apply OptimizedExtras.run_consistent.
      apply OptimizedExtras.empty_context_consistent. }
    destruct (@OptimizedProgress.prototype_requests_return classes calls t
                config fuel1 fuel2 st
                (conj C (conj Hcl (conj Hca Hco)))
                (@OptimizedProgress.validated_acyclic classes budget st
                   Hb Hv) Hc Hs Hq H1 H2)
      as (o1 & st1 & o2 & st2 & Hg1 & Hg2 & Hk1 & Hk2).
    exists o1, st1, o2, st2.
    destruct (Hopt classes t config fuel1 fuel2 None None calls st st1 st2
                o1 o2 Hc Hs Hg1
                (@OptimizedProgress.quiet_registers t calls Hq) Hg2)
      as (Hi & Hc1 & Hc2).
    repeat (split; [assumption|]). assumption.
  - intros classes t config fuel1 fuel2 calls st Hl Hc Hs Hi He Hf Hl2.
    pose proof (BasicProperties.basic_prototype_unpublished classes config Hs)
      as Hp.
    destruct (@BasicExtras.basic_get_bean_leaf_returns classes fuel1 t config
                st Hl Hc Hp Hi He) as (st1 & Hg1 & Hl1).
    rewrite Hg1 in Hl2. simpl in Hl2.
    assert (Hc2 : dict_get
                    (ApplicationContext._component_configs
                       (ApplicationContext.run classes calls st1)) t
                  = Some config).
    { apply BasicProperties.basic_run_settled; auto.
      - pose proof Hg1 as E.
        apply BasicProperties.basic_get_bean_evolves in E.
        apply (ApplicationContext.ev_settled E); auto. now left.
      - now left. }
    destruct (@BasicExtras.basic_get_bean_leaf_returns classes fuel2 t config
                (ApplicationContext.run classes calls st1) Hl2 Hc2 Hp Hi He)
      as (st2 & Hg2 & _).
    eexists. exists st1. eexists. exists st2.
    split; [exact Hg1|]. split; [exact Hg2|].
    split; [reflexivity|]. split; [reflexivity|].
    exact (Hbas classes t config (S fuel1) (S fuel2) calls st st1 st2 _ _
             Hc Hs Hg1 Hf Hg2).
  - intros classes t config p st Hl Hc Hs Hin Hi.
    pose proof (BasicProperties.basic_prototype_unpublished classes config Hs)
      as Hp.
    split.
    + intros fuel.
      eapply BasicExtras.basic_injected_blocks; eauto.
    + intros fuel.
      eapply BasicExtras.basic_injected_never_returns; eauto.
Qed.


Module ExtraWitnesses.

Module Optimized.
Import OptimizedApplicationContext OptimizedExtensions.

(** X8 at the service of the load test: resolved, validated, registered
    again and resolved again. *)
Lemma reregistration_replaces_singleton_witness :
  exists o1 o2 st1 st2,
    get_bean Demo.classes 2 "LoadTestService" None
      (run Demo.classes
         [Register "LoadTestRepository" SINGLETON false;
          Register "LoadTestService" SINGLETON false] empty_context)
    = (Return o1, st1)
    /\ get_bean Demo.classes 2 "LoadTestService" None
         (register_component Demo.classes "LoadTestService" SINGLETON false
            (run Demo.classes [ValidateConfiguration 3] st1))
       = (Return o2, st2)
    /\ inst_id o1 < inst_id o2 /\ inst_class o2 = "LoadTestService"
    /\ o1 <> o2.
Proof.
  eexists. eexists. eexists. eexists.
  split; [vm_compute; reflexivity|].
  split; [vm_compute; reflexivity|].
  eapply (@OptimizedExtras.reregistration_replaces_singleton Demo.classes
            [Register "LoadTestRepository" SINGLETON false;
             Register "LoadTestService" SINGLETON false]
            [ValidateConfiguration 3] 2 2 "LoadTestService" None None
            SINGLETON false).
  - vm_compute. reflexivity.
  - vm_compute. reflexivity.
Defined.

(** X9 at the cyclic pair of the stability test: the request ends, with
    an error. *)
Lemma get_component_finishes_on_closed_registry_witness :
  finishes
    (fst (get_component Demo.classes 3 "ServiceA"
            (Demo.registry_of [("ServiceA", SINGLETON, false);
                               ("ServiceB", SINGLETON, false)]))).
Proof.
  apply OptimizedTermination.get_component_finishes_on_closed_registry.
  - apply OptimizedTermination.closedb_closed. vm_compute. reflexivity.
  - vm_compute. lia.
Defined.

(** X10 at the registry of one cyclic pair and one dangling dependency. *)
Lemma reported_cycles_are_cycles_witness :
  (exists x mid,
      ["ServiceA"; "ServiceB"; "ServiceA"] = x :: mid ++ [x]
      /\ NoDup (x :: mid))
  /\ walk Demo.cyclic_registry ["ServiceA"; "ServiceB"; "ServiceA"]
  /\ Forall
       (fun x => In x (dict_keys (_component_configs Demo.cyclic_registry)))
       ["ServiceA"; "ServiceB"; "ServiceA"].
Proof.
  eapply (@OptimizedValidation.reported_cycles_are_cycles Demo.classes 4
            Demo.cyclic_registry _ _ ["ServiceA"; "ServiceB"; "ServiceA"]).
  - vm_compute. reflexivity.
  - simpl. auto.
Defined.



(** X12 at the same registry, for its dangling dependency. *)
Lemma unresolved_issues_are_resolver_failures_witness :
  In (UnresolvedIssue "ServiceWithUnregisteredDep" "UnregisteredDependency")
    [CircularIssue ["ServiceA"; "ServiceB"; "ServiceA"];
     CircularIssue ["ServiceB"; "ServiceA"; "ServiceB"];
     UnresolvedIssue "ServiceWithUnregisteredDep" "UnregisteredDependency"]
  <-> exists deps name,
        In ("ServiceWithUnregisteredDep", deps)
          (_dependency_cache Demo.cyclic_registry)
        /\ In (name, "UnregisteredDependency") deps
        /\ fst (get_bean Demo.classes 1 "UnregisteredDependency" None
                  Demo.cyclic_registry)
           = Raise (BeanNotFoundError "UnregisteredDependency").
Proof.
  apply (@OptimizedValidation.unresolved_issues_are_resolver_failures
           Demo.classes 0 4 Demo.cyclic_registry Demo.cyclic_registry).
  vm_compute. reflexivity.
Defined.

(** X13 at the registry of the load test, which is closed and passes the
    validation. *)
Lemma validated_registry_raises_no_cycle_witness :
  fst (get_component Demo.classes 3 "LoadTestService" Demo.service_registry)
  <> Raise (CircularDependencyError
              ["LoadTestService"; "LoadTestRepository"; "LoadTestService"]).
Proof.
  apply (@OptimizedValidation.validated_registry_raises_no_cycle
           Demo.classes 3 5 "LoadTestService" Demo.service_registry []).
  - apply OptimizedTermination.closedb_closed. vm_compute. reflexivity.
  - vm_compute. lia.
  - vm_compute. reflexivity.
  - intros cycle_path [].
Defined.

(** X14 at a registry of two data sources and the service of the load
    test: the interface resolves to the data source registered first. *)
Lemma get_component_returns_on_validated_registry_witness :
  exists i,
    fst (get_component Demo.classes 5 "IDataSource"
           (run Demo.classes
              [Register "DatabaseDataSource" SINGLETON false;
               Register "CacheDataSource" SINGLETON true;
               Register "LoadTestRepository" SINGLETON false;
               Register "LoadTestService" PROTOTYPE false]
              empty_context))
    = Return i
    /\ inst_class i = "DatabaseDataSource".
Proof.
  apply (@OptimizedProgress.get_component_returns_on_validated_registry
           Demo.classes
           [Register "DatabaseDataSource" SINGLETON false;
            Register "CacheDataSource" SINGLETON true;
            Register "LoadTestRepository" SINGLETON false;
            Register "LoadTestService" PROTOTYPE false]
           5 5 "IDataSource" "DatabaseDataSource").
  - apply OptimizedTermination.closedb_closed. vm_compute. reflexivity.
  - apply OptimizedProgress.cachedb_cached. vm_compute. reflexivity.
  - intros c Hc. apply OptimizedProgress.constructibleb_constructible.
    vm_compute in Hc.
    destruct Hc as [<-|[<-|[<-|[<-|[]]]]]; vm_compute; reflexivity.
  - vm_compute. lia.
  - vm_compute. reflexivity.
  - vm_compute. reflexivity.
  - vm_compute. lia.
Defined.
End Optimized.

Module Basic.
Import ApplicationContext BasicExtensions.

(** X15 at the service of the load test, whose constructor takes the
    repository. *)
Lemma basic_get_bean_blocks_iff_injected_witness :
  fst (get_bean Demo.classes 2 "LoadTestService" Demo.basic_service_registry)
  = Blocked
  <-> exists p,
        In p (init_signature (Demo.classes "LoadTestService"))
        /\ injected p = true.
Proof.
  apply (@BasicExtras.basic_get_bean_blocks_iff_injected Demo.classes 0
           "LoadTestService"
           {| scope := SINGLETON; primary := false; instance := None |}
           Demo.basic_service_registry); reflexivity.
Defined.

(** X16 at the same request. *)
Lemma basic_blocked_container_stays_blocked_witness :
  snd (get_bean Demo.classes 2 "LoadTestService" Demo.basic_service_registry)
  = with_lock Demo.basic_service_registry true
  /\ (forall fuel' t',
         get_bean Demo.classes (S fuel') t'
           (with_lock Demo.basic_service_registry true)
         = (Blocked, with_lock Demo.basic_service_registry true))
  /\ (forall t' scope primary,
         register_component t' scope primary
           (with_lock Demo.basic_service_registry true)
         = (Blocked, with_lock Demo.basic_service_registry true)).
Proof.
  apply (@BasicExtras.basic_blocked_container_stays_blocked Demo.classes 2
           "LoadTestService" Demo.basic_service_registry).
  - reflexivity.
  - vm_compute. reflexivity.
Defined.

(** X17 at [FaultyService] of the stability test, whose constructor
    raises a [ValueError]. *)
Lemma basic_value_error_iff_missing_or_raised_witness :
  fst (get_bean Demo.classes 1 "FaultyService"
         (Demo.basic_registry_of [("FaultyService", SINGLETON, false)]))
  = Raise (ValueError "Intentional error")
  <-> ("Intentional error" = "FaultyService"
       /\ dict_get
            (_component_configs
               (Demo.basic_registry_of [("FaultyService", SINGLETON, false)]))
            "FaultyService" = None
       /\ _find_implementations Demo.classes
            (Demo.basic_registry_of [("FaultyService", SINGLETON, false)])
            "FaultyService" = [])
      \/ exists c config,
           resolved_type Demo.classes
             (Demo.basic_registry_of [("FaultyService", SINGLETON, false)])
             "FaultyService" = Some c
           /\ dict_get
                (_component_configs
                   (Demo.basic_registry_of
                      [("FaultyService", SINGLETON, false)])) c
              = Some config
           /\ published Demo.classes config = None
           /\ existsb injected (init_signature (Demo.classes c)) = false
           /\ construct_error Demo.classes c []
              = Some (ValueError "Intentional error").
Proof.
  apply (@BasicExtras.basic_value_error_iff_missing_or_raised Demo.classes 0
           "FaultyService" "Intentional error"
           (Demo.basic_registry_of [("FaultyService", SINGLETON, false)])).
  reflexivity.
Defined.

(** X18 at two implementations of [IDataSource], the second one
    primary. *)
Lemma basic_capability_resolves_to_first_implementation_witness :
  (exists earlier later,
      dict_keys
        (_component_configs
           (Demo.basic_registry_of
              [("DatabaseDataSource", SINGLETON, false);
               ("CacheDataSource", SINGLETON, true)]))
      = earlier ++ "DatabaseDataSource" :: later
      /\ contains (mro (Demo.classes "DatabaseDataSource")) "IDataSource"
         = true
      /\ forall t, In t earlier ->
                   contains (mro (Demo.classes t)) "IDataSource" = false)
  /\ get_bean Demo.classes 1 "IDataSource"
       (Demo.basic_registry_of
          [("DatabaseDataSource", SINGLETON, false);
           ("CacheDataSource", SINGLETON, true)])
     = get_bean Demo.classes 1 "DatabaseDataSource"
         (Demo.basic_registry_of
            [("DatabaseDataSource", SINGLETON, false);
             ("CacheDataSource", SINGLETON, true)]).
Proof.
  apply (@BasicExtras.basic_capability_resolves_to_first_implementation
           Demo.classes 1 "IDataSource" "DatabaseDataSource"
           ["CacheDataSource"]
           (Demo.basic_registry_of
              [("DatabaseDataSource", SINGLETON, false);
               ("CacheDataSource", SINGLETON, true)]));
    reflexivity.
Defined.

(** X20 at a prototype object with an autowired field [repo]: the second
    read needs no budget at all. *)
Lemma autowired_get_is_pinned_witness :
  exists v st1,
    autowired_get Demo.classes 1 "LoadTestRepository" "repo"
      {| inst_id := 0; inst_class := "PrototypeService" |}
      (snd (get_bean Demo.classes 1 "PrototypeService"
              Demo.basic_service_registry))
    = (Return v, st1)
    /\ autowired_get Demo.classes 0 "LoadTestRepository" "repo"
         {| inst_id := 0; inst_class := "PrototypeService" |} st1
       = (Return v, st1).
Proof.
  eexists. eexists. split; [vm_compute; reflexivity|].
  apply (@BasicExtras.autowired_get_is_pinned Demo.classes 1 0
           "LoadTestRepository" "repo"
           {| inst_id := 0; inst_class := "PrototypeService" |} _
           (snd (get_bean Demo.classes 1 "PrototypeService"
                   Demo.basic_service_registry)) _).
  - vm_compute. lia.
  - vm_compute. reflexivity.
Defined.

(** X21 at the same object. *)
Lemma autowired_set_then_get_witness :
  autowired_get Demo.classes 0 "LoadTestRepository" "repo"
    {| inst_id := 0; inst_class := "PrototypeService" |}
    (autowired_set "repo"
       {| inst_id := 0; inst_class := "PrototypeService" |} (VInt 7)
       (snd (get_bean Demo.classes 1 "PrototypeService"
               Demo.basic_service_registry)))
  = (Return (VInt 7),
     autowired_set "repo"
       {| inst_id := 0; inst_class := "PrototypeService" |} (VInt 7)
       (snd (get_bean Demo.classes 1 "PrototypeService"
               Demo.basic_service_registry))).
Proof.
  apply (@BasicExtras.autowired_set_then_get Demo.classes 0
           "LoadTestRepository" "repo"
           {| inst_id := 0; inst_class := "PrototypeService" |} (VInt 7)
           (snd (get_bean Demo.classes 1 "PrototypeService"
                   Demo.basic_service_registry))).
  vm_compute. lia.
Defined.
End Basic.


End ExtraWitnesses.

(** C7 at the service of the load test registered as a prototype, whose
    constructor takes the repository: optimized_spring_di.py returns two
    independent services, with an attribute update and a validation
    between the requests, and spring_di.py blocks.  The prototype of the
    tests, which takes nothing, is returned twice by spring_di.py. *)
Lemma prototype_independence_witness :
  (exists o1 st1 o2 st2,
      OptimizedApplicationContext.get_bean Demo.classes 3
        "LoadTestService" None
        (OptimizedApplicationContext.run Demo.classes
           [OptimizedApplicationContext.Register "LoadTestRepository"
              SINGLETON false;
            OptimizedApplicationContext.Register "LoadTestService"
              PROTOTYPE false]
           OptimizedApplicationContext.empty_context)
      = (Return o1, st1)
      /\ OptimizedApplicationContext.get_bean Demo.classes 3
           "LoadTestService" None
           (OptimizedApplicationContext.run Demo.classes
              [OptimizedApplicationContext.SetAttr
                 {| inst_id := 1; inst_class := "LoadTestService" |}
                 "counter" (VInt 1);
               OptimizedApplicationContext.ValidateConfiguration 5] st1)
         = (Return o2, st2)
      /\ inst_class o1 = "LoadTestService"
      /\ inst_class o2 = "LoadTestService"
      /\ independent o1 o2
      /\ dict_get (OptimizedApplicationContext._component_configs st1)
           "LoadTestService"
         = Some {| scope := PROTOTYPE; primary := false; instance := None |}
      /\ dict_get (OptimizedApplicationContext._component_configs st2)
           "LoadTestService"
         = Some {| scope := PROTOTYPE; primary := false; instance := None |})
  /\ (exists o1 st1 o2 st2,
         ApplicationContext.get_bean Demo.classes 1 "PrototypeService"
           Demo.basic_service_registry
         = (Return o1, st1)
         /\ ApplicationContext.get_bean Demo.classes 1 "PrototypeService"
              (ApplicationContext.run Demo.classes
                 [ApplicationContext.SetAttr
                    {| inst_id := 0; inst_class := "PrototypeService" |}
                    "counter" (VInt 1)] st1)
            = (Return o2, st2)
         /\ inst_class o1 = "PrototypeService"
         /\ inst_class o2 = "PrototypeService"
         /\ independent o1 o2
         /\ dict_get (ApplicationContext._component_configs st1)
              "PrototypeService"
            = Some {| scope := PROTOTYPE; primary := false;
                      instance := None |}
         /\ dict_get (ApplicationContext._component_configs st2)
              "PrototypeService"
            = Some {| scope := PROTOTYPE; primary := false;
                      instance := None |})
  /\ fst (ApplicationContext.get_bean Demo.classes 2 "LoadTestService"
            (Demo.basic_registry_of
               [("LoadTestRepository", SINGLETON, false);
                ("LoadTestService", PROTOTYPE, false)]))
     = Blocked.
Proof.
  split; [|split].
  - apply (proj1 prototype_independence Demo.classes
             [OptimizedApplicationContext.Register "LoadTestRepository"
                SINGLETON false;
              OptimizedApplicationContext.Register "LoadTestService"
                PROTOTYPE false]
             [OptimizedApplicationContext.SetAttr
                {| inst_id := 1; inst_class := "LoadTestService" |}
                "counter" (VInt 1);
              OptimizedApplicationContext.ValidateConfiguration 5]
             "LoadTestService"
             {| scope := PROTOTYPE; primary := false; instance := None |}
             3 3 5).
    + vm_compute. reflexivity.
    + reflexivity.
    + apply OptimizedTermination.closedb_closed. vm_compute. reflexivity.
    + apply OptimizedProgress.cachedb_cached. vm_compute. reflexivity.
    + intros c Hc. apply OptimizedProgress.constructibleb_constructible.
      vm_compute in Hc.
      destruct Hc as [<-|[<-|[]]]; vm_compute; reflexivity.
    + vm_compute. lia.
    + vm_compute. reflexivity.
    + repeat constructor.
    + vm_compute. lia.
    + vm_compute. lia.
  - apply (proj1 (proj2 (proj2 prototype_independence)) Demo.classes
             "PrototypeService"
             {| scope := PROTOTYPE; primary := false; instance := None |}
             0 0
             [ApplicationContext.SetAttr
                {| inst_id := 0; inst_class := "PrototypeService" |}
                "counter" (VInt 1)]
             Demo.basic_service_registry).
    + reflexivity.
    + vm_compute. reflexivity.
    + reflexivity.
    + vm_compute. reflexivity.
    + vm_compute. reflexivity.
    + repeat constructor.
    + vm_compute. reflexivity.
  - apply (proj1 (proj2 (proj2 (proj2 (proj2 prototype_independence)))
                   Demo.classes "LoadTestService"
                   {| scope := PROTOTYPE; primary := false;
                      instance := None |}
                   (Demo.dep "repo" "LoadTestRepository")
                   (Demo.basic_registry_of
                      [("LoadTestRepository", SINGLETON, false);
                       ("LoadTestService", PROTOTYPE, false)])
                   eq_refl eq_refl eq_refl
                   (or_intror (or_introl eq_refl)) eq_refl) 0).
Defined.
